(** * libtxref: the TXREF codec of [src/libtxref/txref.cpp]

    A shallow embedding of the bit-field codec, the pretty printer, the
    input classifier and the encode/decode orchestration of libtxref,
    together with the properties stated about them in the specification.

    Conventions of the embedding.
    - [std::string] is [list ascii]; string literals are written
      [str "..."].
    - [int], [uint32_t], [uint8_t] and [size_type] values are integers in
      [Z]; every conversion the source performs is written out
      ([to_uint8], [to_uint32], [to_size_type], [to_difference_type]).
    - A call either returns, throws [std::runtime_error], trips an
      [assert], or has undefined behaviour: the four constructors of
      [outcome].
    - libbech32 is an external library.  Its three entry points used by
      txref.cpp are the fields of the class [bech32.Codec]; an exception
      that leaves one of them crosses txref.cpp unchanged ([call]). *)

From Stdlib Require Import ZArith List String Ascii Bool Lia Btauto DecimalString.
Import ListNotations.

#[local] Open Scope Z_scope.
#[local] Open Scope bool_scope.

(** ** Strings *)

Definition str (s : string) : list ascii := list_ascii_of_string s.

Definition chr (s : string) : ascii :=
  match s with
  | String c _ => c
  | EmptyString => zero
  end.

(** ** Outcomes of a call *)

Inductive exception : Type :=
| runtime_error (what : string)   (* thrown by a [throw] of txref.cpp *)
| codec_error (what : string).    (* thrown inside libbech32, propagated *)

Inductive outcome (A : Type) : Type :=
| Ok (a : A)
| Throw (e : exception)
| Abort                           (* a failed [assert] *)
| Undefined.                      (* undefined behaviour *)

Arguments Ok {A} a.
Arguments Throw {A} e.
Arguments Abort {A}.
Arguments Undefined {A}.

Definition bind {A B : Type} (m : outcome A) (k : A -> outcome B) : outcome B :=
  match m with
  | Ok a => k a
  | Throw e => Throw e
  | Abort => Abort
  | Undefined => Undefined
  end.

Notation "x <- m ;; k" := (bind m (fun x => k))
  (at level 61, m at next level, right associativity).
Notation "m ;;; k" := (bind m (fun _ => k))
  (at level 61, right associativity).

Definition throw {A : Type} (what : string) : outcome A :=
  Throw (runtime_error what).

Definition assert (b : bool) : outcome unit :=
  if b then Ok tt else Abort.

Definition returns {A : Type} (m : outcome A) : Prop := exists a, m = Ok a.

(** ** Machine integers *)

Definition to_uint8 (z : Z) : Z := z mod 2 ^ 8.
Definition to_uint32 (z : Z) : Z := z mod 2 ^ 32.
Definition to_size_type (z : Z) : Z := z mod 2 ^ 64.
Definition to_difference_type (z : Z) : Z :=
  let u := z mod 2 ^ 64 in if u <? 2 ^ 63 then u else u - 2 ^ 64.

Definition size {A : Type} (l : list A) : Z := Z.of_nat (List.length l).

(** [v[i]] on a [std::vector] or [std::string]: undefined out of range. *)
Definition at_index {A : Type} (l : list A) (i : nat) : outcome A :=
  match nth_error l i with
  | Some a => Ok a
  | None => Undefined
  end.

(** [v[i] = f(v[i])], the shape of [v[i] |= e] and [v[i] &= e]. *)
Fixpoint modify {A : Type} (i : nat) (f : A -> A) (l : list A) : list A :=
  match l, i with
  | [], _ => []
  | a :: l', O => f a :: l'
  | a :: l', S i' => a :: modify i' f l'
  end.

(** ** libbech32 (external) *)

Module bech32.

Inductive Encoding : Type := Invalid | Bech32 | Bech32m.

Record DecodedResult : Type := {
  encoding : Encoding;
  hrp : list ascii;
  dp : list Z
}.

(** [bech32::separator], the character of the comment at line 462. *)
Definition separator : ascii := chr "1".

(** [bech32::limits::MAX_HRP_LENGTH]: "HRP must be less than 84
    characters long". *)
Definition MAX_HRP_LENGTH : Z := 83.

(** The symbol alphabet of the codec: the character of each 5-bit
    value, in order of value. *)
Definition charset : list ascii := str "qpzry9x8gf2tvdw0s3jn54khce6mua7l".

Definition isSymbolChar (c : ascii) : bool := existsb (Ascii.eqb c) charset.

(** The characters of a lower-case string of the codec. *)
Definition isCodecChar (c : ascii) : bool :=
  isSymbolChar c || Ascii.eqb c separator.

Definition isSymbol (v : Z) : bool := (0 <=? v) && (v <? 32).

(** A call into the library returns or throws an exception of the
    library's own. *)
Inductive result (A : Type) : Type :=
| Return (a : A)
| Raise (what : string).

Arguments Return {A} a.
Arguments Raise {A} what.

Class Codec : Type := {
  encode : list ascii -> list Z -> result (list ascii);
  decode : list ascii -> result DecodedResult;
  stripUnknownChars : list ascii -> list ascii
}.

(** The contract of section 6, as far as txref.cpp relies on it.
    - [stripUnknownChars] filters: it keeps the symbols of the alphabet
      and the separator, and drops colons and hyphens.
    - [encode] accepts a non-empty lower-case HRP with a payload of
      5-bit symbols when the string fits in 90 characters; it returns
      the HRP, the separator, and one alphabet character per payload
      symbol and per checksum symbol (six of them), 90 characters at
      most.
    - [decode] inverts [encode] and reports the modern checksum.
    - A payload that [decode] returns came from a string of at most 90
      characters: HRP, separator, payload and checksum. *)
Class Laws (codec : Codec) : Prop := {
  strip_filter :
    exists kept : ascii -> bool,
      (forall s, stripUnknownChars s = filter kept s) /\
      (forall c, isCodecChar c = true -> kept c = true) /\
      kept (chr ":") = false /\ kept (chr "-") = false;
  encode_accepts :
    forall hrp dp,
      hrp <> [] -> forallb isCodecChar hrp = true ->
      forallb isSymbol dp = true ->
      Z.of_nat (List.length hrp) + Z.of_nat (List.length dp) + 7 <= 90 ->
      exists raw, encode hrp dp = Return raw;
  encode_shape :
    forall hrp dp raw,
      forallb isCodecChar hrp = true ->
      encode hrp dp = Return raw ->
      exists body,
        raw = hrp ++ separator :: body /\
        forallb isSymbolChar body = true /\
        List.length body = (List.length dp + 6)%nat /\
        Z.of_nat (List.length raw) <= 90;
  decode_encode :
    forall hrp dp raw,
      forallb isCodecChar hrp = true ->
      encode hrp dp = Return raw ->
      decode raw = Return {| encoding := Bech32m; hrp := hrp; dp := dp |};
  decode_shape :
    forall s b,
      decode s = Return b -> dp b <> [] ->
      Z.of_nat (List.length s) =
        Z.of_nat (List.length (hrp b)) + Z.of_nat (List.length (dp b)) + 7 /\
      Z.of_nat (List.length s) <= 90
}.

End bech32.

(** A call into libbech32 from txref.cpp. *)
Definition call {A : Type} (r : bech32.result A) : outcome A :=
  match r with
  | bech32.Return a => Ok a
  | bech32.Raise what => Throw (codec_error what)
  end.

(** ** libtxref.h *)

Module txref.

(** Modelled from the spec: the header libtxref.h is not among the
    sources.  Section 6 publishes "the four canonical HRP literals" and
    the "minimum valid lengths with/without HRP"; their values follow
    from the source: the mainnet HRP is 't','x' (lines 460-461), the
    testnet one is "txtest" (line 596), the four magic codes are the
    bech32 values of the sigils 'r','y','x','8' that [addHrpIfNeeded]
    looks for, and a string without HRP has one character per payload
    symbol (9 or 12) plus six checksum characters. *)
Definition BECH32_HRP_MAIN : list ascii := str "tx".
Definition BECH32_HRP_TEST : list ascii := str "txtest".

Definition MAGIC_BTC_MAIN : Z := 3.
Definition MAGIC_BTC_MAIN_EXTENDED : Z := 4.
Definition MAGIC_BTC_TEST : Z := 6.
Definition MAGIC_BTC_TEST_EXTENDED : Z := 7.

Definition colon : ascii := chr ":".
Definition hyphen : ascii := chr "-".

Module limits.
Definition TXREF_STRING_MIN_LENGTH : Z := 18.
Definition TXREF_STRING_NO_HRP_MIN_LENGTH : Z := 15.
Definition TXREF_EXT_STRING_MIN_LENGTH : Z := 21.
Definition TXREF_EXT_STRING_NO_HRP_MIN_LENGTH : Z := 18.
Definition TXREF_STRING_MIN_LENGTH_TESTNET : Z := 22.
Definition TXREF_EXT_STRING_MIN_LENGTH_TESTNET : Z := 25.
End limits.

Inductive Encoding : Type := Invalid | Bech32 | Bech32m.

Inductive InputParam : Type := unknown | address | txid | txref | txrefext.

Definition InputParam_eqb (a b : InputParam) : bool :=
  match a, b with
  | unknown, unknown | address, address | txid, txid
  | txref, txref | txrefext, txrefext => true
  | _, _ => false
  end.

Record DecodedResult : Type := {
  hrp : list ascii;
  txref_ : list ascii;            (* the member [txref] *)
  blockHeight : Z;
  transactionPosition : Z;
  txoIndex : Z;
  magicCode : Z;
  encoding : Encoding;
  commentary : list ascii
}.

End txref.

Import txref.limits.

(** ** txref.cpp, the anonymous namespace *)

Definition MAX_BLOCK_HEIGHT : Z := 0xFFFFFF.
Definition MAX_TRANSACTION_POSITION : Z := 0x7FFF.
Definition MAX_TXO_INDEX : Z := 0x7FFF.
Definition MAX_MAGIC_CODE : Z := 0x1F.
Definition DATA_SIZE : Z := 9.
Definition DATA_EXTENDED_SIZE : Z := 12.

Definition isStandardSize (dataSize : Z) : bool := dataSize =? DATA_SIZE.

Definition isExtendedSize (dataSize : Z) : bool := dataSize =? DATA_EXTENDED_SIZE.

Definition isDataSizeValid (dataSize : Z) : bool :=
  isStandardSize dataSize || isExtendedSize dataSize.

Definition isLengthValid (len : Z) : bool :=
  (len =? TXREF_STRING_NO_HRP_MIN_LENGTH) ||
  (len =? TXREF_EXT_STRING_NO_HRP_MIN_LENGTH).

(** *** Range validator *)

Definition checkBlockHeightRange (blockHeight : Z) : outcome unit :=
  if (blockHeight <? 0) || (blockHeight >? MAX_BLOCK_HEIGHT)
  then throw "block height is too large"
  else Ok tt.

Definition checkTransactionPositionRange (transactionPosition : Z) : outcome unit :=
  if (transactionPosition <? 0) || (transactionPosition >? MAX_TRANSACTION_POSITION)
  then throw "transaction position is too large"
  else Ok tt.

Definition checkTxoIndexRange (txoIndex : Z) : outcome unit :=
  if (txoIndex <? 0) || (txoIndex >? MAX_TXO_INDEX)
  then throw "txo index is too large"
  else Ok tt.

Definition checkMagicCodeRange (magicCode : Z) : outcome unit :=
  if (magicCode <? 0) || (magicCode >? MAX_MAGIC_CODE)
  then throw "magic code is too large"
  else Ok tt.

Definition checkExtendedMagicCode (magicCode : Z) : outcome unit :=
  if negb (magicCode =? txref.MAGIC_BTC_MAIN_EXTENDED) &&
     negb (magicCode =? txref.MAGIC_BTC_TEST_EXTENDED)
  then throw "magic code does not support extended txrefs"
  else Ok tt.

(** *** Pretty printer *)

(** [for(const auto &c : raw) body] over a loop state. *)
Fixpoint for_each {A S : Type} (body : S -> A -> outcome S) (l : list A) (s : S)
  : outcome S :=
  match l with
  | [] => Ok s
  | a :: l' => s' <- body s a ;; for_each body l' s'
  end.

(** [output[outputPos] = c]: undefined when [outputPos] is out of range. *)
Definition store {A : Type} (l : list A) (i : Z) (a : A) : outcome (list A) :=
  if (0 <=? i) && (i <? size l)
  then Ok (modify (Z.to_nat i) (fun _ => a) l)
  else Undefined.

(** [s.insert(s.cbegin() + pos, c)]: the iterator must lie in
    [[cbegin(), cend()]]. *)
Definition string_insert (s : list ascii) (pos : Z) (c : ascii)
  : outcome (list ascii) :=
  if (0 <=? pos) && (pos <=? size s)
  then Ok (firstn (Z.to_nat pos) s ++ c :: skipn (Z.to_nat pos) s)
  else Undefined.

(** The loop state of [addGroupSeparators]. *)
Record gs_state : Type := {
  output : list ascii;
  rawPos : Z;
  outputPos : Z
}.

Definition addGroupSeparators_body (hrpLength separatorOffset : Z)
  (st : gs_state) (c : ascii) : outcome gs_state :=
  out <- store (output st) (outputPos st) c ;;
  let outputPos' := outputPos st + 1 in
  let rawPos' := rawPos st + 1 in
  if (rawPos' >? hrpLength) && (Z.rem (rawPos' - hrpLength) separatorOffset =? 0)
  then Ok {| output := out; rawPos := rawPos'; outputPos := outputPos' + 1 |}
  else Ok {| output := out; rawPos := rawPos'; outputPos := outputPos' |}.

Definition addGroupSeparators (raw : list ascii) (hrplen : Z) (separatorOffset : Z)
  : outcome (list ascii) :=
  if hrplen >? bech32.MAX_HRP_LENGTH
  then throw "HRP must be less than 84 characters long"
  else if separatorOffset <? 1
  then throw "separatorOffset must be > 0"
  else
    let rawLength := to_difference_type (size raw) in
    let hrpLength := to_difference_type hrplen in
    if rawLength <? 2
    then throw "Can't add separator characters to strings with length < 2"
    else if rawLength =? hrpLength
    then Ok raw
    else if rawLength <? hrpLength
    then throw "HRP length can't be greater than input length"
    else
      let numSeparators := Z.quot (rawLength - hrpLength - 1) separatorOffset in
      let outputLength := to_size_type (rawLength + numSeparators) in
      let st0 := {| output := repeat txref.hyphen (Z.to_nat outputLength);
                    rawPos := 0; outputPos := 0 |} in
      st <- for_each (addGroupSeparators_body hrpLength separatorOffset) raw st0 ;;
      Ok (output st).

Definition prettyPrint (plain : list ascii) (hrplen : Z) : outcome (list ascii) :=
  let hrpPlusSeparatorLength := to_difference_type (to_size_type (hrplen + 1)) in
  result <- string_insert plain hrpPlusSeparatorLength txref.colon ;;
  let hrpPlusSeparatorAndColonLength := to_size_type (hrplen + 2) in
  addGroupSeparators result hrpPlusSeparatorAndColonLength 4.

(** *** Bit-field codec: unpacking *)

Definition extractMagicCode (dp : list Z) : outcome Z :=
  assert (negb (size dp =? 0)) ;;;
  at_index dp 0.

Definition extractVersion (dp : list Z) : outcome Z :=
  assert (size dp >? 1) ;;;
  d1 <- at_index dp 1 ;;
  Ok (to_uint8 (Z.land d1 0x1)).

Definition unknown_version (version : Z) : string :=
  "Unknown txref version detected: " ++
  DecimalString.NilZero.string_of_int (Z.to_int version).

Definition extractBlockHeight (dp : list Z) : outcome Z :=
  version <- extractVersion dp ;;
  if version =? 0 then
    d1 <- at_index dp 1 ;;
    let blockHeight := Z.shiftr d1 1 in
    d2 <- at_index dp 2 ;;
    let blockHeight := Z.lor blockHeight (Z.shiftl d2 4) in
    d3 <- at_index dp 3 ;;
    let blockHeight := Z.lor blockHeight (Z.shiftl d3 9) in
    d4 <- at_index dp 4 ;;
    let blockHeight := Z.lor blockHeight (Z.shiftl d4 14) in
    d5 <- at_index dp 5 ;;
    let blockHeight := Z.lor blockHeight (Z.shiftl d5 19) in
    Ok blockHeight
  else throw (unknown_version version).

Definition extractTransactionPosition (dp : list Z) : outcome Z :=
  version <- extractVersion dp ;;
  if version =? 0 then
    d6 <- at_index dp 6 ;;
    let transactionPosition := d6 in
    d7 <- at_index dp 7 ;;
    let transactionPosition := Z.lor transactionPosition (Z.shiftl d7 5) in
    d8 <- at_index dp 8 ;;
    let transactionPosition := Z.lor transactionPosition (Z.shiftl d8 10) in
    Ok transactionPosition
  else throw (unknown_version version).

Definition extractTxoIndex (dp : list Z) : outcome Z :=
  if size dp <? 12 then Ok 0
  else
    version <- extractVersion dp ;;
    if version =? 0 then
      d9 <- at_index dp 9 ;;
      let txoIndex := d9 in
      d10 <- at_index dp 10 ;;
      let txoIndex := Z.lor txoIndex (Z.shiftl d10 5) in
      d11 <- at_index dp 11 ;;
      let txoIndex := Z.lor txoIndex (Z.shiftl d11 10) in
      Ok txoIndex
    else throw (unknown_version version).

(** *** HRP recovery *)

(** [txref.at(0)] is evaluated only after [isLengthValid], on a string of
    15 or 18 characters, so it never throws. *)
Definition addHrpIfNeeded (txref : list ascii) : list ascii :=
  if isLengthValid (size txref) &&
     (Ascii.eqb (nth 0 txref zero) (chr "r") || Ascii.eqb (nth 0 txref zero) (chr "y"))
  then txref.BECH32_HRP_MAIN ++ bech32.separator :: txref
  else if isLengthValid (size txref) &&
     (Ascii.eqb (nth 0 txref zero) (chr "x") || Ascii.eqb (nth 0 txref zero) (chr "8"))
  then txref.BECH32_HRP_TEST ++ bech32.separator :: txref
  else txref.

(** *** Bit-field codec: packing *)

(** The payload that [txrefEncode] hands to [bech32::encode]. *)
Definition txrefEncode_dp (magicCode bh tp : Z) : list Z :=
  let dp := repeat 0 (Z.to_nat DATA_SIZE) in
  let dp := modify 0 (fun _ => to_uint8 magicCode) dp in
  let dp := modify 1 (fun d => to_uint8 (Z.land d (to_uint32 (Z.lnot (Z.shiftl 1 0))))) dp in
  let dp := modify 1 (fun d => to_uint8 (Z.lor d (Z.shiftl (Z.land bh 0xF) 1))) dp in
  let dp := modify 2 (fun d => to_uint8 (Z.lor d (Z.shiftr (Z.land bh 0x1F0) 4))) dp in
  let dp := modify 3 (fun d => to_uint8 (Z.lor d (Z.shiftr (Z.land bh 0x3E00) 9))) dp in
  let dp := modify 4 (fun d => to_uint8 (Z.lor d (Z.shiftr (Z.land bh 0x7C000) 14))) dp in
  let dp := modify 5 (fun d => to_uint8 (Z.lor d (Z.shiftr (Z.land bh 0xF80000) 19))) dp in
  let dp := modify 6 (fun d => to_uint8 (Z.lor d (Z.land tp 0x1F))) dp in
  let dp := modify 7 (fun d => to_uint8 (Z.lor d (Z.shiftr (Z.land tp 0x3E0) 5))) dp in
  let dp := modify 8 (fun d => to_uint8 (Z.lor d (Z.shiftr (Z.land tp 0x7C00) 10))) dp in
  dp.

(** The payload that [txrefExtEncode] hands to [bech32::encode]. *)
Definition txrefExtEncode_dp (magicCode bh tp ti : Z) : list Z :=
  let dp := repeat 0 (Z.to_nat DATA_EXTENDED_SIZE) in
  let dp := modify 0 (fun _ => to_uint8 magicCode) dp in
  let dp := modify 1 (fun d => to_uint8 (Z.land d (to_uint32 (Z.lnot (Z.shiftl 1 0))))) dp in
  let dp := modify 1 (fun d => to_uint8 (Z.lor d (Z.shiftl (Z.land bh 0xF) 1))) dp in
  let dp := modify 2 (fun d => to_uint8 (Z.lor d (Z.shiftr (Z.land bh 0x1F0) 4))) dp in
  let dp := modify 3 (fun d => to_uint8 (Z.lor d (Z.shiftr (Z.land bh 0x3E00) 9))) dp in
  let dp := modify 4 (fun d => to_uint8 (Z.lor d (Z.shiftr (Z.land bh 0x7C000) 14))) dp in
  let dp := modify 5 (fun d => to_uint8 (Z.lor d (Z.shiftr (Z.land bh 0xF80000) 19))) dp in
  let dp := modify 6 (fun d => to_uint8 (Z.lor d (Z.land tp 0x1F))) dp in
  let dp := modify 7 (fun d => to_uint8 (Z.lor d (Z.shiftr (Z.land tp 0x3E0) 5))) dp in
  let dp := modify 8 (fun d => to_uint8 (Z.lor d (Z.shiftr (Z.land tp 0x7C00) 10))) dp in
  let dp := modify 9 (fun d => to_uint8 (Z.lor d (Z.land ti 0x1F))) dp in
  let dp := modify 10 (fun d => to_uint8 (Z.lor d (Z.shiftr (Z.land ti 0x3E0) 5))) dp in
  let dp := modify 11 (fun d => to_uint8 (Z.lor d (Z.shiftr (Z.land ti 0x7C00) 10))) dp in
  dp.

Section Txref.

Context {codec : bech32.Codec}.

(** *** Encoders of the anonymous namespace *)

Definition txrefEncode (hrp : list ascii)
  (magicCode blockHeight transactionPosition : Z) : outcome (list ascii) :=
  checkBlockHeightRange blockHeight ;;;
  checkTransactionPositionRange transactionPosition ;;;
  checkMagicCodeRange magicCode ;;;
  let bh := to_uint32 blockHeight in
  let tp := to_uint32 transactionPosition in
  let dp := txrefEncode_dp magicCode bh tp in
  result <- call (bech32.encode hrp dp) ;;
  prettyPrint result (size hrp).

Definition txrefExtEncode (hrp : list ascii)
  (magicCode blockHeight transactionPosition txoIndex : Z)
  : outcome (list ascii) :=
  checkBlockHeightRange blockHeight ;;;
  checkTransactionPositionRange transactionPosition ;;;
  checkTxoIndexRange txoIndex ;;;
  checkMagicCodeRange magicCode ;;;
  checkExtendedMagicCode magicCode ;;;
  let bh := to_uint32 blockHeight in
  let tp := to_uint32 transactionPosition in
  let ti := to_uint32 txoIndex in
  let dp := txrefExtEncode_dp magicCode bh tp ti in
  result <- call (bech32.encode hrp dp) ;;
  prettyPrint result (size hrp).

(** *** Length tables of the classifier *)

Definition classifyInputStringBase (s0 : list ascii) : txref.InputParam :=
  let s := bech32.stripUnknownChars s0 in
  if (size s =? TXREF_STRING_MIN_LENGTH) ||
     (size s =? TXREF_STRING_MIN_LENGTH_TESTNET)
  then txref.txref
  else if (size s =? TXREF_EXT_STRING_MIN_LENGTH) ||
          (size s =? TXREF_EXT_STRING_MIN_LENGTH_TESTNET)
  then txref.txrefext
  else txref.unknown.

Definition classifyInputStringMissingHRP (s0 : list ascii) : txref.InputParam :=
  let s := bech32.stripUnknownChars s0 in
  if size s =? TXREF_STRING_NO_HRP_MIN_LENGTH
  then txref.txref
  else if size s =? TXREF_EXT_STRING_NO_HRP_MIN_LENGTH
  then txref.txrefext
  else txref.unknown.

(** ** txref.cpp, namespace txref *)

Definition encode (blockHeight transactionPosition txoIndex : Z)
  (forceExtended : bool) (hrp : list ascii) : outcome (list ascii) :=
  if (txoIndex =? 0) && negb forceExtended
  then txrefEncode hrp txref.MAGIC_BTC_MAIN blockHeight transactionPosition
  else txrefExtEncode hrp txref.MAGIC_BTC_MAIN_EXTENDED
         blockHeight transactionPosition txoIndex.

Definition encodeTestnet (blockHeight transactionPosition txoIndex : Z)
  (forceExtended : bool) (hrp : list ascii) : outcome (list ascii) :=
  if (txoIndex =? 0) && negb forceExtended
  then txrefEncode hrp txref.MAGIC_BTC_TEST blockHeight transactionPosition
  else txrefExtEncode hrp txref.MAGIC_BTC_TEST_EXTENDED
         blockHeight transactionPosition txoIndex.

Definition commentary_text (old updated : list ascii) : list ascii :=
  str "The txref " ++ old ++
  str " uses an old encoding scheme and should be updated to " ++ updated ++
  str " See https://github.com/dcdpr/libtxref#regarding-bech32-checksums for more information.".

Definition decode (txref : list ascii) : outcome txref.DecodedResult :=
  let txrefClean := bech32.stripUnknownChars txref in
  let txrefClean := addHrpIfNeeded txrefClean in
  b <- call (bech32.decode txrefClean) ;;
  let hrpLength := size (bech32.hrp b) in
  let dataSize := size (bech32.dp b) in
  if (hrpLength =? 0) && (dataSize =? 0)
  then throw "checksum is invalid"
  else if negb (isDataSizeValid dataSize)
  then throw "decoded dp size is incorrect"
  else
    magicCode <- extractMagicCode (bech32.dp b) ;;
    pretty <- prettyPrint txrefClean (size (bech32.hrp b)) ;;
    blockHeight <- extractBlockHeight (bech32.dp b) ;;
    transactionPosition <- extractTransactionPosition (bech32.dp b) ;;
    txoIndex <- extractTxoIndex (bech32.dp b) ;;
    let result (e : txref.Encoding) (c : list ascii) :=
      {| txref.hrp := bech32.hrp b;
         txref.txref_ := pretty;
         txref.blockHeight := blockHeight;
         txref.transactionPosition := transactionPosition;
         txref.txoIndex := txoIndex;
         txref.magicCode := magicCode;
         txref.encoding := e;
         txref.commentary := c |} in
    match bech32.encoding b with
    | bech32.Bech32m => Ok (result txref.Bech32m [])
    | bech32.Bech32 =>
        updatedTxref <-
          (if (magicCode =? txref.MAGIC_BTC_MAIN_EXTENDED) ||
              (magicCode =? txref.MAGIC_BTC_TEST_EXTENDED)
           then txrefExtEncode (bech32.hrp b) magicCode
                  blockHeight transactionPosition txoIndex
           else txrefEncode (bech32.hrp b) magicCode
                  blockHeight transactionPosition) ;;
        Ok (result txref.Bech32 (commentary_text pretty updatedTxref))
    | bech32.Invalid => Ok (result txref.Invalid [])
    end.

Definition is_address_prefix (c : ascii) : bool :=
  Ascii.eqb c (chr "1") || Ascii.eqb c (chr "3") || Ascii.eqb c (chr "m") ||
  Ascii.eqb c (chr "n") || Ascii.eqb c (chr "2").

(** [str[i]] of the tie-break: the conjunction short-circuits, so the
    index never passes the terminating position of the string, where
    [operator[]] yields the null character. *)
Definition classifyInputString (s : list ascii) : outcome txref.InputParam :=
  if size s =? 0 then Ok txref.unknown
  else if size s =? 64 then Ok txref.txid
  else if is_address_prefix (nth 0 s zero) && ((size s >=? 26) && (size s <? 36))
  then Ok txref.address
  else
    let baseResult := classifyInputStringBase s in
    let missingResult := classifyInputStringMissingHRP s in
    if negb (txref.InputParam_eqb baseResult txref.unknown) &&
       txref.InputParam_eqb missingResult txref.unknown
    then Ok baseResult
    else if txref.InputParam_eqb baseResult txref.unknown &&
            negb (txref.InputParam_eqb missingResult txref.unknown)
    then Ok missingResult
    else if txref.InputParam_eqb baseResult txref.txref &&
            txref.InputParam_eqb missingResult txref.txrefext
    then
      if Ascii.eqb (nth 0 s zero) (nth 0 txref.BECH32_HRP_MAIN zero) &&
         Ascii.eqb (nth 1 s zero) (nth 1 txref.BECH32_HRP_MAIN zero) &&
         Ascii.eqb (nth 2 s zero) bech32.separator
      then Ok txref.txref
      else Ok txref.txrefext
    else
      assert (txref.InputParam_eqb baseResult txref.unknown) ;;;
      Ok baseResult.

End Txref.

(** ** txref.cpp, the C bindings

    The types of the C bindings are declared in libtxref.h, which is not
    among the sources.  [txref_error] has the enumerators that txref.cpp
    names; [txref_DecodedResult] has the members that txref.cpp reads
    and writes, an integer member holding the value assigned to it, a
    [char *] member being null or the bytes of the array it points to.
    The value of each enumerator and the constant [TXREF_MAX_LENGTH]
    are parameters. *)

Module capi.

Inductive txref_error : Type :=
| E_TXREF_SUCCESS
| E_TXREF_UNKNOWN_ERROR
| E_TXREF_NULL_ARGUMENT
| E_TXREF_LENGTH_TOO_SHORT
| E_TXREF_MAX_ERROR.

Record txref_DecodedResult : Type := {
  txref_ : option (list ascii);     (* the member [txref] *)
  txreflen : Z;
  hrp : option (list ascii);
  hrplen : Z;
  magicCode : Z;
  blockHeight : Z;
  transactionPosition : Z;
  txoIndex : Z;
  encoding : txref.Encoding;        (* [txref_encoding], by value *)
  commentary : option (list ascii)
}.

End capi.

Definition txref_errordesc : list string :=
  [ "Success";
    "Unknown error";
    "Function argument was null";
    "Function argument length was too short";
    "Max error" ]%string.

(** [a[i]] on an array: undefined out of range. *)
Definition subscript {A : Type} (a : list A) (i : Z) : outcome A :=
  if i <? 0 then Undefined else at_index a (Z.to_nat i).

(** [std::string s(p)]: the characters in front of the first null
    character of the array; undefined when the array holds none. *)
Fixpoint c_str (bytes : list ascii) : outcome (list ascii) :=
  match bytes with
  | [] => Undefined
  | c :: rest =>
      if Ascii.eqb c zero then Ok []
      else s <- c_str rest ;; Ok (c :: s)
  end.

(** [std::copy_n(first, n, out)] into an array: undefined when [n]
    characters do not fit. *)
Definition copy_n (source : list ascii) (n : Z) (dest : list ascii)
  : outcome (list ascii) :=
  if (0 <=? n) && (n <=? size dest)
  then Ok (firstn (Z.to_nat n) source ++ skipn (Z.to_nat n) dest)
  else Undefined.

(** [calloc(num, 1)]: null, or [num] bytes of zero; [available] tells
    whether the allocation succeeds. *)
Definition calloc (available : bool) (num : Z) : option (list ascii) :=
  if available then Some (repeat zero (Z.to_nat num)) else None.

Section CBindings.

Context {codec : bech32.Codec}.

(** The values of the enumerators of [txref_error] and the constant
    [txref::limits::TXREF_MAX_LENGTH] of libtxref.h, and the enumerator
    of [txref_encoding] whose value is 0. *)
Variable value : capi.txref_error -> Z.
Variable TXREF_MAX_LENGTH : Z.
Variable encoding_zero : txref.Encoding.

Definition txref_strerror (error_code : Z) : outcome string :=
  if (error_code >=? value capi.E_TXREF_SUCCESS) &&
     (error_code <? value capi.E_TXREF_MAX_ERROR)
  then subscript txref_errordesc error_code
  else subscript txref_errordesc (value capi.E_TXREF_UNKNOWN_ERROR).

Definition max_Txref_length : Z := to_size_type (TXREF_MAX_LENGTH + 1).

Definition create_Txref_storage (available : bool) : option (list ascii) :=
  calloc available max_Txref_length.

(** The three allocations succeed or fail as [available1], [available2]
    and [available3] tell; what a failure frees is not part of the
    result. *)
Definition create_DecodedResult_storage (available1 available2 available3 : bool)
  : option capi.txref_DecodedResult :=
  if negb available1 then None
  else
    let txreflen := to_size_type (to_size_type TXREF_MAX_LENGTH + 1) in
    match create_Txref_storage available2 with
    | None => None
    | Some txref =>
        let hrplen :=
          to_size_type (TXREF_EXT_STRING_MIN_LENGTH_TESTNET
                        - TXREF_EXT_STRING_NO_HRP_MIN_LENGTH + 1) in
        match calloc available3 hrplen with
        | None => None
        | Some hrp =>
            Some {| capi.txref_ := Some txref;
                    capi.txreflen := txreflen;
                    capi.hrp := Some hrp;
                    capi.hrplen := hrplen;
                    capi.magicCode := 0;
                    capi.blockHeight := 0;
                    capi.transactionPosition := 0;
                    capi.txoIndex := 0;
                    capi.encoding := encoding_zero;
                    capi.commentary := None |}
        end
    end.

(** [catch (std::exception &)] catches what txref.cpp throws, a
    [std::runtime_error], and the exception of libbech32, taken to be a
    [std::exception] as well; a failed [assert] is not an exception. *)
Definition txref_encode (txref : option (list ascii)) (txreflen : Z)
  (blockHeight transactionPosition txoIndex : Z) (forceExtended : bool)
  (hrp : option (list ascii)) (hrplen : Z)
  : outcome (capi.txref_error * option (list ascii)) :=
  match txref, hrp with
  | None, _ => Ok (capi.E_TXREF_NULL_ARGUMENT, txref)
  | Some _, None => Ok (capi.E_TXREF_NULL_ARGUMENT, txref)
  | Some buffer, Some hrpBytes =>
      inputHrp <- c_str hrpBytes ;;
      if size inputHrp >? to_size_type (hrplen - 1)
      then Ok (capi.E_TXREF_LENGTH_TOO_SHORT, txref)
      else
        match encode blockHeight transactionPosition txoIndex forceExtended
                inputHrp with
        | Throw _ => Ok (capi.E_TXREF_UNKNOWN_ERROR, txref)
        | Abort => Abort
        | Undefined => Undefined
        | Ok outputTxref =>
            if size outputTxref >? to_size_type (txreflen - 1)
            then Ok (capi.E_TXREF_LENGTH_TOO_SHORT, txref)
            else
              buffer <- copy_n outputTxref (size outputTxref) buffer ;;
              buffer <- store buffer (size outputTxref) zero ;;
              Ok (capi.E_TXREF_SUCCESS, Some buffer)
        end
  end.

Definition txref_encodeTestnet (txref : option (list ascii)) (txreflen : Z)
  (blockHeight transactionPosition txoIndex : Z) (forceExtended : bool)
  (hrp : option (list ascii)) (hrplen : Z)
  : outcome (capi.txref_error * option (list ascii)) :=
  match txref, hrp with
  | None, _ => Ok (capi.E_TXREF_NULL_ARGUMENT, txref)
  | Some _, None => Ok (capi.E_TXREF_NULL_ARGUMENT, txref)
  | Some buffer, Some hrpBytes =>
      inputHrp <- c_str hrpBytes ;;
      if size inputHrp >? to_size_type (hrplen - 1)
      then Ok (capi.E_TXREF_LENGTH_TOO_SHORT, txref)
      else
        match encodeTestnet blockHeight transactionPosition txoIndex forceExtended
                inputHrp with
        | Throw _ => Ok (capi.E_TXREF_UNKNOWN_ERROR, txref)
        | Abort => Abort
        | Undefined => Undefined
        | Ok outputTxref =>
            if size outputTxref >? to_size_type (txreflen - 1)
            then Ok (capi.E_TXREF_LENGTH_TOO_SHORT, txref)
            else
              buffer <- copy_n outputTxref (size outputTxref) buffer ;;
              buffer <- store buffer (size outputTxref) zero ;;
              Ok (capi.E_TXREF_SUCCESS, Some buffer)
        end
  end.

(** The commentary is allocated when there is one; [available] tells
    whether that allocation succeeds.  The arrays of [decodedResult] and
    the array of [txref] are distinct objects. *)
Definition txref_decode (available : bool)
  (decodedResult : option capi.txref_DecodedResult)
  (txref : option (list ascii)) (txreflen : Z)
  : outcome (capi.txref_error * option capi.txref_DecodedResult) :=
  match decodedResult with
  | None => Ok (capi.E_TXREF_NULL_ARGUMENT, decodedResult)
  | Some result =>
      match capi.txref_ result, capi.hrp result, txref with
      | None, _, _ => Ok (capi.E_TXREF_NULL_ARGUMENT, decodedResult)
      | Some _, None, _ => Ok (capi.E_TXREF_NULL_ARGUMENT, decodedResult)
      | Some _, Some _, None => Ok (capi.E_TXREF_NULL_ARGUMENT, decodedResult)
      | Some txrefBuffer, Some hrpBuffer, Some txrefBytes =>
          inputTxref <- c_str txrefBytes ;;
          if size inputTxref >? to_size_type (txreflen - 1)
          then Ok (capi.E_TXREF_LENGTH_TOO_SHORT, decodedResult)
          else
            match decode inputTxref with
            | Throw _ => Ok (capi.E_TXREF_UNKNOWN_ERROR, decodedResult)
            | Abort => Abort
            | Undefined => Undefined
            | Ok d =>
                hrpBuffer <- copy_n (txref.hrp d) (size (txref.hrp d)) hrpBuffer ;;
                hrpBuffer <- store hrpBuffer (size (txref.hrp d)) zero ;;
                txrefBuffer <-
                  copy_n (txref.txref_ d) (size (txref.txref_ d)) txrefBuffer ;;
                txrefBuffer <- store txrefBuffer (size (txref.txref_ d)) zero ;;
                commentary <-
                  (if negb (size (txref.commentary d) =? 0)
                   then
                     match calloc available
                             (to_size_type (size (txref.commentary d) + 1)) with
                     | None => Undefined
                     | Some commentary =>
                         commentary <-
                           copy_n (txref.commentary d)
                             (size (txref.commentary d)) commentary ;;
                         commentary <-
                           store commentary (size (txref.commentary d)) zero ;;
                         Ok (Some commentary)
                     end
                   else Ok (capi.commentary result)) ;;
                Ok (capi.E_TXREF_SUCCESS,
                    Some {| capi.txref_ := Some txrefBuffer;
                            capi.txreflen := capi.txreflen result;
                            capi.hrp := Some hrpBuffer;
                            capi.hrplen := capi.hrplen result;
                            capi.magicCode := txref.magicCode d;
                            capi.blockHeight := txref.blockHeight d;
                            capi.transactionPosition := txref.transactionPosition d;
                            capi.txoIndex := txref.txoIndex d;
                            capi.encoding := txref.encoding d;
                            capi.commentary := commentary |})
            end
      end
  end.

End CBindings.

(** ** A reference codec

    Modelled from the spec: libbech32 is an external collaborator
    (section 6) and none of its code is among the sources.  The module
    below is the bech32m codec as BIP-173 and BIP-350 define it, with the
    interface of section 6: [encode] produces the modern checksum,
    [decode] accepts the modern and the legacy checksum and returns an
    empty HRP and an empty payload when neither verifies, and
    [stripUnknownChars] removes every character that is neither a symbol
    of the alphabet nor the separator.  It is used to instantiate
    [bech32.Codec] at concrete inputs. *)

Module libbech32.

Definition charset : list ascii := bech32.charset.

(** The checksum constants: bech32m and the original bech32. *)
Definition M : Z := 0x2bc830a3.
Definition ORIGINAL : Z := 1.

Definition code (c : ascii) : Z := Z.of_N (N_of_ascii c).

Definition isUpper (c : ascii) : bool := (65 <=? code c) && (code c <=? 90).
Definition isLower (c : ascii) : bool := (97 <=? code c) && (code c <=? 122).

Definition toLower (c : ascii) : ascii :=
  if isUpper c then ascii_of_N (Z.to_N (code c + 32)) else c.

Definition isAllowedChar (c : ascii) : bool :=
  existsb (Ascii.eqb c) charset.

Definition isKept (x : ascii) : bool :=
  isAllowedChar (toLower x) || Ascii.eqb x bech32.separator.

Definition stripUnknownChars (s : list ascii) : list ascii :=
  filter isKept s.

Definition select (b : bool) (g : Z) : Z := if b then g else 0.

Definition generator (top : Z) : Z :=
  Z.lxor (select (Z.testbit top 0) 0x3b6a57b2)
 (Z.lxor (select (Z.testbit top 1) 0x26508e6d)
 (Z.lxor (select (Z.testbit top 2) 0x1ea119fa)
 (Z.lxor (select (Z.testbit top 3) 0x3d4233dd)
         (select (Z.testbit top 4) 0x2a1462b3)))).

Definition polymod_step (chk v : Z) : Z :=
  Z.lxor (Z.lxor (Z.shiftl (Z.land chk 0x1ffffff) 5) v)
         (generator (Z.shiftr chk 25)).

Definition polymod_from (chk : Z) (values : list Z) : Z :=
  fold_left polymod_step values chk.

Definition polymod (values : list Z) : Z := polymod_from 1 values.

Definition expandHrp (hrp : list ascii) : list Z :=
  map (fun c => Z.shiftr (code c) 5) hrp ++ 0 :: map (fun c => Z.land (code c) 31) hrp.

Definition digits (m : Z) : list Z :=
  map (fun i => Z.land (Z.shiftr m (5 * (5 - i))) 31) [0; 1; 2; 3; 4; 5].

Definition createChecksum (hrp : list ascii) (dp : list Z) : list Z :=
  digits (Z.lxor (polymod (expandHrp hrp ++ dp ++ repeat 0 6)) M).

Definition symbol (v : Z) : ascii := nth (Z.to_nat v) charset zero.

Fixpoint index_of (c : ascii) (l : list ascii) : option Z :=
  match l with
  | [] => None
  | a :: l' => if Ascii.eqb c a then Some 0 else option_map Z.succ (index_of c l')
  end.

Fixpoint values_of (s : list ascii) : option (list Z) :=
  match s with
  | [] => Some []
  | c :: s' =>
      match index_of c charset, values_of s' with
      | Some v, Some vs => Some (v :: vs)
      | _, _ => None
      end
  end.

(** Split at the last separator. *)
Fixpoint splitString (s : list ascii) : option (list ascii * list ascii) :=
  match s with
  | [] => None
  | c :: s' =>
      match splitString s' with
      | Some (h, d) => Some (c :: h, d)
      | None => if Ascii.eqb c bech32.separator then Some ([], s') else None
      end
  end.

Definition isPrintable (c : ascii) : bool := (33 <=? code c) && (code c <=? 126).

Definition isSymbol : Z -> bool := bech32.isSymbol.

Definition reject {A : Type} (what : string) : bech32.result A :=
  bech32.Raise what.

Definition encode (hrp : list ascii) (dp : list Z) : bech32.result (list ascii) :=
  if size hrp <? 1 then reject "HRP must be at least one character"
  else if size hrp >? bech32.MAX_HRP_LENGTH then reject "HRP is too long"
  else if size hrp + 1 + size dp + 6 >? 90 then reject "string is too long"
  else if negb (forallb isPrintable hrp) then reject "HRP has an invalid character"
  else if negb (forallb isSymbol dp) then reject "data value is out of range"
  else
    let hrp := map toLower hrp in
    bech32.Return (hrp ++ bech32.separator :: map symbol (dp ++ createChecksum hrp dp)).

Definition decode (s : list ascii) : bech32.result bech32.DecodedResult :=
  if size s <? 8 then reject "string is too short"
  else if size s >? 90 then reject "string is too long"
  else if negb (forallb isPrintable s) then reject "string has an invalid character"
  else if existsb isUpper s && existsb isLower s then reject "string is mixed case"
  else
    match splitString (map toLower s) with
    | None => reject "string has no separator"
    | Some (hrp, data) =>
        if size hrp <? 1 then reject "HRP must be at least one character"
        else if size hrp >? bech32.MAX_HRP_LENGTH then reject "HRP is too long"
        else if size data <? 6 then reject "data part is too short"
        else
          match values_of data with
          | None => reject "data part has an invalid character"
          | Some values =>
              let dp := firstn (List.length values - 6) values in
              let check := polymod (expandHrp hrp ++ values) in
              if check =? M
              then bech32.Return {| bech32.encoding := bech32.Bech32m;
                         bech32.hrp := hrp; bech32.dp := dp |}
              else if check =? ORIGINAL
              then bech32.Return {| bech32.encoding := bech32.Bech32;
                         bech32.hrp := hrp; bech32.dp := dp |}
              else bech32.Return {| bech32.encoding := bech32.Invalid;
                         bech32.hrp := []; bech32.dp := [] |}
          end
    end.

#[export] Instance codec : bech32.Codec := {|
  bech32.encode := encode;
  bech32.decode := decode;
  bech32.stripUnknownChars := stripUnknownChars
|}.

End libbech32.

(** ** The error taxonomy of section 7

    txref.cpp throws [std::runtime_error] everywhere; the kinds of the
    specification are told apart by the message. *)

Definition RangeError (e : exception) : Prop :=
  e = runtime_error "block height is too large" \/
  e = runtime_error "transaction position is too large" \/
  e = runtime_error "txo index is too large" \/
  e = runtime_error "magic code is too large".

Definition UnsupportedVariant (e : exception) : Prop :=
  e = runtime_error "magic code does not support extended txrefs".

Definition UnsupportedVersion (e : exception) : Prop :=
  e = runtime_error "Unknown txref version detected: 1".

Definition InvalidPayloadSize (e : exception) : Prop :=
  e = runtime_error "decoded dp size is incorrect".

Definition ChecksumError (e : exception) : Prop :=
  e = runtime_error "checksum is invalid".

Definition FormatError (e : exception) : Prop :=
  e = runtime_error "HRP must be less than 84 characters long" \/
  e = runtime_error "separatorOffset must be > 0" \/
  e = runtime_error "Can't add separator characters to strings with length < 2" \/
  e = runtime_error "HRP length can't be greater than input length".

(** ** Vocabulary of the statements *)

(** The lengths a string can have: a [difference_type] holds them. *)
Definition is_length (z : Z) : Prop := 0 <= z < 2 ^ 63.

(** [s] begins with the characters of [prefix]. *)
Definition starts_with (prefix s : list ascii) : Prop :=
  firstn (List.length prefix) s = prefix.

(** The inputs that get past the first three returns of
    [classifyInputString] (empty, transaction id, address) and reach the
    two length tables at line 446. *)
Definition reaches_length_tables (s : list ascii) : Prop :=
  s <> [] /\ size s <> 64 /\
  ~ (is_address_prefix (nth 0 s zero) = true /\ 26 <= size s < 36).

(** The four characters by which [addHrpIfNeeded] tells a reference that
    lost its HRP. *)
Definition is_sigil (c : ascii) : bool :=
  Ascii.eqb c (chr "r") || Ascii.eqb c (chr "y") ||
  Ascii.eqb c (chr "x") || Ascii.eqb c (chr "8").

(** An encoded string that [addHrpIfNeeded] takes for a reference without
    HRP: a standard reference under an HRP of two characters, the first
    of them a sigil.  With the separator and fifteen more characters it
    has the length of an extended reference without HRP. *)
Definition mistaken_for_missing_hrp (hrp : list ascii) (extended : bool) : bool :=
  negb extended && (size hrp =? 2) && is_sigil (nth 0 hrp zero).

(** Where the write cursor of [addGroupSeparators] stands once [r]
    characters have been copied. *)
Definition cursor (hrpLength separatorOffset r : Z) : Z :=
  r + (if r >? hrpLength then (r - hrpLength) / separatorOffset else 0).

(** The loop invariant of [addGroupSeparators]: the characters copied so
    far, with hyphens among them, then hyphens only. *)
Definition gs_inv (kept : ascii -> bool) (hrpLength separatorOffset outputLength : Z)
  (copied : list ascii) (st : gs_state) : Prop :=
  rawPos st = size copied /\
  outputPos st = cursor hrpLength separatorOffset (size copied) /\
  exists (pre : list ascii) (n : nat),
    output st = pre ++ repeat txref.hyphen n /\
    size pre + Z.of_nat n = outputLength /\
    size pre = Z.min (outputPos st) outputLength /\
    filter kept pre = filter kept copied.

(** [l] with a hyphen in front of every character whose index, counted
    from [i], is a positive multiple of [separatorOffset]. *)
Fixpoint grouped_from (separatorOffset i : Z) (l : list ascii) : list ascii :=
  match l with
  | [] => []
  | c :: l' =>
      (if (0 <? i) && (i mod separatorOffset =? 0)
       then [txref.hyphen; c] else [c])
      ++ grouped_from separatorOffset (i + 1) l'
  end.

(** Groups of [separatorOffset] characters with a hyphen between them. *)
Definition grouped (separatorOffset : Z) (l : list ascii) : list ascii :=
  grouped_from separatorOffset 0 l.

(** The first [hrpLength] characters as they are, the others in groups. *)
Definition separated (hrpLength separatorOffset : Z) (raw : list ascii)
  : list ascii :=
  firstn (Z.to_nat hrpLength) raw ++
  grouped separatorOffset (skipn (Z.to_nat hrpLength) raw).

(** The loop invariant of [addGroupSeparators], character by character:
    the output holds the copied characters in groups, then hyphens. *)
Definition gs_layout (hrpLength separatorOffset outputLength : Z)
  (copied : list ascii) (st : gs_state) : Prop :=
  rawPos st = size copied /\
  outputPos st = cursor hrpLength separatorOffset (size copied) /\
  exists n : nat,
    output st = separated hrpLength separatorOffset copied
                ++ repeat txref.hyphen n /\
    size (separated hrpLength separatorOffset copied) + Z.of_nat n = outputLength.

(** The magic code of a public encoder. *)
Definition magic_code_of (testnet extended : bool) : Z :=
  if testnet
  then (if extended then txref.MAGIC_BTC_TEST_EXTENDED else txref.MAGIC_BTC_TEST)
  else (if extended then txref.MAGIC_BTC_MAIN_EXTENDED else txref.MAGIC_BTC_MAIN).

(** The payload of a public encoder. *)
Definition payload_of (testnet : bool) (h p t : Z) (forceExtended : bool) : list Z :=
  if negb (t =? 0) || forceExtended
  then txrefExtEncode_dp (magic_code_of testnet true) h p t
  else txrefEncode_dp (magic_code_of testnet false) h p.

(** [encode] or [encodeTestnet]. *)
Definition encode_for {codec : bech32.Codec} (testnet : bool)
  : Z -> Z -> Z -> bool -> list ascii -> outcome (list ascii) :=
  if testnet then encodeTestnet else encode.

(** What [txref_encode] and [txref_encodeTestnet] do with the outcome of
    the encoder, once the two pointers are not null and the HRP is
    read. *)
Definition after_encoder (buffer : list ascii) (txreflen hrplen : Z)
  (inputHrp : list ascii) (encoded : outcome (list ascii))
  : outcome (capi.txref_error * option (list ascii)) :=
  if size inputHrp >? to_size_type (hrplen - 1)
  then Ok (capi.E_TXREF_LENGTH_TOO_SHORT, Some buffer)
  else
    match encoded with
    | Throw _ => Ok (capi.E_TXREF_UNKNOWN_ERROR, Some buffer)
    | Abort => Abort
    | Undefined => Undefined
    | Ok s =>
        if size s >? to_size_type (txreflen - 1)
        then Ok (capi.E_TXREF_LENGTH_TOO_SHORT, Some buffer)
        else if size s <? size buffer
        then Ok (capi.E_TXREF_SUCCESS,
                 Some (s ++ zero :: skipn (S (List.length s)) buffer))
        else Undefined
    end.

(** The characters of a C string. *)
Definition not_null (c : ascii) : bool := negb (Ascii.eqb c zero).

(** The enumerators of [txref_error], numbered from 0 in the order of
    their descriptions in [txref_errordesc]. *)
Definition table_order (e : capi.txref_error) : Z :=
  match e with
  | capi.E_TXREF_SUCCESS => 0
  | capi.E_TXREF_UNKNOWN_ERROR => 1
  | capi.E_TXREF_NULL_ARGUMENT => 2
  | capi.E_TXREF_LENGTH_TOO_SHORT => 3
  | capi.E_TXREF_MAX_ERROR => 4
  end.

(** * Properties *)

(** ** Machine integers and lists *)

Lemma size_nonneg {A : Type} (l : list A) : 0 <= size l.
Proof. unfold size. lia. Qed.

Lemma size_app {A : Type} (l1 l2 : list A) : size (l1 ++ l2) = size l1 + size l2.
Proof. unfold size. rewrite length_app. lia. Qed.

Lemma size_cons {A : Type} (a : A) (l : list A) : size (a :: l) = size l + 1.
Proof. unfold size. cbn [List.length]. lia. Qed.

Lemma size_snoc {A : Type} (l : list A) (a : A) : size (l ++ [a]) = size l + 1.
Proof. unfold size. rewrite length_app. cbn [List.length]. lia. Qed.

Lemma size_repeat {A : Type} (a : A) (n : nat) : size (repeat a n) = Z.of_nat n.
Proof. unfold size. now rewrite repeat_length. Qed.

Lemma to_size_type_small z : 0 <= z < 2 ^ 64 -> to_size_type z = z.
Proof. intros. unfold to_size_type. now apply Z.mod_small. Qed.

Lemma to_difference_type_small z : 0 <= z < 2 ^ 63 -> to_difference_type z = z.
Proof.
  intros Hz. unfold to_difference_type.
  rewrite Z.mod_small by lia.
  destruct (Z.ltb_spec z (2 ^ 63)); lia.
Qed.

Lemma modify_app {A : Type} (f : A -> A) (pre : list A) (a : A) (post : list A) :
  modify (List.length pre) f (pre ++ a :: post) = pre ++ f a :: post.
Proof. induction pre as [|b pre IH]; cbn; [reflexivity | now rewrite IH]. Qed.

Lemma store_app {A : Type} (pre : list A) (a b : A) (post : list A) :
  store (pre ++ a :: post) (size pre) b = Ok (pre ++ b :: post).
Proof.
  unfold store. rewrite size_app, size_cons.
  pose proof (size_nonneg pre). pose proof (size_nonneg post).
  destruct (Z.leb_spec 0 (size pre)); [|lia].
  destruct (Z.ltb_spec (size pre) (size pre + (size post + 1))); [|lia].
  cbn. unfold size. rewrite Nat2Z.id. now rewrite modify_app.
Qed.

(** ** The pretty printer *)

Section GroupSeparators.

Variable kept : ascii -> bool.
Hypothesis kept_hyphen : kept txref.hyphen = false.

Variables hrpLength separatorOffset rawLength : Z.
Hypothesis hrpLength_nonneg : 0 <= hrpLength.
Hypothesis separatorOffset_pos : 1 <= separatorOffset.
Hypothesis hrp_shorter : hrpLength < rawLength.

Let outputLength := rawLength + (rawLength - hrpLength - 1) / separatorOffset.

Lemma cursor_in_range r :
  0 <= r < rawLength -> 0 <= cursor hrpLength separatorOffset r < outputLength.
Proof.
  intros Hr. unfold cursor, outputLength.
  assert (0 <= (rawLength - hrpLength - 1) / separatorOffset)
    by (apply Z.div_pos; lia).
  destruct (Z.gtb_spec r hrpLength).
  - assert ((r - hrpLength) / separatorOffset
            <= (rawLength - hrpLength - 1) / separatorOffset)
      by (apply Z.div_le_mono; lia).
    assert (0 <= (r - hrpLength) / separatorOffset) by (apply Z.div_pos; lia).
    lia.
  - lia.
Qed.

Lemma cursor_step r :
  0 <= r ->
  cursor hrpLength separatorOffset (r + 1) =
  cursor hrpLength separatorOffset r + 1 +
  (if (r + 1 >? hrpLength) && (Z.rem (r + 1 - hrpLength) separatorOffset =? 0)
   then 1 else 0).
Proof.
  intros Hr. unfold cursor.
  destruct (Z.gtb_spec (r + 1) hrpLength) as [Hgt|Hle]; cbn [andb].
  - rewrite Z.rem_mod_nonneg by lia.
    destruct (Z.eqb_spec ((r + 1 - hrpLength) mod separatorOffset) 0) as [Hm|Hm].
    + destruct (Z.gtb_spec r hrpLength).
      * Z.div_mod_to_equations. nia.
      * Z.div_mod_to_equations. nia.
    + destruct (Z.gtb_spec r hrpLength).
      * Z.div_mod_to_equations. nia.
      * Z.div_mod_to_equations. nia.
  - destruct (Z.gtb_spec r hrpLength); lia.
Qed.

Lemma body_preserves copied st c :
  gs_inv kept hrpLength separatorOffset outputLength copied st ->
  size copied < rawLength ->
  exists st',
    addGroupSeparators_body hrpLength separatorOffset st c = Ok st' /\
    gs_inv kept hrpLength separatorOffset outputLength (copied ++ [c]) st'.
Proof.
  intros (Hraw & Hout & pre & n & Hpre & Hlen & Hmin & Hfilter) Hlt.
  pose proof (size_nonneg copied) as Hc.
  pose proof (cursor_in_range (size copied) (conj Hc Hlt)) as Hcur.
  fold outputLength in Hcur. rewrite <- Hout in Hcur.
  assert (Hsz : size pre = outputPos st) by lia.
  destruct n as [|n]; [lia|].
  unfold addGroupSeparators_body.
  rewrite Hpre, <- Hsz. cbn [repeat]. rewrite store_app. cbn [bind].
  pose proof (cursor_step (size copied) Hc) as Hstep.
  rewrite <- Hout in Hstep. rewrite Hraw.
  assert (Hfilter' : filter kept (pre ++ [c]) = filter kept (copied ++ [c]))
    by (rewrite !filter_app; now rewrite Hfilter).
  revert Hstep.
  destruct ((size copied + 1 >? hrpLength) &&
            (Z.rem (size copied + 1 - hrpLength) separatorOffset =? 0));
    intros Hstep; (eexists; split; [reflexivity|]);
    unfold gs_inv; cbn [rawPos outputPos output]; rewrite size_snoc;
    (split; [reflexivity|]); (split; [lia|]).
  - destruct n as [|n].
    + exists (pre ++ [c]), 0%nat. cbn [repeat].
      rewrite size_snoc, <- app_assoc. cbn [app].
      repeat split; [lia | lia | exact Hfilter'].
    + exists ((pre ++ [c]) ++ [txref.hyphen]), n. cbn [repeat].
      rewrite !size_snoc, <- !app_assoc. cbn [app].
      repeat split; [lia | lia |].
      change (pre ++ [c; txref.hyphen]) with (pre ++ [c] ++ [txref.hyphen]).
      rewrite app_assoc, filter_app, Hfilter'. cbn [filter].
      rewrite kept_hyphen. now rewrite app_nil_r.
  - exists (pre ++ [c]), n.
    rewrite size_snoc, <- app_assoc. cbn [app].
    repeat split; [lia | lia | exact Hfilter'].
Qed.

Lemma loop_preserves rest : forall copied st,
  gs_inv kept hrpLength separatorOffset outputLength copied st ->
  size copied + size rest = rawLength ->
  exists st',
    for_each (addGroupSeparators_body hrpLength separatorOffset) rest st = Ok st' /\
    gs_inv kept hrpLength separatorOffset outputLength (copied ++ rest) st'.
Proof.
  induction rest as [|c rest IH]; intros copied st Hinv Hlen.
  - exists st. rewrite app_nil_r. now split.
  - rewrite size_cons in Hlen. pose proof (size_nonneg rest).
    destruct (body_preserves copied st c Hinv) as (st1 & Hbody & Hinv1); [lia|].
    destruct (IH (copied ++ [c]) st1 Hinv1) as (st' & Hloop & Hinv').
    { rewrite size_snoc. lia. }
    exists st'. cbn [for_each]. rewrite Hbody. cbn [bind].
    rewrite <- app_assoc in Hinv'. now split.
Qed.

End GroupSeparators.

(** [addGroupSeparators] returns on every input that passes its checks,
    and what it adds to the characters of [raw] is hyphens only. *)
Lemma addGroupSeparators_returns (kept : ascii -> bool) raw hrplen separatorOffset :
  kept txref.hyphen = false ->
  0 <= hrplen <= bech32.MAX_HRP_LENGTH ->
  1 <= separatorOffset ->
  2 <= size raw ->
  hrplen <= size raw ->
  is_length (size raw) ->
  exists out,
    addGroupSeparators raw hrplen separatorOffset = Ok out /\
    filter kept out = filter kept raw.
Proof.
  intros Hk Hh Hs H2 Hle Hlen. unfold is_length in Hlen.
  unfold bech32.MAX_HRP_LENGTH in Hh.
  unfold addGroupSeparators, bech32.MAX_HRP_LENGTH.
  destruct (Z.gtb_spec hrplen 83); [lia|].
  destruct (Z.ltb_spec separatorOffset 1); [lia|].
  rewrite !to_difference_type_small by lia. cbv zeta.
  destruct (Z.ltb_spec (size raw) 2); [lia|].
  destruct (Z.eqb_spec (size raw) hrplen); [now exists raw|].
  destruct (Z.ltb_spec (size raw) hrplen); [lia|].
  rewrite Z.quot_div_nonneg by lia.
  assert (0 <= (size raw - hrplen - 1) / separatorOffset)
    by (apply Z.div_pos; lia).
  assert ((size raw - hrplen - 1) / separatorOffset <= size raw - hrplen - 1)
    by (apply Z.div_le_upper_bound; nia).
  rewrite to_size_type_small by lia.
  destruct (loop_preserves kept Hk hrplen separatorOffset (size raw)
              ltac:(lia) ltac:(lia) ltac:(lia) raw []
              {| output := repeat txref.hyphen
                   (Z.to_nat (size raw + (size raw - hrplen - 1) / separatorOffset));
                 rawPos := 0; outputPos := 0 |})
    as (st' & Hloop & Hinv).
  - unfold gs_inv. cbn [rawPos outputPos output].
    change (size (@nil ascii)) with 0.
    repeat split.
    + unfold cursor. destruct (Z.gtb_spec 0 hrplen); lia.
    + exists [], (Z.to_nat (size raw + (size raw - hrplen - 1) / separatorOffset)).
      change (size (@nil ascii)) with 0.
      repeat split; lia.
  - change (size (@nil ascii)) with 0. lia.
  - rewrite Hloop. cbn [bind]. exists (output st'). split; [reflexivity|].
    destruct Hinv as (_ & _ & pre & m & Hpre & _ & _ & Hfilter).
    rewrite Hpre, filter_app, Hfilter. cbn [app].
    assert (Hrep : filter kept (repeat txref.hyphen m) = []).
    { clear - Hk. induction m as [|m IH]; cbn [repeat filter]; [reflexivity|].
      now rewrite Hk. }
    now rewrite Hrep, app_nil_r.
Qed.

Lemma string_insert_returns s pos c :
  0 <= pos <= size s ->
  string_insert s pos c
  = Ok (firstn (Z.to_nat pos) s ++ c :: skipn (Z.to_nat pos) s).
Proof.
  intros Hp. unfold string_insert.
  destruct (Z.leb_spec 0 pos); [|lia].
  destruct (Z.leb_spec pos (size s)); [reflexivity|lia].
Qed.

Lemma size_inserted s (n : nat) (c : ascii) :
  size (firstn n s ++ c :: skipn n s) = size s + 1.
Proof.
  rewrite size_app, size_cons, Z.add_assoc, <- size_app.
  now rewrite firstn_skipn.
Qed.

Lemma filter_inserted (kept : ascii -> bool) s (n : nat) (c : ascii) :
  kept c = false ->
  filter kept (firstn n s ++ c :: skipn n s) = filter kept s.
Proof.
  intros Hc. rewrite filter_app. cbn [filter]. rewrite Hc.
  rewrite <- filter_app. now rewrite firstn_skipn.
Qed.

(** [prettyPrint] returns whenever the colon falls inside the string and
    the prefix, colon included, is within the HRP limit; colons and
    hyphens are all it adds. *)
Lemma prettyPrint_returns (kept : ascii -> bool) plain hrplen :
  kept txref.colon = false ->
  kept txref.hyphen = false ->
  0 <= hrplen ->
  hrplen + 2 <= bech32.MAX_HRP_LENGTH ->
  hrplen + 1 <= size plain ->
  is_length (size plain + 1) ->
  exists out,
    prettyPrint plain hrplen = Ok out /\ filter kept out = filter kept plain.
Proof.
  intros Hcolon Hhyphen H0 Hmax Hin Hlen.
  unfold is_length in Hlen. unfold bech32.MAX_HRP_LENGTH in Hmax.
  unfold prettyPrint.
  rewrite !to_size_type_small by lia.
  rewrite to_difference_type_small by lia.
  rewrite string_insert_returns by lia. cbn [bind].
  destruct (addGroupSeparators_returns kept
              (firstn (Z.to_nat (hrplen + 1)) plain
               ++ txref.colon :: skipn (Z.to_nat (hrplen + 1)) plain)
              (hrplen + 2) 4 Hhyphen) as (out & Hout & Hfilter);
    rewrite ?size_inserted; unfold is_length, bech32.MAX_HRP_LENGTH; try lia.
  exists out. split; [exact Hout|].
  now rewrite Hfilter, filter_inserted.
Qed.

Lemma for_each_never_throws rest : forall hrpLength separatorOffset st e,
  for_each (addGroupSeparators_body hrpLength separatorOffset) rest st <> Throw e.
Proof.
  induction rest as [|c rest IH]; intros hrpLength separatorOffset st e;
    cbn [for_each]; [discriminate|].
  unfold addGroupSeparators_body at 1. unfold store.
  destruct ((0 <=? outputPos st) && (outputPos st <? size (output st)));
    cbn [bind]; [|discriminate].
  destruct ((rawPos st + 1 >? hrpLength) &&
            (Z.rem (rawPos st + 1 - hrpLength) separatorOffset =? 0));
    cbn [bind]; apply IH.
Qed.

Lemma addGroupSeparators_throws raw hrplen separatorOffset e :
  addGroupSeparators raw hrplen separatorOffset = Throw e -> FormatError e.
Proof.
  unfold addGroupSeparators, FormatError, throw.
  destruct (hrplen >? bech32.MAX_HRP_LENGTH); [intros [= <-]; tauto|].
  destruct (separatorOffset <? 1); [intros [= <-]; tauto|].
  cbv zeta.
  destruct (to_difference_type (size raw) <? 2); [intros [= <-]; tauto|].
  destruct (to_difference_type (size raw) =? to_difference_type hrplen);
    [discriminate|].
  destruct (to_difference_type (size raw) <? to_difference_type hrplen);
    [intros [= <-]; tauto|].
  match goal with
  | |- context [for_each (addGroupSeparators_body ?h ?k) ?r ?s] =>
      pose proof (for_each_never_throws r h k s e) as Hnever;
      destruct (for_each (addGroupSeparators_body h k) r s); cbn [bind]
  end; try discriminate.
  intros [= ->]. now elim Hnever.
Qed.

Lemma prettyPrint_throws plain hrplen e :
  prettyPrint plain hrplen = Throw e -> FormatError e.
Proof.
  unfold prettyPrint, string_insert.
  match goal with
  | |- context [if ?b then _ else _] => destruct b
  end; cbn [bind]; [|discriminate].
  apply addGroupSeparators_throws.
Qed.

(** The HRP check of the helper sees [hrplen + 2]: it fires from 82 on. *)
Lemma prettyPrint_hrp_too_long plain hrplen :
  81 < hrplen ->
  hrplen + 1 <= size plain ->
  is_length (size plain) ->
  prettyPrint plain hrplen = throw "HRP must be less than 84 characters long".
Proof.
  intros Hh Hin Hlen. unfold is_length in Hlen.
  unfold prettyPrint.
  rewrite !to_size_type_small by lia.
  rewrite to_difference_type_small by lia.
  rewrite string_insert_returns by lia. cbn [bind].
  unfold addGroupSeparators, bech32.MAX_HRP_LENGTH.
  destruct (Z.gtb_spec (hrplen + 2) 83); [reflexivity|lia].
Qed.

(** C7, as stated, fails: [prettyPrint] has no check of its own, and the
    length check of the helper sees the string after the colon went in.
    A one-character string with an empty HRP is formatted. *)
Lemma format_accepts_short_string :
  size (str "a") < 2 /\
  prettyPrint (str "a") 0 = Ok (str "a:") /\
  ~ (exists e, FormatError e /\ prettyPrint (str "a") 0 = Throw e).
Proof.
  split; [reflexivity|]. split; [reflexivity|].
  intros (e & _ & He). discriminate He.
Qed.

(** C7 (amended).  The group-separator helper fails with FormatError for
    every [hrplen] greater than 83, for every [separatorOffset <= 0] and
    for every raw string of length less than 2.  [prettyPrint] hands the
    helper the string with the colon inserted: it fails with FormatError
    for every [hrplen] greater than 83 whose colon position lies inside
    the string. *)
Theorem format_errors :
  (forall raw hrplen separatorOffset,
     hrplen > 83 ->
     addGroupSeparators raw hrplen separatorOffset
     = throw "HRP must be less than 84 characters long") /\
  (forall raw hrplen separatorOffset,
     separatorOffset <= 0 ->
     exists e, FormatError e /\
               addGroupSeparators raw hrplen separatorOffset = Throw e) /\
  (forall raw hrplen separatorOffset,
     size raw < 2 ->
     exists e, FormatError e /\
               addGroupSeparators raw hrplen separatorOffset = Throw e) /\
  (forall plain hrplen,
     hrplen > 83 -> hrplen + 1 <= size plain -> is_length (size plain) ->
     prettyPrint plain hrplen
     = throw "HRP must be less than 84 characters long").
Proof.
  repeat split.
  - intros raw hrplen separatorOffset Hh.
    unfold addGroupSeparators, bech32.MAX_HRP_LENGTH.
    destruct (Z.gtb_spec hrplen 83); [reflexivity|lia].
  - intros raw hrplen separatorOffset Hs.
    unfold addGroupSeparators, FormatError, throw.
    destruct (hrplen >? bech32.MAX_HRP_LENGTH); [eexists; split; [|reflexivity]; tauto|].
    destruct (Z.ltb_spec separatorOffset 1); [|lia].
    eexists; split; [|reflexivity]; tauto.
  - intros raw hrplen separatorOffset Hs. pose proof (size_nonneg raw).
    unfold addGroupSeparators, FormatError, throw.
    destruct (hrplen >? bech32.MAX_HRP_LENGTH); [eexists; split; [|reflexivity]; tauto|].
    destruct (separatorOffset <? 1); [eexists; split; [|reflexivity]; tauto|].
    cbv zeta. rewrite to_difference_type_small by lia.
    destruct (Z.ltb_spec (size raw) 2); [|lia].
    eexists; split; [|reflexivity]; tauto.
  - intros plain hrplen Hh Hin Hlen.
    apply prettyPrint_hrp_too_long; [lia | exact Hin | exact Hlen].
Qed.

Lemma format_errors_witness :
  addGroupSeparators (str "tx1:rqqqqqqqqwtvvjr") 84 4
  = throw "HRP must be less than 84 characters long" /\
  (exists e, FormatError e /\
             addGroupSeparators (str "tx1:rqqqqqqqqwtvvjr") 4 0 = Throw e) /\
  (exists e, FormatError e /\ addGroupSeparators (str "t") 0 4 = Throw e) /\
  prettyPrint (repeat (chr "q") 100) 84
  = throw "HRP must be less than 84 characters long".
Proof.
  destruct format_errors as (H1 & H2 & H3 & H4).
  split; [apply H1; lia|].
  split; [apply H2; lia|].
  split; [apply H3; reflexivity|].
  apply H4; [lia | vm_compute; discriminate | vm_compute; split; [discriminate|reflexivity]].
Defined.

(** ** The bit-field codec *)

Lemma land_low x mask k :
  0 <= k -> mask = Z.ones k -> Z.land x mask = x mod 2 ^ k.
Proof. intros Hk ->. now apply Z.land_ones. Qed.

Lemma field x mask s k :
  0 <= s -> 0 <= k -> Z.shiftr mask s = Z.ones k ->
  Z.shiftr (Z.land x mask) s = (x / 2 ^ s) mod 2 ^ k.
Proof.
  intros Hs Hk Hm.
  rewrite Z.shiftr_land, Hm, Z.land_ones by assumption.
  now rewrite Z.shiftr_div_pow2.
Qed.

Lemma lor_shiftl a b n :
  0 <= n -> 0 <= a < 2 ^ n -> Z.lor a (Z.shiftl b n) = a + b * 2 ^ n.
Proof.
  intros Hn Ha.
  rewrite <- Z.shiftl_mul_pow2 by assumption.
  rewrite <- (Z.add_lor_land a (Z.shiftl b n)).
  assert (Hdisjoint : Z.land a (Z.shiftl b n) = 0).
  { apply Z.bits_inj'. intros i Hi.
    rewrite Z.land_spec, Z.bits_0.
    destruct (Z.ltb_spec i n).
    - rewrite Z.shiftl_spec_low by assumption. apply andb_false_r.
    - replace (Z.testbit a i) with false; [reflexivity|].
      symmetry. rewrite <- (Z.mod_small a (2 ^ n)) by assumption.
      apply Z.mod_pow2_bits_high. lia. }
  rewrite Hdisjoint. lia.
Qed.

Lemma to_uint8_small z : 0 <= z < 256 -> to_uint8 z = z.
Proof. intros. unfold to_uint8. apply Z.mod_small. lia. Qed.

Lemma to_uint32_small z : 0 <= z < 2 ^ 32 -> to_uint32 z = z.
Proof. intros. unfold to_uint32. now apply Z.mod_small. Qed.

(** The payload of the standard form, symbol by symbol. *)
Lemma txrefEncode_dp_symbols magicCode bh tp :
  0 <= magicCode < 256 ->
  txrefEncode_dp magicCode bh tp =
  [ magicCode;
    2 * (bh mod 16); (bh / 16) mod 32; (bh / 512) mod 32;
    (bh / 16384) mod 32; (bh / 524288) mod 32;
    tp mod 32; (tp / 32) mod 32; (tp / 1024) mod 32 ].
Proof.
  intros Hm. unfold txrefEncode_dp.
  change (Z.to_nat DATA_SIZE) with 9%nat. cbn [repeat modify]. cbv zeta.
  rewrite !Z.lor_0_l.
  rewrite (land_low bh 0xF 4), (land_low tp 0x1F 5) by (reflexivity || lia).
  rewrite (field bh 0x1F0 4 5), (field bh 0x3E00 9 5), (field bh 0x7C000 14 5),
    (field bh 0xF80000 19 5), (field tp 0x3E0 5 5), (field tp 0x7C00 10 5)
    by (reflexivity || lia).
  rewrite Z.shiftl_mul_pow2 by lia.
  change (2 ^ 4) with 16. change (2 ^ 5) with 32. change (2 ^ 9) with 512.
  change (2 ^ 10) with 1024. change (2 ^ 14) with 16384.
  change (2 ^ 19) with 524288. change (2 ^ 1) with 2.
  rewrite !to_uint8_small; try (Z.div_mod_to_equations; lia).
  now rewrite (Z.mul_comm (bh mod 16) 2).
Qed.

(** The payload of the extended form, symbol by symbol. *)
Lemma txrefExtEncode_dp_symbols magicCode bh tp ti :
  0 <= magicCode < 256 ->
  txrefExtEncode_dp magicCode bh tp ti =
  [ magicCode;
    2 * (bh mod 16); (bh / 16) mod 32; (bh / 512) mod 32;
    (bh / 16384) mod 32; (bh / 524288) mod 32;
    tp mod 32; (tp / 32) mod 32; (tp / 1024) mod 32;
    ti mod 32; (ti / 32) mod 32; (ti / 1024) mod 32 ].
Proof.
  intros Hm. unfold txrefExtEncode_dp.
  change (Z.to_nat DATA_EXTENDED_SIZE) with 12%nat. cbn [repeat modify]. cbv zeta.
  rewrite !Z.lor_0_l.
  rewrite (land_low bh 0xF 4), (land_low tp 0x1F 5), (land_low ti 0x1F 5)
    by (reflexivity || lia).
  rewrite (field bh 0x1F0 4 5), (field bh 0x3E00 9 5), (field bh 0x7C000 14 5),
    (field bh 0xF80000 19 5), (field tp 0x3E0 5 5), (field tp 0x7C00 10 5),
    (field ti 0x3E0 5 5), (field ti 0x7C00 10 5)
    by (reflexivity || lia).
  rewrite Z.shiftl_mul_pow2 by lia.
  change (2 ^ 4) with 16. change (2 ^ 5) with 32. change (2 ^ 9) with 512.
  change (2 ^ 10) with 1024. change (2 ^ 14) with 16384.
  change (2 ^ 19) with 524288. change (2 ^ 1) with 2.
  rewrite !to_uint8_small; try (Z.div_mod_to_equations; lia).
  now rewrite (Z.mul_comm (bh mod 16) 2).
Qed.

Lemma even_symbol_version x : to_uint8 (Z.land (2 * x) 1) = 0.
Proof.
  rewrite (land_low _ 1 1) by (reflexivity || lia).
  change (2 ^ 1) with 2. rewrite Z.mul_comm, Z.mod_mul by lia. reflexivity.
Qed.

(** Three 5-bit symbols, least significant first, hold a 15-bit field. *)
Lemma unpack15 x :
  0 <= x < 2 ^ 15 ->
  Z.lor (Z.lor (x mod 32) (Z.shiftl ((x / 32) mod 32) 5))
        (Z.shiftl ((x / 1024) mod 32) 10) = x.
Proof.
  intros Hx.
  rewrite (lor_shiftl (x mod 32)) by (try apply Z.mod_pos_bound; lia).
  rewrite lor_shiftl by (change (2 ^ 10) with 1024; change (2 ^ 5) with 32;
                         Z.div_mod_to_equations; lia).
  change (2 ^ 10) with 1024. change (2 ^ 5) with 32.
  change (2 ^ 15) with 32768 in Hx.
  Z.div_mod_to_equations. lia.
Qed.

(** Four bits in the second symbol and four more symbols hold the block
    height. *)
Lemma unpack24 x :
  0 <= x < 2 ^ 24 ->
  Z.lor (Z.lor (Z.lor (Z.lor (Z.shiftr (2 * (x mod 16)) 1)
                             (Z.shiftl ((x / 16) mod 32) 4))
                      (Z.shiftl ((x / 512) mod 32) 9))
               (Z.shiftl ((x / 16384) mod 32) 14))
        (Z.shiftl ((x / 524288) mod 32) 19) = x.
Proof.
  intros Hx. change (2 ^ 24) with 16777216 in Hx.
  rewrite Z.shiftr_div_pow2 by lia. change (2 ^ 1) with 2.
  rewrite (Z.mul_comm 2), Z.div_mul by lia.
  rewrite (lor_shiftl (x mod 16)) by (try apply Z.mod_pos_bound; lia).
  change (2 ^ 4) with 16.
  rewrite (lor_shiftl (x mod 16 + (x / 16) mod 32 * 16))
    by (change (2 ^ 9) with 512; Z.div_mod_to_equations; lia).
  change (2 ^ 9) with 512.
  rewrite (lor_shiftl (x mod 16 + (x / 16) mod 32 * 16 + (x / 512) mod 32 * 512))
    by (change (2 ^ 14) with 16384; Z.div_mod_to_equations; lia).
  change (2 ^ 14) with 16384.
  rewrite lor_shiftl by (change (2 ^ 19) with 524288; Z.div_mod_to_equations; lia).
  change (2 ^ 19) with 524288.
  Z.div_mod_to_equations. lia.
Qed.

Lemma extract_standard magicCode bh tp :
  0 <= magicCode < 256 -> 0 <= bh < 2 ^ 24 -> 0 <= tp < 2 ^ 15 ->
  let dp := txrefEncode_dp magicCode bh tp in
  extractMagicCode dp = Ok magicCode /\
  extractBlockHeight dp = Ok bh /\
  extractTransactionPosition dp = Ok tp /\
  extractTxoIndex dp = Ok 0.
Proof.
  intros Hm Hb Ht dp. subst dp. rewrite txrefEncode_dp_symbols by assumption.
  unfold extractMagicCode, extractBlockHeight, extractTransactionPosition,
    extractTxoIndex, extractVersion.
  change (size [magicCode; 2 * (bh mod 16); (bh / 16) mod 32; (bh / 512) mod 32;
                (bh / 16384) mod 32; (bh / 524288) mod 32;
                tp mod 32; (tp / 32) mod 32; (tp / 1024) mod 32]) with 9.
  cbn [assert bind at_index nth_error Z.eqb negb Z.gtb Z.ltb Z.compare Pos.compare
       Pos.compare_cont].
  rewrite even_symbol_version. cbn [Z.eqb bind]. cbv zeta.
  rewrite unpack24, unpack15 by assumption.
  repeat split.
Qed.

Lemma extract_extended magicCode bh tp ti :
  0 <= magicCode < 256 -> 0 <= bh < 2 ^ 24 -> 0 <= tp < 2 ^ 15 ->
  0 <= ti < 2 ^ 15 ->
  let dp := txrefExtEncode_dp magicCode bh tp ti in
  extractMagicCode dp = Ok magicCode /\
  extractBlockHeight dp = Ok bh /\
  extractTransactionPosition dp = Ok tp /\
  extractTxoIndex dp = Ok ti.
Proof.
  intros Hm Hb Ht Hi dp. subst dp. rewrite txrefExtEncode_dp_symbols by assumption.
  unfold extractMagicCode, extractBlockHeight, extractTransactionPosition,
    extractTxoIndex, extractVersion.
  change (size [magicCode; 2 * (bh mod 16); (bh / 16) mod 32; (bh / 512) mod 32;
                (bh / 16384) mod 32; (bh / 524288) mod 32;
                tp mod 32; (tp / 32) mod 32; (tp / 1024) mod 32;
                ti mod 32; (ti / 32) mod 32; (ti / 1024) mod 32]) with 12.
  cbn [assert bind at_index nth_error Z.eqb negb Z.gtb Z.ltb Z.compare Pos.compare
       Pos.compare_cont].
  rewrite even_symbol_version. cbn [Z.eqb bind]. cbv zeta.
  rewrite unpack24, !unpack15 by assumption.
  repeat split.
Qed.

Lemma standard_payload_symbols magicCode bh tp :
  0 <= magicCode <= MAX_MAGIC_CODE ->
  forallb bech32.isSymbol (txrefEncode_dp magicCode bh tp) = true /\
  size (txrefEncode_dp magicCode bh tp) = DATA_SIZE.
Proof.
  intros Hm. unfold MAX_MAGIC_CODE in Hm.
  rewrite txrefEncode_dp_symbols by lia. split; [|reflexivity].
  cbn [forallb]. unfold bech32.isSymbol.
  repeat match goal with
  | |- context [?a <=? ?b] => destruct (Z.leb_spec a b); [|Z.div_mod_to_equations; lia]
  | |- context [?a <? ?b] => destruct (Z.ltb_spec a b); [|Z.div_mod_to_equations; lia]
  end.
  reflexivity.
Qed.

Lemma extended_payload_symbols magicCode bh tp ti :
  0 <= magicCode <= MAX_MAGIC_CODE ->
  forallb bech32.isSymbol (txrefExtEncode_dp magicCode bh tp ti) = true /\
  size (txrefExtEncode_dp magicCode bh tp ti) = DATA_EXTENDED_SIZE.
Proof.
  intros Hm. unfold MAX_MAGIC_CODE in Hm.
  rewrite txrefExtEncode_dp_symbols by lia. split; [|reflexivity].
  cbn [forallb]. unfold bech32.isSymbol.
  repeat match goal with
  | |- context [?a <=? ?b] => destruct (Z.leb_spec a b); [|Z.div_mod_to_equations; lia]
  | |- context [?a <? ?b] => destruct (Z.ltb_spec a b); [|Z.div_mod_to_equations; lia]
  end.
  reflexivity.
Qed.

(** ** The range validator *)

Lemma checkBlockHeightRange_spec v :
  (checkBlockHeightRange v = throw "block height is too large"
   <-> v < 0 \/ v > MAX_BLOCK_HEIGHT) /\
  (checkBlockHeightRange v = Ok tt <-> 0 <= v <= MAX_BLOCK_HEIGHT).
Proof.
  unfold checkBlockHeightRange, throw.
  destruct (Z.ltb_spec v 0); destruct (Z.gtb_spec v MAX_BLOCK_HEIGHT);
    cbn [orb]; (split; split; intros; try discriminate; try reflexivity; try lia).
Qed.

Lemma checkTransactionPositionRange_spec v :
  (checkTransactionPositionRange v = throw "transaction position is too large"
   <-> v < 0 \/ v > MAX_TRANSACTION_POSITION) /\
  (checkTransactionPositionRange v = Ok tt <-> 0 <= v <= MAX_TRANSACTION_POSITION).
Proof.
  unfold checkTransactionPositionRange, throw.
  destruct (Z.ltb_spec v 0); destruct (Z.gtb_spec v MAX_TRANSACTION_POSITION);
    cbn [orb]; (split; split; intros; try discriminate; try reflexivity; try lia).
Qed.

Lemma checkTxoIndexRange_spec v :
  (checkTxoIndexRange v = throw "txo index is too large"
   <-> v < 0 \/ v > MAX_TXO_INDEX) /\
  (checkTxoIndexRange v = Ok tt <-> 0 <= v <= MAX_TXO_INDEX).
Proof.
  unfold checkTxoIndexRange, throw.
  destruct (Z.ltb_spec v 0); destruct (Z.gtb_spec v MAX_TXO_INDEX);
    cbn [orb]; (split; split; intros; try discriminate; try reflexivity; try lia).
Qed.

Lemma checkMagicCodeRange_spec v :
  (checkMagicCodeRange v = throw "magic code is too large"
   <-> v < 0 \/ v > MAX_MAGIC_CODE) /\
  (checkMagicCodeRange v = Ok tt <-> 0 <= v <= MAX_MAGIC_CODE).
Proof.
  unfold checkMagicCodeRange, throw.
  destruct (Z.ltb_spec v 0); destruct (Z.gtb_spec v MAX_MAGIC_CODE);
    cbn [orb]; (split; split; intros; try discriminate; try reflexivity; try lia).
Qed.

Lemma checkExtendedMagicCode_spec v :
  (checkExtendedMagicCode v = throw "magic code does not support extended txrefs"
   <-> v <> txref.MAGIC_BTC_MAIN_EXTENDED /\ v <> txref.MAGIC_BTC_TEST_EXTENDED) /\
  (checkExtendedMagicCode v = Ok tt
   <-> v = txref.MAGIC_BTC_MAIN_EXTENDED \/ v = txref.MAGIC_BTC_TEST_EXTENDED).
Proof.
  unfold checkExtendedMagicCode, throw.
  destruct (Z.eqb_spec v txref.MAGIC_BTC_MAIN_EXTENDED);
    destruct (Z.eqb_spec v txref.MAGIC_BTC_TEST_EXTENDED);
    cbn [negb andb]; (split; split; intros; try discriminate; try reflexivity;
                      try tauto).
Qed.

Lemma FormatError_not_RangeError e : FormatError e -> ~ RangeError e.
Proof.
  unfold FormatError, RangeError.
  intros [-> | [-> | [-> | ->]]] [H | [H | [H | H]]]; discriminate H.
Qed.

Section Encoders.

Context {codec : bech32.Codec}.

(** With every field in range, the standard encoder is the codec
    followed by the pretty printer. *)
Lemma txrefEncode_in_range hrp magicCode h p :
  0 <= h <= MAX_BLOCK_HEIGHT -> 0 <= p <= MAX_TRANSACTION_POSITION ->
  0 <= magicCode <= MAX_MAGIC_CODE ->
  txrefEncode hrp magicCode h p =
  (result <- call (bech32.encode hrp (txrefEncode_dp magicCode h p)) ;;
   prettyPrint result (size hrp)).
Proof.
  intros Hh Hp Hm. unfold txrefEncode.
  rewrite (proj2 (proj2 (checkBlockHeightRange_spec h)) Hh).
  rewrite (proj2 (proj2 (checkTransactionPositionRange_spec p)) Hp).
  rewrite (proj2 (proj2 (checkMagicCodeRange_spec magicCode)) Hm).
  cbn [bind]. cbv zeta.
  unfold MAX_BLOCK_HEIGHT, MAX_TRANSACTION_POSITION in *.
  now rewrite !to_uint32_small by lia.
Qed.

Lemma txrefExtEncode_in_range hrp magicCode h p t :
  0 <= h <= MAX_BLOCK_HEIGHT -> 0 <= p <= MAX_TRANSACTION_POSITION ->
  0 <= t <= MAX_TXO_INDEX -> 0 <= magicCode <= MAX_MAGIC_CODE ->
  txrefExtEncode hrp magicCode h p t =
  (checkExtendedMagicCode magicCode ;;;
   result <- call (bech32.encode hrp (txrefExtEncode_dp magicCode h p t)) ;;
   prettyPrint result (size hrp)).
Proof.
  intros Hh Hp Ht Hm. unfold txrefExtEncode.
  rewrite (proj2 (proj2 (checkBlockHeightRange_spec h)) Hh).
  rewrite (proj2 (proj2 (checkTransactionPositionRange_spec p)) Hp).
  rewrite (proj2 (proj2 (checkTxoIndexRange_spec t)) Ht).
  rewrite (proj2 (proj2 (checkMagicCodeRange_spec magicCode)) Hm).
  cbn [bind]. cbv zeta.
  unfold MAX_BLOCK_HEIGHT, MAX_TRANSACTION_POSITION, MAX_TXO_INDEX in *.
  now rewrite !to_uint32_small by lia.
Qed.

(** Outside the ranges, the first check that fails decides. *)
Lemma txrefEncode_out_of_range hrp magicCode h p :
  ~ (0 <= h <= MAX_BLOCK_HEIGHT /\ 0 <= p <= MAX_TRANSACTION_POSITION /\
     0 <= magicCode <= MAX_MAGIC_CODE) ->
  exists e, RangeError e /\ txrefEncode hrp magicCode h p = Throw e.
Proof.
  intros Hout. unfold txrefEncode, RangeError.
  unfold checkBlockHeightRange, throw.
  destruct (Z.ltb_spec h 0); destruct (Z.gtb_spec h MAX_BLOCK_HEIGHT);
    cbn [orb bind]; try (eexists; split; [|reflexivity]; tauto).
  unfold checkTransactionPositionRange, throw.
  destruct (Z.ltb_spec p 0); destruct (Z.gtb_spec p MAX_TRANSACTION_POSITION);
    cbn [orb bind]; try (eexists; split; [|reflexivity]; tauto).
  unfold checkMagicCodeRange, throw.
  destruct (Z.ltb_spec magicCode 0); destruct (Z.gtb_spec magicCode MAX_MAGIC_CODE);
    cbn [orb bind]; try (eexists; split; [|reflexivity]; tauto).
  lia.
Qed.

Lemma txrefExtEncode_out_of_range hrp magicCode h p t :
  ~ (0 <= h <= MAX_BLOCK_HEIGHT /\ 0 <= p <= MAX_TRANSACTION_POSITION /\
     0 <= t <= MAX_TXO_INDEX /\ 0 <= magicCode <= MAX_MAGIC_CODE) ->
  exists e, RangeError e /\ txrefExtEncode hrp magicCode h p t = Throw e.
Proof.
  intros Hout. unfold txrefExtEncode, RangeError.
  unfold checkBlockHeightRange, throw.
  destruct (Z.ltb_spec h 0); destruct (Z.gtb_spec h MAX_BLOCK_HEIGHT);
    cbn [orb bind]; try (eexists; split; [|reflexivity]; tauto).
  unfold checkTransactionPositionRange, throw.
  destruct (Z.ltb_spec p 0); destruct (Z.gtb_spec p MAX_TRANSACTION_POSITION);
    cbn [orb bind]; try (eexists; split; [|reflexivity]; tauto).
  unfold checkTxoIndexRange, throw.
  destruct (Z.ltb_spec t 0); destruct (Z.gtb_spec t MAX_TXO_INDEX);
    cbn [orb bind]; try (eexists; split; [|reflexivity]; tauto).
  unfold checkMagicCodeRange, throw.
  destruct (Z.ltb_spec magicCode 0); destruct (Z.gtb_spec magicCode MAX_MAGIC_CODE);
    cbn [orb bind]; try (eexists; split; [|reflexivity]; tauto).
  lia.
Qed.

(** What the codec and the printer throw is no RangeError. *)
Lemma print_no_RangeError hrp dp e :
  (result <- call (bech32.encode hrp dp) ;; prettyPrint result (size hrp)) = Throw e ->
  ~ RangeError e.
Proof.
  destruct (bech32.encode hrp dp) as [raw|what]; cbn [call bind].
  - intros Hp. apply FormatError_not_RangeError.
    now apply prettyPrint_throws in Hp.
  - intros [= <-]. unfold RangeError. intros [H | [H | [H | H]]]; discriminate H.
Qed.

(** The public encoders fail with a RangeError exactly when a field is
    out of range: an index out of range is not zero, and takes the
    extended path. *)
Lemma encoders_RangeError (network_standard network_extended : Z) h p t
  (forceExtended : bool) hrp :
  0 <= network_standard <= MAX_MAGIC_CODE ->
  network_extended = txref.MAGIC_BTC_MAIN_EXTENDED \/
  network_extended = txref.MAGIC_BTC_TEST_EXTENDED ->
  let call_ :=
    if (t =? 0) && negb forceExtended
    then txrefEncode hrp network_standard h p
    else txrefExtEncode hrp network_extended h p t in
  (exists e, RangeError e /\ call_ = Throw e)
  <-> ~ (0 <= h <= MAX_BLOCK_HEIGHT /\ 0 <= p <= MAX_TRANSACTION_POSITION /\
         0 <= t <= MAX_TXO_INDEX).
Proof.
  intros Hstandard Hextended call_.
  assert (Hcode : 0 <= network_extended <= MAX_MAGIC_CODE)
    by (destruct Hextended as [-> | ->]; easy).
  subst call_. split.
  - intros (e & He & Hthrow) (Hh & Hp & Ht).
    destruct ((t =? 0) && negb forceExtended).
    + rewrite txrefEncode_in_range in Hthrow by assumption.
      now apply print_no_RangeError in Hthrow.
    + rewrite txrefExtEncode_in_range in Hthrow by assumption.
      rewrite (proj2 (proj2 (checkExtendedMagicCode_spec _)) Hextended) in Hthrow.
      cbn [bind] in Hthrow.
      now apply print_no_RangeError in Hthrow.
  - intros Hout.
    destruct ((t =? 0) && negb forceExtended) eqn:Hpath.
    + apply andb_true_iff in Hpath as (Hzero & _). apply Z.eqb_eq in Hzero.
      apply txrefEncode_out_of_range.
      unfold MAX_TXO_INDEX in Hout. lia.
    + apply txrefExtEncode_out_of_range. lia.
Qed.

End Encoders.

Section Contract.

Context {codec : bech32.Codec} {laws : bech32.Laws codec}.

(** A codec that honours its contract accepts the payloads of txref.cpp
    under any HRP of its own alphabet that leaves room for them, and the
    printer accepts what the codec returns. *)
Lemma print_returns hrp dp :
  hrp <> [] -> forallb bech32.isCodecChar hrp = true ->
  forallb bech32.isSymbol dp = true ->
  2 <= size dp -> size hrp + size dp + 7 <= 90 ->
  exists raw body out,
    bech32.encode hrp dp = bech32.Return raw /\
    raw = hrp ++ bech32.separator :: body /\
    forallb bech32.isSymbolChar body = true /\
    size body = size dp + 6 /\
    prettyPrint raw (size hrp) = Ok out.
Proof.
  intros Hne Hhrp Hdp H2 Hfit.
  destruct (bech32.encode_accepts hrp dp Hne Hhrp Hdp Hfit) as (raw & Hraw).
  destruct (bech32.encode_shape hrp dp raw Hhrp Hraw)
    as (body & -> & Hbody & Hlen & _).
  assert (Hsize : size body = size dp + 6) by (unfold size; lia).
  pose proof (size_nonneg hrp).
  destruct (prettyPrint_returns (fun _ => false)
              (hrp ++ bech32.separator :: body) (size hrp))
    as (out & Hout & _);
    rewrite ?size_app, ?size_cons;
    unfold is_length, bech32.MAX_HRP_LENGTH; try reflexivity; try lia.
  exists (hrp ++ bech32.separator :: body), body, out. now repeat split.
Qed.

(** With every field in range the encoders return, given a codec that
    honours its contract and an HRP it accepts. *)
Lemma txrefEncode_returns hrp magicCode h p :
  hrp <> [] -> forallb bech32.isCodecChar hrp = true -> size hrp <= 71 ->
  0 <= h <= MAX_BLOCK_HEIGHT -> 0 <= p <= MAX_TRANSACTION_POSITION ->
  0 <= magicCode <= MAX_MAGIC_CODE ->
  returns (txrefEncode hrp magicCode h p).
Proof.
  intros Hne Hhrp Hsize Hh Hp Hm. rewrite txrefEncode_in_range by assumption.
  destruct (standard_payload_symbols magicCode h p Hm) as (Hsym & Hlen).
  destruct (print_returns hrp _ Hne Hhrp Hsym)
    as (raw & body & out & Hraw & _ & _ & _ & Hout);
    rewrite ?Hlen; unfold DATA_SIZE; try lia.
  rewrite Hraw. cbn [call bind]. now exists out.
Qed.

Lemma txrefExtEncode_returns hrp magicCode h p t :
  hrp <> [] -> forallb bech32.isCodecChar hrp = true -> size hrp <= 71 ->
  0 <= h <= MAX_BLOCK_HEIGHT -> 0 <= p <= MAX_TRANSACTION_POSITION ->
  0 <= t <= MAX_TXO_INDEX ->
  magicCode = txref.MAGIC_BTC_MAIN_EXTENDED \/
  magicCode = txref.MAGIC_BTC_TEST_EXTENDED ->
  returns (txrefExtEncode hrp magicCode h p t).
Proof.
  intros Hne Hhrp Hsize Hh Hp Ht Hm.
  assert (0 <= magicCode <= MAX_MAGIC_CODE) by (destruct Hm as [-> | ->]; easy).
  rewrite txrefExtEncode_in_range by assumption.
  rewrite (proj2 (proj2 (checkExtendedMagicCode_spec magicCode)) Hm).
  cbn [bind].
  destruct (extended_payload_symbols magicCode h p t) as (Hsym & Hlen);
    [assumption|].
  destruct (print_returns hrp _ Hne Hhrp Hsym)
    as (raw & body & out & Hraw & _ & _ & _ & Hout);
    rewrite ?Hlen; unfold DATA_EXTENDED_SIZE; try lia.
  rewrite Hraw. cbn [call bind]. now exists out.
Qed.

Lemma encoders_return hrp forceExtended h p t :
  hrp <> [] -> forallb bech32.isCodecChar hrp = true -> size hrp <= 71 ->
  0 <= h <= MAX_BLOCK_HEIGHT -> 0 <= p <= MAX_TRANSACTION_POSITION ->
  0 <= t <= MAX_TXO_INDEX ->
  returns (encode h p t forceExtended hrp) /\
  returns (encodeTestnet h p t forceExtended hrp).
Proof.
  intros Hne Hhrp Hsize Hh Hp Ht.
  unfold encode, encodeTestnet.
  destruct ((t =? 0) && negb forceExtended).
  - split; apply txrefEncode_returns; easy.
  - split; apply txrefExtEncode_returns; tauto.
Qed.

End Contract.

(** ** C4: the range checks *)

(** C4.  Each of the four range checks fails with RangeError exactly when
    the value is negative or exceeds its maximum (16777215 for the block
    height, 32767 for the transaction position and the txo index, 31 for
    the magic code).  So do the encoders: they fail with RangeError
    exactly when a field they check is out of range, and with every field
    in range, the maxima included, they return (given a codec that
    honours its contract and an HRP it accepts). *)
Theorem range_checks (codec : bech32.Codec) :
  (forall v,
     (checkBlockHeightRange v = throw "block height is too large"
      <-> v < 0 \/ v > 16777215) /\
     (checkBlockHeightRange v = Ok tt <-> 0 <= v <= 16777215)) /\
  (forall v,
     (checkTransactionPositionRange v = throw "transaction position is too large"
      <-> v < 0 \/ v > 32767) /\
     (checkTransactionPositionRange v = Ok tt <-> 0 <= v <= 32767)) /\
  (forall v,
     (checkTxoIndexRange v = throw "txo index is too large"
      <-> v < 0 \/ v > 32767) /\
     (checkTxoIndexRange v = Ok tt <-> 0 <= v <= 32767)) /\
  (forall v,
     (checkMagicCodeRange v = throw "magic code is too large"
      <-> v < 0 \/ v > 31) /\
     (checkMagicCodeRange v = Ok tt <-> 0 <= v <= 31)) /\
  (forall hrp magicCode h p,
     (exists e, RangeError e /\ txrefEncode hrp magicCode h p = Throw e)
     <-> ~ (0 <= h <= 16777215 /\ 0 <= p <= 32767 /\ 0 <= magicCode <= 31)) /\
  (forall hrp magicCode h p t,
     (exists e, RangeError e /\ txrefExtEncode hrp magicCode h p t = Throw e)
     <-> ~ (0 <= h <= 16777215 /\ 0 <= p <= 32767 /\ 0 <= t <= 32767 /\
            0 <= magicCode <= 31)) /\
  (forall hrp forceExtended h p t,
     ((exists e, RangeError e /\ encode h p t forceExtended hrp = Throw e)
      <-> ~ (0 <= h <= 16777215 /\ 0 <= p <= 32767 /\ 0 <= t <= 32767)) /\
     ((exists e, RangeError e /\ encodeTestnet h p t forceExtended hrp = Throw e)
      <-> ~ (0 <= h <= 16777215 /\ 0 <= p <= 32767 /\ 0 <= t <= 32767))) /\
  (bech32.Laws codec ->
   forall hrp forceExtended magicCode h p t,
     hrp <> [] -> forallb bech32.isCodecChar hrp = true -> size hrp <= 71 ->
     0 <= h <= 16777215 -> 0 <= p <= 32767 -> 0 <= t <= 32767 ->
     0 <= magicCode <= 31 ->
     returns (encode h p t forceExtended hrp) /\
     returns (encodeTestnet h p t forceExtended hrp) /\
     returns (txrefEncode hrp magicCode h p)).
Proof.
  split; [exact checkBlockHeightRange_spec|].
  split; [exact checkTransactionPositionRange_spec|].
  split; [exact checkTxoIndexRange_spec|].
  split; [exact checkMagicCodeRange_spec|].
  split; [|split; [|split]].
  - intros hrp magicCode h p. split.
    + intros (e & He & Hthrow) (Hh & Hp & Hm).
      rewrite txrefEncode_in_range in Hthrow by assumption.
      now apply print_no_RangeError in Hthrow.
    + apply txrefEncode_out_of_range.
  - intros hrp magicCode h p t. split.
    + intros (e & He & Hthrow) (Hh & Hp & Ht & Hm).
      rewrite txrefExtEncode_in_range in Hthrow by assumption.
      unfold checkExtendedMagicCode, throw in Hthrow.
      destruct (negb (magicCode =? txref.MAGIC_BTC_MAIN_EXTENDED) &&
                negb (magicCode =? txref.MAGIC_BTC_TEST_EXTENDED));
        cbn [bind] in Hthrow.
      * injection Hthrow as <-. unfold RangeError in He.
        destruct He as [H | [H | [H | H]]]; discriminate H.
      * now apply print_no_RangeError in Hthrow.
    + apply txrefExtEncode_out_of_range.
  - intros hrp forceExtended h p t. split.
    + apply (encoders_RangeError txref.MAGIC_BTC_MAIN txref.MAGIC_BTC_MAIN_EXTENDED);
        [easy | now left].
    + apply (encoders_RangeError txref.MAGIC_BTC_TEST txref.MAGIC_BTC_TEST_EXTENDED);
        [easy | now right].
  - intros laws hrp forceExtended magicCode h p t Hne Hhrp Hsize Hh Hp Ht Hm.
    destruct (encoders_return hrp forceExtended h p t) as (Hmain & Htest);
      try assumption.
    repeat split; try assumption.
    now apply txrefEncode_returns.
Qed.

(** ** C3: the choice of the payload path *)

(** C3.  [encode] and [encodeTestnet] take the extended path, a payload
    of 12 symbols under the extended magic code of the network, exactly
    when [txoIndex <> 0] or [forceExtended]; otherwise they take the
    standard path, a payload of 9 symbols under the standard magic code
    of the network.  The payload named is the one handed to the codec. *)
Theorem path_selection (codec : bech32.Codec) h p t forceExtended hrp :
  let extended := negb (t =? 0) || forceExtended in
  let dp (standardCode extendedCode : Z) :=
    if extended
    then txrefExtEncode_dp extendedCode (to_uint32 h) (to_uint32 p) (to_uint32 t)
    else txrefEncode_dp standardCode (to_uint32 h) (to_uint32 p) in
  (extended = true <-> t <> 0 \/ forceExtended = true) /\
  encode h p t forceExtended hrp =
    (if extended
     then txrefExtEncode hrp txref.MAGIC_BTC_MAIN_EXTENDED h p t
     else txrefEncode hrp txref.MAGIC_BTC_MAIN h p) /\
  encodeTestnet h p t forceExtended hrp =
    (if extended
     then txrefExtEncode hrp txref.MAGIC_BTC_TEST_EXTENDED h p t
     else txrefEncode hrp txref.MAGIC_BTC_TEST h p) /\
  (forall s, encode h p t forceExtended hrp = Ok s ->
     exists raw,
       bech32.encode hrp (dp txref.MAGIC_BTC_MAIN txref.MAGIC_BTC_MAIN_EXTENDED)
       = bech32.Return raw /\
       prettyPrint raw (size hrp) = Ok s) /\
  (forall s, encodeTestnet h p t forceExtended hrp = Ok s ->
     exists raw,
       bech32.encode hrp (dp txref.MAGIC_BTC_TEST txref.MAGIC_BTC_TEST_EXTENDED)
       = bech32.Return raw /\
       prettyPrint raw (size hrp) = Ok s) /\
  (forall standardCode extendedCode,
     0 <= standardCode < 256 -> 0 <= extendedCode < 256 ->
     size (dp standardCode extendedCode) = (if extended then 12 else 9) /\
     nth 0 (dp standardCode extendedCode) 0
     = (if extended then extendedCode else standardCode)).
Proof.
  intros extended dp.
  assert (Hpath : (t =? 0) && negb forceExtended = negb extended).
  { subst extended. now rewrite negb_orb, negb_involutive. }
  assert (Hinv : forall m raw_dp s,
            (result <- call (bech32.encode hrp raw_dp) ;;
             prettyPrint result (size hrp)) = Ok s -> m = raw_dp ->
            exists raw, bech32.encode hrp m = bech32.Return raw /\
                        prettyPrint raw (size hrp) = Ok s).
  { intros m raw_dp s Hs ->.
    destruct (bech32.encode hrp raw_dp) as [raw|what]; cbn [call bind] in Hs;
      [now exists raw | discriminate]. }
  split; [|split; [|split; [|split; [|split]]]].
  - subst extended. destruct (Z.eqb_spec t 0); destruct forceExtended;
      cbn [negb orb]; split; intros; try reflexivity; try discriminate;
      try tauto; try (now left); try (now right).
  - unfold encode. rewrite Hpath. now destruct extended.
  - unfold encodeTestnet. rewrite Hpath. now destruct extended.
  - intros s. unfold encode. rewrite Hpath. subst dp. cbv beta.
    destruct extended; cbn [negb]; unfold txrefExtEncode, txrefEncode;
      repeat match goal with
      | |- context [bind ?c _] =>
          match c with
          | call _ => fail 1
          | _ => destruct c; cbn [bind]; try discriminate
          end
      end; intros Hs; now apply (Hinv _ _ _ Hs).
  - intros s. unfold encodeTestnet. rewrite Hpath. subst dp. cbv beta.
    destruct extended; cbn [negb]; unfold txrefExtEncode, txrefEncode;
      repeat match goal with
      | |- context [bind ?c _] =>
          match c with
          | call _ => fail 1
          | _ => destruct c; cbn [bind]; try discriminate
          end
      end; intros Hs; now apply (Hinv _ _ _ Hs).
  - intros standardCode extendedCode Hs He. subst dp. cbv beta.
    destruct extended.
    + rewrite txrefExtEncode_dp_symbols by assumption. now split.
    + rewrite txrefEncode_dp_symbols by assumption. now split.
Qed.

(** ** C2: magic codes and paths *)

(** C2, as stated, fails: the standard path has no check on the variant
    of the magic code and encodes under an extended one; and on the
    extended path a magic code out of range is a RangeError. *)
Lemma standard_path_accepts_extended_magic_code :
  @txrefEncode libbech32.codec (str "tx") txref.MAGIC_BTC_MAIN_EXTENDED 0 0
  = Ok (str "tx1:yqqq-qqqq-qua5-gs3") /\
  @txrefEncode libbech32.codec (str "txtest") txref.MAGIC_BTC_TEST_EXTENDED 0 0
  = Ok (str "txtest1:8qqq-qqqq-q92x-erm") /\
  @txrefExtEncode libbech32.codec (str "tx") 32 0 0 0
  = throw "magic code is too large".
Proof. repeat split; vm_compute; reflexivity. Qed.

(** C2 (amended).  Encoding via the extended path fails for every magic
    code that is not one of the two reserved extended values: with
    UnsupportedVariant exactly when the fields and the magic code are in
    range, with RangeError exactly when one of them is not.  The standard
    path checks the range of the magic code only: with fields and magic
    code in range, the payload goes to the codec under any magic code. *)
Theorem magic_code_exclusivity (codec : bech32.Codec) :
  (forall hrp magicCode h p t,
     magicCode <> txref.MAGIC_BTC_MAIN_EXTENDED ->
     magicCode <> txref.MAGIC_BTC_TEST_EXTENDED ->
     exists e,
       txrefExtEncode hrp magicCode h p t = Throw e /\
       (RangeError e \/ UnsupportedVariant e) /\
       (0 <= h <= 16777215 /\ 0 <= p <= 32767 /\ 0 <= t <= 32767 /\
        0 <= magicCode <= 31 -> UnsupportedVariant e) /\
       (UnsupportedVariant e <->
        0 <= h <= 16777215 /\ 0 <= p <= 32767 /\ 0 <= t <= 32767 /\
        0 <= magicCode <= 31) /\
       (RangeError e <->
        ~ (0 <= h <= 16777215 /\ 0 <= p <= 32767 /\ 0 <= t <= 32767 /\
           0 <= magicCode <= 31))) /\
  (forall hrp magicCode h p,
     0 <= h <= 16777215 -> 0 <= p <= 32767 -> 0 <= magicCode <= 31 ->
     txrefEncode hrp magicCode h p =
     (result <- call (bech32.encode hrp (txrefEncode_dp magicCode h p)) ;;
      prettyPrint result (size hrp))).
Proof.
  split.
  - intros hrp magicCode h p t Hmain Htest.
    assert (Hdec : (0 <= h <= MAX_BLOCK_HEIGHT /\ 0 <= p <= MAX_TRANSACTION_POSITION /\
                    0 <= t <= MAX_TXO_INDEX /\ 0 <= magicCode <= MAX_MAGIC_CODE) \/
                   ~ (0 <= h <= MAX_BLOCK_HEIGHT /\ 0 <= p <= MAX_TRANSACTION_POSITION /\
                      0 <= t <= MAX_TXO_INDEX /\ 0 <= magicCode <= MAX_MAGIC_CODE))
      by (unfold MAX_BLOCK_HEIGHT, MAX_TRANSACTION_POSITION, MAX_TXO_INDEX,
            MAX_MAGIC_CODE; lia).
    destruct Hdec as [(Hh & Hp & Ht & Hm) | Hout].
    + exists (runtime_error "magic code does not support extended txrefs").
      rewrite txrefExtEncode_in_range by assumption.
      rewrite (proj2 (proj1 (checkExtendedMagicCode_spec magicCode)) (conj Hmain Htest)).
      unfold UnsupportedVariant. split; [reflexivity|]. split; [now right|].
      split; [now intros|].
      assert (Hin : 0 <= h <= 16777215 /\ 0 <= p <= 32767 /\ 0 <= t <= 32767 /\
                    0 <= magicCode <= 31)
        by (unfold MAX_BLOCK_HEIGHT, MAX_TRANSACTION_POSITION, MAX_TXO_INDEX,
              MAX_MAGIC_CODE in *; tauto).
      split; [split; [intros _; exact Hin | reflexivity]|].
      split; [|intros Hnot; now elim Hnot].
      unfold RangeError. intros [Hr | [Hr | [Hr | Hr]]]; discriminate Hr.
    + destruct (txrefExtEncode_out_of_range hrp magicCode h p t Hout)
        as (e & He & Hthrow).
      assert (Hnot : ~ (0 <= h <= 16777215 /\ 0 <= p <= 32767 /\
                        0 <= t <= 32767 /\ 0 <= magicCode <= 31))
        by (unfold MAX_BLOCK_HEIGHT, MAX_TRANSACTION_POSITION, MAX_TXO_INDEX,
              MAX_MAGIC_CODE in *; exact Hout).
      assert (Hvariant : ~ UnsupportedVariant e).
      { unfold UnsupportedVariant, RangeError in *. intros ->.
        destruct He as [Hr | [Hr | [Hr | Hr]]]; discriminate Hr. }
      exists e. split; [exact Hthrow|].
      split; [now left|].
      split; [intros Hin; now elim Hnot|].
      split; [split; [intros Hv; now elim Hvariant | intros Hin; now elim Hnot]|].
      split; [intros _; exact Hnot | intros _; exact He].
  - intros hrp magicCode h p Hh Hp Hm. now apply txrefEncode_in_range.
Qed.

(** ** The classifier *)

Section Classifier.

Context {codec : bech32.Codec}.

(** The two length tables agree on one length only, 18, where the table
    with HRP says standard and the table without says extended. *)
Lemma length_tables s :
  let n := size (bech32.stripUnknownChars s) in
  (classifyInputStringBase s = txref.txref <-> n = 18 \/ n = 22) /\
  (classifyInputStringBase s = txref.txrefext <-> n = 21 \/ n = 25) /\
  (classifyInputStringMissingHRP s = txref.txref <-> n = 15) /\
  (classifyInputStringMissingHRP s = txref.txrefext <-> n = 18) /\
  (classifyInputStringBase s = txref.txref \/
   classifyInputStringBase s = txref.txrefext \/
   classifyInputStringBase s = txref.unknown) /\
  (classifyInputStringMissingHRP s = txref.txref \/
   classifyInputStringMissingHRP s = txref.txrefext \/
   classifyInputStringMissingHRP s = txref.unknown).
Proof.
  intros n. unfold classifyInputStringBase, classifyInputStringMissingHRP.
  fold n.
  unfold TXREF_STRING_MIN_LENGTH, TXREF_STRING_MIN_LENGTH_TESTNET,
    TXREF_EXT_STRING_MIN_LENGTH, TXREF_EXT_STRING_MIN_LENGTH_TESTNET,
    TXREF_STRING_NO_HRP_MIN_LENGTH, TXREF_EXT_STRING_NO_HRP_MIN_LENGTH.
  destruct (Z.eqb_spec n 18); destruct (Z.eqb_spec n 22);
    destruct (Z.eqb_spec n 21); destruct (Z.eqb_spec n 25);
    destruct (Z.eqb_spec n 15); cbn [orb];
    repeat split; intros; try discriminate; try lia; tauto.
Qed.

Lemma tie_break s :
  Ascii.eqb (nth 0 s zero) (nth 0 txref.BECH32_HRP_MAIN zero) &&
  Ascii.eqb (nth 1 s zero) (nth 1 txref.BECH32_HRP_MAIN zero) &&
  Ascii.eqb (nth 2 s zero) bech32.separator = true
  <-> starts_with (txref.BECH32_HRP_MAIN ++ [bech32.separator]) s.
Proof.
  unfold starts_with.
  change (txref.BECH32_HRP_MAIN ++ [bech32.separator]) with (str "tx1").
  change (nth 0 txref.BECH32_HRP_MAIN zero) with (chr "t").
  change (nth 1 txref.BECH32_HRP_MAIN zero) with (chr "x").
  change bech32.separator with (chr "1").
  change (List.length (str "tx1")) with 3%nat.
  destruct s as [|a [|b [|c rest]]]; cbn [nth firstn].
  - split; [intros H; discriminate H | intros H; discriminate H].
  - destruct (Ascii.eqb_spec a (chr "t")); cbn [andb];
      split; intros H; discriminate H.
  - destruct (Ascii.eqb_spec a (chr "t")); destruct (Ascii.eqb_spec b (chr "x"));
      cbn [andb]; split; intros H; discriminate H.
  - destruct (Ascii.eqb_spec a (chr "t")); destruct (Ascii.eqb_spec b (chr "x"));
      destruct (Ascii.eqb_spec c (chr "1")); cbn [andb]; subst;
      split; intros H; try discriminate H; try reflexivity;
      injection H; intros; contradiction.
Qed.

End Classifier.

(** C6, as stated, fails: the length of the input and its first
    character are looked at before the two tables.  An input of 64
    characters is a transaction id and an input of 26 to 35 characters
    that begins with 'm' is an address, although exactly one table
    recognises what is left of them once the hyphens are stripped; and
    an input of 64 characters is a transaction id in the collision case
    too, with "tx1" in front. *)
Lemma early_return_overrides_length_tables :
  let padded :=
    str "rqqq-qqqq-qwtv-vjr----------------------------------------------" in
  let addressed := str "mqqq-qqqq-qqqq-qqq--------" in
  let collision :=
    str "tx1:rqqq-qqqq-qwtv-vjr------------------------------------------" in
  (@classifyInputStringBase libbech32.codec padded = txref.unknown /\
   @classifyInputStringMissingHRP libbech32.codec padded = txref.txref /\
   @classifyInputString libbech32.codec padded = Ok txref.txid) /\
  (@classifyInputStringBase libbech32.codec addressed = txref.unknown /\
   @classifyInputStringMissingHRP libbech32.codec addressed = txref.txref /\
   @classifyInputString libbech32.codec addressed = Ok txref.address) /\
  (@classifyInputStringBase libbech32.codec collision = txref.txref /\
   @classifyInputStringMissingHRP libbech32.codec collision = txref.txrefext /\
   firstn 3 collision = str "tx1" /\
   @classifyInputString libbech32.codec collision = Ok txref.txid).
Proof. cbv zeta. repeat split; vm_compute; reflexivity. Qed.

(** C6 (amended).  On an input that reaches the length tables, that is,
    one that is not empty, not 64 characters long and not a string of 26
    to 35 characters beginning with '1', '3', 'm', 'n' or '2': when
    exactly one of the two interpretations is recognised, it is
    returned; when the table with HRP says standard and the table
    without says extended, the result is standard if the input begins
    with the mainnet HRP followed by the separator, and extended
    otherwise. *)
Theorem classify_by_length (codec : bech32.Codec) s :
  reaches_length_tables s ->
  let baseResult := classifyInputStringBase s in
  let missingResult := classifyInputStringMissingHRP s in
  (baseResult <> txref.unknown -> missingResult = txref.unknown ->
   classifyInputString s = Ok baseResult) /\
  (baseResult = txref.unknown -> missingResult <> txref.unknown ->
   classifyInputString s = Ok missingResult) /\
  (baseResult = txref.txref -> missingResult = txref.txrefext ->
   (starts_with (txref.BECH32_HRP_MAIN ++ [bech32.separator]) s ->
    classifyInputString s = Ok txref.txref) /\
   (~ starts_with (txref.BECH32_HRP_MAIN ++ [bech32.separator]) s ->
    classifyInputString s = Ok txref.txrefext)).
Proof.
  intros (Hne & H64 & Haddr) baseResult missingResult.
  assert (Hsize : size s <> 0) by (destruct s; [contradiction | rewrite size_cons;
                                   pose proof (size_nonneg s); lia]).
  assert (Hstart : classifyInputString s =
    if negb (txref.InputParam_eqb baseResult txref.unknown) &&
       txref.InputParam_eqb missingResult txref.unknown
    then Ok baseResult
    else if txref.InputParam_eqb baseResult txref.unknown &&
            negb (txref.InputParam_eqb missingResult txref.unknown)
    then Ok missingResult
    else if txref.InputParam_eqb baseResult txref.txref &&
            txref.InputParam_eqb missingResult txref.txrefext
    then
      if Ascii.eqb (nth 0 s zero) (nth 0 txref.BECH32_HRP_MAIN zero) &&
         Ascii.eqb (nth 1 s zero) (nth 1 txref.BECH32_HRP_MAIN zero) &&
         Ascii.eqb (nth 2 s zero) bech32.separator
      then Ok txref.txref
      else Ok txref.txrefext
    else
      assert (txref.InputParam_eqb baseResult txref.unknown) ;;;
      Ok baseResult).
  { unfold classifyInputString.
    destruct (Z.eqb_spec (size s) 0); [contradiction|].
    destruct (Z.eqb_spec (size s) 64); [contradiction|].
    destruct (is_address_prefix (nth 0 s zero)) eqn:Hprefix; cbn [andb];
      [|reflexivity].
    destruct (Z.geb_spec (size s) 26); destruct (Z.ltb_spec (size s) 36);
      cbn [andb]; try reflexivity.
    elim Haddr. split; [reflexivity | lia]. }
  rewrite Hstart. clear Hstart.
  pose proof (tie_break s) as Htie.
  split; [|split].
  - intros Hb Hm. rewrite Hm.
    destruct baseResult; try contradiction; reflexivity.
  - intros Hb Hm. rewrite Hb.
    destruct missingResult; try contradiction; reflexivity.
  - intros Hb Hm. rewrite Hb, Hm. cbn [txref.InputParam_eqb negb andb].
    split; intros Hs.
    + apply Htie in Hs. now rewrite Hs.
    + match goal with
      | |- (if ?c then _ else _) = _ => destruct c eqn:Hc
      end; [|reflexivity].
      elim Hs. now apply Htie.
Qed.

Lemma classify_by_length_witness :
  @classifyInputString libbech32.codec (str "tx1:rqqq-qqqq-qwtv-vjr")
  = Ok txref.txref /\
  @classifyInputString libbech32.codec (str "yqqq-qqqq-qqqq-rvum-0c")
  = Ok txref.txrefext /\
  @classifyInputString libbech32.codec (str "rqqq-qqqq-qwtv-vjr")
  = Ok txref.txref /\
  @classifyInputString libbech32.codec (str "tx1:yqqq-qqqq-qqqq-rvum-0c")
  = Ok txref.txrefext.
Proof.
  assert (Hreach : forall s, (match s with [] => false | _ => true end) = true ->
            (size s =? 64) = false ->
            (is_address_prefix (nth 0 s zero) && (26 <=? size s) && (size s <? 36))
            = false ->
            reaches_length_tables s).
  { intros s Hne H64 Haddr. unfold reaches_length_tables.
    split; [now destruct s|]. split; [now apply Z.eqb_neq|].
    intros (Hp & Hlo & Hhi). rewrite Hp in Haddr.
    destruct (Z.leb_spec 26 (size s)); [|lia].
    destruct (Z.ltb_spec (size s) 36); [discriminate|lia]. }
  split; [|split; [|split]].
  - apply (proj1 (proj2 (proj2
      (classify_by_length libbech32.codec (str "tx1:rqqq-qqqq-qwtv-vjr")
         (Hreach (str "tx1:rqqq-qqqq-qwtv-vjr") eq_refl eq_refl eq_refl))) eq_refl eq_refl)).
    reflexivity.
  - apply (proj2 (proj2 (proj2
      (classify_by_length libbech32.codec (str "yqqq-qqqq-qqqq-rvum-0c")
         (Hreach (str "yqqq-qqqq-qqqq-rvum-0c") eq_refl eq_refl eq_refl))) eq_refl eq_refl)).
    vm_compute. discriminate.
  - apply (proj1 (proj2
      (classify_by_length libbech32.codec (str "rqqq-qqqq-qwtv-vjr")
         (Hreach (str "rqqq-qqqq-qwtv-vjr") eq_refl eq_refl eq_refl))) eq_refl).
    vm_compute. discriminate.
  - apply (proj1
      (classify_by_length libbech32.codec (str "tx1:yqqq-qqqq-qqqq-rvum-0c")
         (Hreach (str "tx1:yqqq-qqqq-qqqq-rvum-0c") eq_refl eq_refl eq_refl))); [vm_compute; discriminate | reflexivity].
Defined.

(** C10.  No input makes the table with HRP say extended while the table
    without says standard, nor any pair of recognised interpretations
    other than standard with HRP and extended without; so the assertion
    before the last return of [classifyInputString] never fails, and the
    classifier returns on every input. *)
Theorem classify_assertion_holds (codec : bech32.Codec) s :
  let baseResult := classifyInputStringBase s in
  let missingResult := classifyInputStringMissingHRP s in
  ~ (baseResult = txref.txrefext /\ missingResult = txref.txref) /\
  (baseResult = txref.unknown \/ missingResult = txref.unknown \/
   (baseResult = txref.txref /\ missingResult = txref.txrefext)) /\
  classifyInputString s <> Abort /\
  returns (classifyInputString s).
Proof.
  intros baseResult missingResult.
  destruct (length_tables s) as (Hb1 & Hb2 & Hm1 & Hm2 & Hb & Hm).
  fold baseResult in Hb1, Hb2, Hb. fold missingResult in Hm1, Hm2, Hm.
  cbv zeta in *.
  assert (Hcases : baseResult = txref.unknown \/ missingResult = txref.unknown \/
                   (baseResult = txref.txref /\ missingResult = txref.txrefext)).
  { destruct Hb as [Hb | [Hb | Hb]]; destruct Hm as [Hm | [Hm | Hm]];
      try tauto; exfalso;
      first [apply Hb1 in Hb | apply Hb2 in Hb];
      first [apply Hm1 in Hm | apply Hm2 in Hm]; lia. }
  split; [|split; [exact Hcases|]].
  - intros (Hbe & Hmt).
    destruct Hcases as [H | [H | (H & _)]]; congruence.
  - assert (Hret : returns (classifyInputString s)).
    { unfold classifyInputString, returns.
      destruct (size s =? 0); [now eexists|].
      destruct (size s =? 64); [now eexists|].
      destruct (is_address_prefix (nth 0 s zero) &&
                ((size s >=? 26) && (size s <? 36))); [now eexists|].
      fold baseResult missingResult.
      destruct Hcases as [H | [H | (H1 & H2)]].
      + rewrite H. destruct missingResult; cbn; now eexists.
      + rewrite H. destruct baseResult; cbn; now eexists.
      + rewrite H1, H2. cbn [txref.InputParam_eqb negb andb].
        match goal with
        | |- context [if ?c then Ok _ else Ok _] => destruct c
        end; now eexists. }
    split; [|exact Hret].
    destruct Hret as (r & Hr). rewrite Hr. discriminate.
Qed.

(** ** The version bit *)

Lemma version_is_bit d : to_uint8 (Z.land d 1) = 0 \/ to_uint8 (Z.land d 1) = 1.
Proof.
  rewrite (land_low d 1 1) by (reflexivity || lia). change (2 ^ 1) with 2.
  assert (d mod 2 = 0 \/ d mod 2 = 1) as [-> | ->]
    by (Z.div_mod_to_equations; lia); [now left | now right].
Qed.

Lemma version_land d : to_uint8 (Z.land d 1) = Z.land d 1.
Proof.
  rewrite (land_low d 1 1) by (reflexivity || lia). change (2 ^ 1) with 2.
  apply to_uint8_small. Z.div_mod_to_equations. lia.
Qed.

Lemma data_size_valid (dp : list Z) :
  isDataSizeValid (size dp) = true <-> size dp = 9 \/ size dp = 12.
Proof.
  unfold isDataSizeValid, isStandardSize, isExtendedSize, DATA_SIZE,
    DATA_EXTENDED_SIZE.
  destruct (Z.eqb_spec (size dp) 9); destruct (Z.eqb_spec (size dp) 12);
    cbn [orb]; split; intros; try discriminate; try reflexivity; try tauto; lia.
Qed.

Lemma payload_has_version (dp : list Z) :
  2 <= size dp ->
  exists d0 d1 rest, dp = d0 :: d1 :: rest.
Proof.
  destruct dp as [|d0 [|d1 rest]]; rewrite ?size_cons;
    change (size (@nil Z)) with 0; intros; try lia.
  now exists d0, d1, rest.
Qed.

Lemma extractVersion_spec (dp : list Z) :
  2 <= size dp ->
  extractVersion dp = Ok (Z.land (nth 1 dp 0) 1).
Proof.
  intros Hsize. unfold extractVersion.
  destruct (Z.gtb_spec (size dp) 1); [|lia]. cbn [assert bind].
  destruct (payload_has_version dp Hsize) as (d0 & d1 & rest & ->).
  cbn [at_index nth_error nth bind]. now rewrite version_land.
Qed.

(** With the version bit set, no field is extracted. *)
Lemma extract_rejects_version (dp : list Z) :
  2 <= size dp -> Z.land (nth 1 dp 0) 1 <> 0 ->
  extractBlockHeight dp = throw "Unknown txref version detected: 1" /\
  extractTransactionPosition dp = throw "Unknown txref version detected: 1" /\
  (12 <= size dp ->
   extractTxoIndex dp = throw "Unknown txref version detected: 1").
Proof.
  intros Hsize Hbit.
  unfold extractBlockHeight, extractTransactionPosition, extractTxoIndex.
  rewrite extractVersion_spec by assumption. cbn [bind].
  assert (Hone : Z.land (nth 1 dp 0) 1 = 1).
  { destruct (version_is_bit (nth 1 dp 0)) as [H | H];
      rewrite version_land in H; [contradiction | exact H]. }
  rewrite Hone. cbn [Z.eqb].
  repeat split. intros H12.
  destruct (Z.ltb_spec (size dp) 12); [lia | reflexivity].
Qed.

(** With the version bit clear, every field of a payload of valid size is
    extracted. *)
Lemma extract_accepts_version (dp : list Z) :
  isDataSizeValid (size dp) = true -> Z.land (nth 1 dp 0) 1 = 0 ->
  returns (extractMagicCode dp) /\
  returns (extractBlockHeight dp) /\
  returns (extractTransactionPosition dp) /\
  returns (extractTxoIndex dp).
Proof.
  intros Hvalid Hbit. apply data_size_valid in Hvalid.
  unfold extractMagicCode, extractBlockHeight, extractTransactionPosition,
    extractTxoIndex, returns.
  rewrite extractVersion_spec by lia. rewrite Hbit.
  cbn [bind Z.eqb].
  assert (Hlen : List.length dp = 9%nat \/ List.length dp = 12%nat)
    by (unfold size in Hvalid; lia).
  destruct Hlen as [Hlen | Hlen];
    repeat (destruct dp as [|? dp]; [discriminate Hlen|]);
    (destruct dp; [|discriminate Hlen]);
    cbn; repeat split; eexists; reflexivity.
Qed.

Lemma extractBlockHeight_throws dp e :
  extractBlockHeight dp = Throw e -> UnsupportedVersion e.
Proof.
  unfold extractBlockHeight, extractVersion, assert, at_index, UnsupportedVersion.
  destruct (size dp >? 1); cbn [bind]; [|discriminate].
  destruct (nth_error dp 1) as [d1|]; cbn [bind]; [|discriminate].
  destruct (version_is_bit d1) as [-> | ->]; cbn [Z.eqb bind].
  - destruct (nth_error dp 2); cbn [bind]; [|discriminate].
    destruct (nth_error dp 3); cbn [bind]; [|discriminate].
    destruct (nth_error dp 4); cbn [bind]; [|discriminate].
    destruct (nth_error dp 5); cbn [bind]; discriminate.
  - now intros [= <-].
Qed.

Lemma extractTransactionPosition_throws dp e :
  extractTransactionPosition dp = Throw e -> UnsupportedVersion e.
Proof.
  unfold extractTransactionPosition, extractVersion, assert, at_index,
    UnsupportedVersion.
  destruct (size dp >? 1); cbn [bind]; [|discriminate].
  destruct (nth_error dp 1) as [d1|]; cbn [bind]; [|discriminate].
  destruct (version_is_bit d1) as [-> | ->]; cbn [Z.eqb bind].
  - destruct (nth_error dp 6); cbn [bind]; [|discriminate].
    destruct (nth_error dp 7); cbn [bind]; [|discriminate].
    destruct (nth_error dp 8); cbn [bind]; discriminate.
  - now intros [= <-].
Qed.

Lemma extractTxoIndex_throws dp e :
  extractTxoIndex dp = Throw e -> UnsupportedVersion e.
Proof.
  unfold extractTxoIndex, extractVersion, assert, at_index, UnsupportedVersion.
  destruct (size dp <? 12); [discriminate|].
  destruct (size dp >? 1); cbn [bind]; [|discriminate].
  destruct (nth_error dp 1) as [d1|]; cbn [bind]; [|discriminate].
  destruct (version_is_bit d1) as [-> | ->]; cbn [Z.eqb bind].
  - destruct (nth_error dp 9); cbn [bind]; [|discriminate].
    destruct (nth_error dp 10); cbn [bind]; [|discriminate].
    destruct (nth_error dp 11); cbn [bind]; discriminate.
  - now intros [= <-].
Qed.

Lemma extractMagicCode_returns (dp : list Z) :
  1 <= size dp -> extractMagicCode dp = Ok (nth 0 dp 0).
Proof.
  intros Hsize. unfold extractMagicCode.
  destruct (Z.eqb_spec (size dp) 0); [lia|]. cbn [negb assert bind].
  destruct dp as [|d0 rest]; [change (size (@nil Z)) with 0 in Hsize; lia|].
  reflexivity.
Qed.

Lemma extractMagicCode_never_throws dp e : extractMagicCode dp <> Throw e.
Proof.
  unfold extractMagicCode, assert, at_index.
  destruct (negb (size dp =? 0)); cbn [bind]; [|discriminate].
  destruct (nth_error dp 0); discriminate.
Qed.

(** ** The decoder *)

Section Decoder.

Context {codec : bech32.Codec}.

Lemma txrefEncode_throws hrp magicCode h p e :
  txrefEncode hrp magicCode h p = Throw e ->
  RangeError e \/ FormatError e \/ exists what, e = codec_error what.
Proof.
  unfold txrefEncode, checkBlockHeightRange, checkTransactionPositionRange,
    checkMagicCodeRange, RangeError, throw.
  destruct ((h <? 0) || (h >? MAX_BLOCK_HEIGHT)); cbn [bind];
    [intros [= <-]; tauto|].
  destruct ((p <? 0) || (p >? MAX_TRANSACTION_POSITION)); cbn [bind];
    [intros [= <-]; tauto|].
  destruct ((magicCode <? 0) || (magicCode >? MAX_MAGIC_CODE)); cbn [bind];
    [intros [= <-]; tauto|].
  cbv zeta.
  destruct (bech32.encode hrp _) as [raw|what]; cbn [call bind].
  - intros Hp. apply prettyPrint_throws in Hp. tauto.
  - intros [= <-]. right. right. now exists what.
Qed.

Lemma txrefExtEncode_throws hrp magicCode h p t e :
  txrefExtEncode hrp magicCode h p t = Throw e ->
  RangeError e \/ UnsupportedVariant e \/ FormatError e \/
  exists what, e = codec_error what.
Proof.
  unfold txrefExtEncode, checkBlockHeightRange, checkTransactionPositionRange,
    checkTxoIndexRange, checkMagicCodeRange, checkExtendedMagicCode,
    RangeError, UnsupportedVariant, throw.
  destruct ((h <? 0) || (h >? MAX_BLOCK_HEIGHT)); cbn [bind];
    [intros [= <-]; tauto|].
  destruct ((p <? 0) || (p >? MAX_TRANSACTION_POSITION)); cbn [bind];
    [intros [= <-]; tauto|].
  destruct ((t <? 0) || (t >? MAX_TXO_INDEX)); cbn [bind];
    [intros [= <-]; tauto|].
  destruct ((magicCode <? 0) || (magicCode >? MAX_MAGIC_CODE)); cbn [bind];
    [intros [= <-]; tauto|].
  destruct (negb (magicCode =? txref.MAGIC_BTC_MAIN_EXTENDED) &&
            negb (magicCode =? txref.MAGIC_BTC_TEST_EXTENDED)); cbn [bind];
    [intros [= <-]; tauto|].
  cbv zeta.
  destruct (bech32.encode hrp _) as [raw|what]; cbn [call bind].
  - intros Hp. apply prettyPrint_throws in Hp. tauto.
  - intros [= <-]. right. right. right. now exists what.
Qed.

Lemma size_zero {A : Type} (l : list A) : (size l =? 0) = true <-> l = [].
Proof.
  destruct l as [|a l]; [now split|].
  rewrite size_cons. pose proof (size_nonneg l).
  destruct (Z.eqb_spec (size l + 1) 0); [lia|].
  split; intros H'; discriminate H'.
Qed.

Lemma both_empty (b : bech32.DecodedResult) :
  (size (bech32.hrp b) =? 0) && (size (bech32.dp b) =? 0) = true
  <-> bech32.hrp b = [] /\ bech32.dp b = [].
Proof. now rewrite andb_true_iff, !size_zero. Qed.

(** The three stages of [decode] after the codec returned. *)
Lemma decode_checksum s b :
  bech32.decode (addHrpIfNeeded (bech32.stripUnknownChars s)) = bech32.Return b ->
  bech32.hrp b = [] /\ bech32.dp b = [] ->
  decode s = throw "checksum is invalid".
Proof.
  intros Hb Hempty. unfold decode. rewrite Hb. cbn [call bind].
  now rewrite (proj2 (both_empty b) Hempty).
Qed.

Lemma decode_size s b :
  bech32.decode (addHrpIfNeeded (bech32.stripUnknownChars s)) = bech32.Return b ->
  ~ (bech32.hrp b = [] /\ bech32.dp b = []) ->
  isDataSizeValid (size (bech32.dp b)) = false ->
  decode s = throw "decoded dp size is incorrect".
Proof.
  intros Hb Hempty Hsize. unfold decode. rewrite Hb. cbn [call bind].
  destruct ((size (bech32.hrp b) =? 0) && (size (bech32.dp b) =? 0)) eqn:He.
  - elim Hempty. now apply both_empty.
  - now rewrite Hsize.
Qed.

Lemma decode_extract s b :
  bech32.decode (addHrpIfNeeded (bech32.stripUnknownChars s)) = bech32.Return b ->
  ~ (bech32.hrp b = [] /\ bech32.dp b = []) ->
  isDataSizeValid (size (bech32.dp b)) = true ->
  decode s =
  (let txrefClean := addHrpIfNeeded (bech32.stripUnknownChars s) in
   magicCode <- extractMagicCode (bech32.dp b) ;;
   pretty <- prettyPrint txrefClean (size (bech32.hrp b)) ;;
   blockHeight <- extractBlockHeight (bech32.dp b) ;;
   transactionPosition <- extractTransactionPosition (bech32.dp b) ;;
   txoIndex <- extractTxoIndex (bech32.dp b) ;;
   let result (e : txref.Encoding) (c : list ascii) :=
     {| txref.hrp := bech32.hrp b;
        txref.txref_ := pretty;
        txref.blockHeight := blockHeight;
        txref.transactionPosition := transactionPosition;
        txref.txoIndex := txoIndex;
        txref.magicCode := magicCode;
        txref.encoding := e;
        txref.commentary := c |} in
   match bech32.encoding b with
   | bech32.Bech32m => Ok (result txref.Bech32m [])
   | bech32.Bech32 =>
       updatedTxref <-
         (if (magicCode =? txref.MAGIC_BTC_MAIN_EXTENDED) ||
             (magicCode =? txref.MAGIC_BTC_TEST_EXTENDED)
          then txrefExtEncode (bech32.hrp b) magicCode
                 blockHeight transactionPosition txoIndex
          else txrefEncode (bech32.hrp b) magicCode
                 blockHeight transactionPosition) ;;
       Ok (result txref.Bech32 (commentary_text pretty updatedTxref))
   | bech32.Invalid => Ok (result txref.Invalid [])
   end).
Proof.
  intros Hb Hempty Hsize. unfold decode. rewrite Hb. cbn [call bind].
  destruct ((size (bech32.hrp b) =? 0) && (size (bech32.dp b) =? 0)) eqn:He.
  - elim Hempty. now apply both_empty.
  - now rewrite Hsize.
Qed.

(** Past the two checks on the codec's answer, [decode] throws neither
    ChecksumError nor InvalidPayloadSize. *)
Lemma decode_late_throws s b e :
  bech32.decode (addHrpIfNeeded (bech32.stripUnknownChars s)) = bech32.Return b ->
  ~ (bech32.hrp b = [] /\ bech32.dp b = []) ->
  isDataSizeValid (size (bech32.dp b)) = true ->
  decode s = Throw e ->
  FormatError e \/ UnsupportedVersion e \/ RangeError e \/
  UnsupportedVariant e \/ exists what, e = codec_error what.
Proof.
  intros Hb Hempty Hsize. rewrite (decode_extract s b Hb Hempty Hsize).
  cbv zeta.
  destruct (extractMagicCode (bech32.dp b)) as [magicCode|e0| |] eqn:Hmagic;
    cbn [bind]; try discriminate.
  2:{ now apply extractMagicCode_never_throws in Hmagic. }
  destruct (prettyPrint _ _) as [pretty|e0| |] eqn:Hpretty;
    cbn [bind]; try discriminate.
  2:{ intros [= <-]. apply prettyPrint_throws in Hpretty. tauto. }
  destruct (extractBlockHeight _) as [blockHeight|e0| |] eqn:Hheight;
    cbn [bind]; try discriminate.
  2:{ intros [= <-]. apply extractBlockHeight_throws in Hheight. tauto. }
  destruct (extractTransactionPosition _) as [position|e0| |] eqn:Hposition;
    cbn [bind]; try discriminate.
  2:{ intros [= <-]. apply extractTransactionPosition_throws in Hposition. tauto. }
  destruct (extractTxoIndex _) as [txoIndex|e0| |] eqn:Hindex;
    cbn [bind]; try discriminate.
  2:{ intros [= <-]. apply extractTxoIndex_throws in Hindex. tauto. }
  destruct (bech32.encoding b); try discriminate.
  destruct ((magicCode =? txref.MAGIC_BTC_MAIN_EXTENDED) ||
            (magicCode =? txref.MAGIC_BTC_TEST_EXTENDED)).
  - destruct (txrefExtEncode _ _ _ _ _) as [updated|e0| |] eqn:Hupdated;
      cbn [bind]; try discriminate.
    intros [= <-]. apply txrefExtEncode_throws in Hupdated. tauto.
  - destruct (txrefEncode _ _ _ _) as [updated|e0| |] eqn:Hupdated;
      cbn [bind]; try discriminate.
    intros [= <-]. apply txrefEncode_throws in Hupdated. tauto.
Qed.

End Decoder.

(** ** C5: the two checks on the codec's answer *)

(** C5, as stated, fails: an empty answer of the codec carries a payload
    of length 0, neither 9 nor 12, and [decode] fails with ChecksumError
    on it, not with InvalidPayloadSize. *)
Lemma empty_answer_is_checksum_error :
  let s := str "tx1:rqqq-qqqq-qwtv-vjq" in
  @bech32.decode libbech32.codec
    (addHrpIfNeeded (@bech32.stripUnknownChars libbech32.codec s))
  = bech32.Return {| bech32.encoding := bech32.Invalid;
                     bech32.hrp := []; bech32.dp := [] |} /\
  size (@nil Z) <> 9 /\ size (@nil Z) <> 12 /\
  @decode libbech32.codec s = throw "checksum is invalid" /\
  @decode libbech32.codec s <> throw "decoded dp size is incorrect".
Proof.
  cbv zeta. repeat split; try (vm_compute; reflexivity);
    vm_compute; discriminate.
Qed.

(** C5 (amended).  [decode] fails with ChecksumError exactly when the
    codec returns both an empty HRP and an empty payload, and with
    InvalidPayloadSize exactly when the codec returns anything else whose
    payload length is neither 9 nor 12; an exception of the codec itself
    passes through; in all these cases no DecodedResult is returned. *)
Theorem decode_answer_checks (codec : bech32.Codec) s :
  let answer := bech32.decode (addHrpIfNeeded (bech32.stripUnknownChars s)) in
  (forall b, answer = bech32.Return b ->
     (decode s = throw "checksum is invalid"
      <-> bech32.hrp b = [] /\ bech32.dp b = []) /\
     (decode s = throw "decoded dp size is incorrect"
      <-> ~ (bech32.hrp b = [] /\ bech32.dp b = []) /\
          size (bech32.dp b) <> 9 /\ size (bech32.dp b) <> 12)) /\
  (forall what, answer = bech32.Raise what ->
     decode s = Throw (codec_error what)) /\
  (forall e, ChecksumError e \/ InvalidPayloadSize e ->
     decode s = Throw e -> ~ returns (decode s)).
Proof.
  intros answer. subst answer. split; [|split].
  - intros b Hb.
    assert (Hempty : (bech32.hrp b = [] /\ bech32.dp b = []) \/
                     ~ (bech32.hrp b = [] /\ bech32.dp b = [])).
    { destruct (bech32.hrp b); destruct (bech32.dp b);
        try (right; intros (H1 & H2); discriminate); now left. }
    assert (Hlate : forall e,
              ~ (bech32.hrp b = [] /\ bech32.dp b = []) ->
              isDataSizeValid (size (bech32.dp b)) = true ->
              decode s = Throw e ->
              ~ ChecksumError e /\ ~ InvalidPayloadSize e).
    { intros e Hne Hvalid Hthrow.
      destruct (decode_late_throws s b e Hb Hne Hvalid Hthrow)
        as [H | [H | [H | [H | (what & H)]]]];
        unfold ChecksumError, InvalidPayloadSize;
        unfold FormatError, UnsupportedVersion, RangeError, UnsupportedVariant in H;
        split; intros ->; repeat (destruct H as [H | H]; try discriminate H);
        discriminate H. }
    destruct Hempty as [Hempty | Hne].
    + rewrite (decode_checksum s b Hb Hempty).
      split; [split; [intros _; exact Hempty | reflexivity]|].
      split; [intros H; discriminate H | intros (H & _); now elim H].
    + destruct (isDataSizeValid (size (bech32.dp b))) eqn:Hvalid.
      * pose proof (proj1 (data_size_valid _) Hvalid) as Hsize.
        split; split.
        -- intros Hthrow. destruct (Hlate _ Hne eq_refl Hthrow) as (Hc & _).
           now elim Hc.
        -- tauto.
        -- intros Hthrow. destruct (Hlate _ Hne eq_refl Hthrow) as (_ & Hc).
           now elim Hc.
        -- lia.
      * rewrite (decode_size s b Hb Hne Hvalid).
        assert (Hsize : ~ (size (bech32.dp b) = 9 \/ size (bech32.dp b) = 12)).
        { intros H. apply data_size_valid in H. congruence. }
        split; [split; [intros H; discriminate H | intros H; now elim Hne]|].
        split; [intros _; split; [exact Hne | lia] | reflexivity].
  - intros what Hraise. unfold decode. now rewrite Hraise.
  - intros e _ Hthrow (r & Hr). rewrite Hr in Hthrow. discriminate Hthrow.
Qed.

Lemma decode_answer_checks_witness :
  @decode libbech32.codec (str "tx1:rqqq-qqqq-qwtv-vjq")
  = throw "checksum is invalid" /\
  @decode libbech32.codec (str "tx1:rqqq-qqqq-488s-95")
  = throw "decoded dp size is incorrect" /\
  @decode libbech32.codec (str "tx") = Throw (codec_error "string is too short").
Proof.
  split; [|split].
  - pose proof (decode_answer_checks libbech32.codec
                  (str "tx1:rqqq-qqqq-qwtv-vjq")) as H.
    cbv zeta in H. destruct H as (H & _).
    apply (H {| bech32.encoding := bech32.Invalid;
                bech32.hrp := []; bech32.dp := [] |});
      [vm_compute; reflexivity | now split].
  - pose proof (decode_answer_checks libbech32.codec
                  (str "tx1:rqqq-qqqq-488s-95")) as H.
    cbv zeta in H. destruct H as (H & _).
    apply (H {| bech32.encoding := bech32.Bech32m;
                bech32.hrp := str "tx"; bech32.dp := [3; 0; 0; 0; 0; 0; 0; 0] |});
      [vm_compute; reflexivity|].
    split; [intros (H' & _); discriminate H' | split; vm_compute; discriminate].
  - pose proof (decode_answer_checks libbech32.codec (str "tx")) as H.
    cbv zeta in H. destruct H as (_ & H & _).
    apply H. vm_compute. reflexivity.
Defined.

(** ** The reference codec honours the contract *)

(** *** The checksum

    [polymod_step] is linear over GF(2): the state and the symbol enter
    it through shifts, masks and exclusive ors only. *)

Lemma select_xorb (x y : bool) (g : Z) :
  libbech32.select (xorb x y) g
  = Z.lxor (libbech32.select x g) (libbech32.select y g).
Proof.
  destruct x, y; cbn [xorb libbech32.select];
    now rewrite ?Z.lxor_nilpotent, ?Z.lxor_0_l, ?Z.lxor_0_r.
Qed.

Lemma land_lxor a b m : Z.land (Z.lxor a b) m = Z.lxor (Z.land a m) (Z.land b m).
Proof.
  apply Z.bits_inj'. intros n _.
  rewrite !Z.lxor_spec, !Z.land_spec, Z.lxor_spec. btauto.
Qed.

Lemma generator_lxor p q :
  libbech32.generator (Z.lxor p q)
  = Z.lxor (libbech32.generator p) (libbech32.generator q).
Proof.
  unfold libbech32.generator. rewrite !Z.lxor_spec, !select_xorb.
  apply Z.bits_inj'. intros n _. rewrite !Z.lxor_spec. btauto.
Qed.

Lemma polymod_step_lxor a b u v :
  libbech32.polymod_step (Z.lxor a b) (Z.lxor u v)
  = Z.lxor (libbech32.polymod_step a u) (libbech32.polymod_step b v).
Proof.
  unfold libbech32.polymod_step.
  rewrite land_lxor, Z.shiftl_lxor, Z.shiftr_lxor, generator_lxor.
  apply Z.bits_inj'. intros n _. rewrite !Z.lxor_spec. btauto.
Qed.

(** A step on the sum of two states, fed a symbol, is the sum of a step
    fed zero and a step fed the symbol. *)
Lemma polymod_step_split a b v :
  libbech32.polymod_step (Z.lxor a b) v
  = Z.lxor (libbech32.polymod_step a 0) (libbech32.polymod_step b v).
Proof. now rewrite <- polymod_step_lxor, Z.lxor_0_l. Qed.

(** On a state below 2^25 nothing is reduced: the step shifts the state
    by one symbol and appends the new one. *)
Lemma polymod_step_small c v :
  0 <= c < 2 ^ 25 -> 0 <= v < 32 ->
  libbech32.polymod_step c v = c * 32 + v.
Proof.
  intros Hc Hv. unfold libbech32.polymod_step.
  rewrite (Z.shiftr_div_pow2 c 25), Z.div_small by lia.
  change (libbech32.generator 0) with 0. rewrite Z.lxor_0_r.
  rewrite (land_low c 0x1ffffff 25) by (reflexivity || lia).
  rewrite Z.mod_small by lia.
  rewrite Z.lxor_comm, Z.lxor_lor.
  - rewrite lor_shiftl by (change (2 ^ 5) with 32; lia).
    change (2 ^ 5) with 32. lia.
  - apply Z.bits_inj'. intros n Hn. rewrite Z.land_spec, Z.bits_0.
    destruct (Z.ltb_spec n 5).
    + rewrite Z.shiftl_spec_low by assumption. apply andb_false_r.
    + replace (Z.testbit v n) with false; [reflexivity|].
      symmetry. rewrite <- (Z.mod_small v (2 ^ 5)) by (change (2 ^ 5) with 32; lia).
      apply Z.mod_pow2_bits_high. lia.
Qed.

(** From the zero state, six symbols spell a 30-bit word back. *)
Lemma polymod_digits x :
  0 <= x < 2 ^ 30 ->
  libbech32.polymod_from 0 (libbech32.digits x) = x.
Proof.
  intros Hx. change (2 ^ 30) with 1073741824 in Hx.
  unfold libbech32.polymod_from, libbech32.digits. cbn [map fold_left].
  rewrite !(land_low _ 31 5) by (reflexivity || lia).
  rewrite !Z.shiftr_div_pow2 by lia.
  change (5 * (5 - 0)) with 25. change (5 * (5 - 1)) with 20.
  change (5 * (5 - 2)) with 15. change (5 * (5 - 3)) with 10.
  change (5 * (5 - 4)) with 5. change (5 * (5 - 5)) with 0.
  change (2 ^ 25) with 33554432. change (2 ^ 20) with 1048576.
  change (2 ^ 15) with 32768. change (2 ^ 10) with 1024.
  change (2 ^ 5) with 32. change (2 ^ 0) with 1.
  rewrite (polymod_step_small 0)
    by (change (2 ^ 25) with 33554432; Z.div_mod_to_equations; lia).
  cbn [Z.mul Z.add].
  repeat match goal with
  | |- context [libbech32.polymod_step ?c ?v] =>
      rewrite (polymod_step_small c v)
        by (change (2 ^ 25) with 33554432; Z.div_mod_to_equations; lia)
  end.
  Z.div_mod_to_equations. lia.
Qed.

(** Six symbols from any state: the run on zeros, plus the word. *)
Lemma polymod_from_digits st x :
  0 <= x < 2 ^ 30 ->
  libbech32.polymod_from st (libbech32.digits x)
  = Z.lxor (libbech32.polymod_from st (repeat 0 6)) x.
Proof.
  intros Hx. rewrite <- (polymod_digits x Hx) at 2.
  unfold libbech32.polymod_from, libbech32.digits. cbn [map fold_left repeat].
  rewrite <- (Z.lxor_0_r st) at 1.
  now rewrite !polymod_step_split.
Qed.

Lemma lxor_bound a b n :
  0 <= n -> 0 <= a < 2 ^ n -> 0 <= b < 2 ^ n -> 0 <= Z.lxor a b < 2 ^ n.
Proof.
  intros Hn Ha Hb.
  assert (Hnonneg : 0 <= Z.lxor a b) by (apply Z.lxor_nonneg; lia).
  split; [exact Hnonneg|].
  rewrite <- (Z.mod_small a (2 ^ n)), <- (Z.mod_small b (2 ^ n)) by assumption.
  replace (Z.lxor (a mod 2 ^ n) (b mod 2 ^ n))
    with ((Z.lxor (a mod 2 ^ n) (b mod 2 ^ n)) mod 2 ^ n).
  - apply Z.mod_pos_bound. lia.
  - apply Z.bits_inj'. intros i Hi.
    destruct (Z.ltb_spec i n).
    + now rewrite Z.mod_pow2_bits_low by lia.
    + rewrite Z.mod_pow2_bits_high by lia.
      rewrite Z.lxor_spec, !Z.mod_pow2_bits_high by lia. reflexivity.
Qed.

Lemma generator_bound p : 0 <= libbech32.generator p < 2 ^ 30.
Proof.
  unfold libbech32.generator.
  repeat apply lxor_bound; try lia;
    match goal with
    | |- context [libbech32.select ?b _] => destruct b
    end; cbn [libbech32.select]; change (2 ^ 30) with 1073741824; lia.
Qed.

Lemma polymod_step_bound c v :
  0 <= v < 32 -> 0 <= libbech32.polymod_step c v < 2 ^ 30.
Proof.
  intros Hv. unfold libbech32.polymod_step.
  apply lxor_bound; [lia | | apply generator_bound].
  apply lxor_bound; [lia | | change (2 ^ 30) with 1073741824; lia].
  rewrite (land_low c 0x1ffffff 25) by (reflexivity || lia).
  rewrite Z.shiftl_mul_pow2 by lia.
  change (2 ^ 25) with 33554432. change (2 ^ 5) with 32.
  change (2 ^ 30) with 1073741824.
  Z.div_mod_to_equations. lia.
Qed.

Lemma polymod_from_bound values : forall st,
  0 <= st < 2 ^ 30 ->
  forallb bech32.isSymbol values = true ->
  0 <= libbech32.polymod_from st values < 2 ^ 30.
Proof.
  induction values as [|v values IH]; intros st Hst Hvalues;
    cbn [libbech32.polymod_from fold_left]; [exact Hst|].
  cbn [forallb] in Hvalues. apply andb_true_iff in Hvalues as (Hv & Hvalues).
  apply IH; [|exact Hvalues].
  apply polymod_step_bound. unfold bech32.isSymbol in Hv.
  apply andb_true_iff in Hv as (Hlo & Hhi).
  apply Z.leb_le in Hlo. apply Z.ltb_lt in Hhi. lia.
Qed.

Lemma polymod_from_app st values1 values2 :
  libbech32.polymod_from st (values1 ++ values2)
  = libbech32.polymod_from (libbech32.polymod_from st values1) values2.
Proof. apply fold_left_app. Qed.

Lemma code_bound c : 0 <= libbech32.code c < 256.
Proof.
  unfold libbech32.code. pose proof (N_ascii_bounded c). lia.
Qed.

Lemma expandHrp_symbols hrp :
  forallb bech32.isSymbol (libbech32.expandHrp hrp) = true.
Proof.
  unfold libbech32.expandHrp. rewrite forallb_app. cbn [forallb].
  apply andb_true_iff. split; [|apply andb_true_iff; split; [reflexivity|]];
    apply forallb_forall; intros v Hv; apply in_map_iff in Hv as (c & <- & _);
    pose proof (code_bound c); unfold bech32.isSymbol;
    apply andb_true_iff; rewrite Z.leb_le, Z.ltb_lt.
  - rewrite Z.shiftr_div_pow2 by lia. change (2 ^ 5) with 32.
    Z.div_mod_to_equations. lia.
  - rewrite (land_low _ 31 5) by (reflexivity || lia). change (2 ^ 5) with 32.
    Z.div_mod_to_equations. lia.
Qed.

Lemma digits_symbols m : forallb bech32.isSymbol (libbech32.digits m) = true.
Proof.
  unfold libbech32.digits. cbn [map forallb]. unfold bech32.isSymbol.
  rewrite !(land_low _ 31 5) by (reflexivity || lia). change (2 ^ 5) with 32.
  repeat match goal with
  | |- context [?a <=? ?b] => destruct (Z.leb_spec a b); [|Z.div_mod_to_equations; lia]
  | |- context [?a <? ?b] => destruct (Z.ltb_spec a b); [|Z.div_mod_to_equations; lia]
  end.
  reflexivity.
Qed.

(** The checksum that [createChecksum] appends verifies. *)
Lemma checksum_verifies hrp dp :
  forallb bech32.isSymbol dp = true ->
  libbech32.polymod
    (libbech32.expandHrp hrp ++ dp ++ libbech32.createChecksum hrp dp)
  = libbech32.M.
Proof.
  intros Hdp. unfold libbech32.createChecksum, libbech32.polymod.
  rewrite !(app_assoc (libbech32.expandHrp hrp) dp).
  set (prefix := libbech32.expandHrp hrp ++ dp).
  rewrite !polymod_from_app.
  set (st := libbech32.polymod_from 1 prefix).
  assert (Hst : 0 <= st < 2 ^ 30).
  { apply polymod_from_bound; [change (2 ^ 30) with 1073741824; lia|].
    subst prefix. rewrite forallb_app, expandHrp_symbols. exact Hdp. }
  assert (Hm : 0 <= libbech32.polymod_from st (repeat 0 6) < 2 ^ 30)
    by (apply polymod_from_bound; [exact Hst | reflexivity]).
  assert (HM : 0 <= libbech32.M < 2 ^ 30) by (split; [discriminate | reflexivity]).
  pose proof (lxor_bound _ _ 30 ltac:(lia) Hm HM) as Hword.
  rewrite (polymod_from_digits st _ Hword).
  rewrite <- Z.lxor_assoc, Z.lxor_nilpotent. apply Z.lxor_0_l.
Qed.

(** *** The alphabet *)

Lemma symbol_char_forall (P : ascii -> bool) :
  forallb P bech32.charset = true ->
  forall c, bech32.isSymbolChar c = true -> P c = true.
Proof.
  intros Hall c Hc. unfold bech32.isSymbolChar in Hc.
  apply existsb_exists in Hc as (x & Hin & Heq).
  apply Ascii.eqb_eq in Heq. subst x.
  now apply (proj1 (forallb_forall P bech32.charset) Hall).
Qed.

Lemma codec_char_forall (P : ascii -> bool) :
  forallb P bech32.charset = true -> P bech32.separator = true ->
  forall c, bech32.isCodecChar c = true -> P c = true.
Proof.
  intros Hall Hsep c Hc. unfold bech32.isCodecChar in Hc.
  apply orb_true_iff in Hc as [Hc | Hc].
  - now apply symbol_char_forall.
  - apply Ascii.eqb_eq in Hc. now subst c.
Qed.

Lemma forallb_impl {A : Type} (P Q : A -> bool) (l : list A) :
  (forall a, P a = true -> Q a = true) ->
  forallb P l = true -> forallb Q l = true.
Proof.
  intros Himpl Hl. apply forallb_forall. intros a Ha.
  apply Himpl. now apply (proj1 (forallb_forall P l) Hl).
Qed.

Lemma symbol_chars_are_codec_chars l :
  forallb bech32.isSymbolChar l = true -> forallb bech32.isCodecChar l = true.
Proof.
  apply forallb_impl. intros c Hc. unfold bech32.isCodecChar. now rewrite Hc.
Qed.

Lemma codec_chars_printable l :
  forallb bech32.isCodecChar l = true -> forallb libbech32.isPrintable l = true.
Proof.
  apply forallb_impl. apply codec_char_forall; vm_compute; reflexivity.
Qed.

Lemma codec_chars_kept l :
  forallb bech32.isCodecChar l = true -> forallb libbech32.isKept l = true.
Proof.
  apply forallb_impl. apply codec_char_forall; vm_compute; reflexivity.
Qed.

Lemma codec_chars_not_upper l :
  forallb bech32.isCodecChar l = true -> existsb libbech32.isUpper l = false.
Proof.
  intros Hl. apply not_true_is_false. intros Hex.
  apply existsb_exists in Hex as (c & Hin & Hup).
  pose proof (proj1 (forallb_forall _ l) Hl c Hin) as Hc.
  apply (codec_char_forall (fun c => negb (libbech32.isUpper c))) in Hc;
    [|vm_compute; reflexivity|vm_compute; reflexivity].
  rewrite Hup in Hc. discriminate Hc.
Qed.

Lemma codec_chars_lower l :
  forallb bech32.isCodecChar l = true -> map libbech32.toLower l = l.
Proof.
  induction l as [|c l IH]; cbn [forallb map]; [reflexivity|].
  intros H. apply andb_true_iff in H as (Hc & Hl).
  rewrite IH by assumption. f_equal.
  apply (codec_char_forall (fun c => Ascii.eqb (libbech32.toLower c) c)) in Hc;
    [|vm_compute; reflexivity|vm_compute; reflexivity].
  now apply Ascii.eqb_eq.
Qed.

Lemma symbol_forall (P : Z -> bool) :
  forallb P (map Z.of_nat (seq 0 32)) = true ->
  forall v, bech32.isSymbol v = true -> P v = true.
Proof.
  intros Hall v Hv. unfold bech32.isSymbol in Hv.
  apply andb_true_iff in Hv as (Hlo & Hhi).
  apply Z.leb_le in Hlo. apply Z.ltb_lt in Hhi.
  apply (proj1 (forallb_forall P _) Hall).
  apply in_map_iff. exists (Z.to_nat v). split; [lia|].
  apply in_seq. lia.
Qed.

Lemma symbols_are_symbol_chars values :
  forallb bech32.isSymbol values = true ->
  forallb bech32.isSymbolChar (map libbech32.symbol values) = true.
Proof.
  induction values as [|v values IH]; cbn [forallb map]; [reflexivity|].
  intros H. apply andb_true_iff in H as (Hv & Hvalues).
  rewrite IH by assumption.
  apply (symbol_forall (fun v => bech32.isSymbolChar (libbech32.symbol v))) in Hv;
    [|vm_compute; reflexivity].
  now rewrite Hv.
Qed.

Lemma values_of_symbols values :
  forallb bech32.isSymbol values = true ->
  libbech32.values_of (map libbech32.symbol values) = Some values.
Proof.
  induction values as [|v values IH]; cbn [forallb map libbech32.values_of];
    [reflexivity|].
  intros H. apply andb_true_iff in H as (Hv & Hvalues).
  rewrite IH by assumption.
  apply (symbol_forall
           (fun v => match libbech32.index_of (libbech32.symbol v) libbech32.charset with
                     | Some w => w =? v
                     | None => false
                     end)) in Hv; [|vm_compute; reflexivity].
  destruct (libbech32.index_of (libbech32.symbol v) libbech32.charset) as [w|];
    [|discriminate Hv].
  apply Z.eqb_eq in Hv. now subst w.
Qed.

Lemma values_of_length data : forall values,
  libbech32.values_of data = Some values -> List.length values = List.length data.
Proof.
  induction data as [|c data IH]; cbn [libbech32.values_of]; intros values.
  - now intros [= <-].
  - destruct (libbech32.index_of c libbech32.charset); [|discriminate].
    destruct (libbech32.values_of data) as [vs|]; [|discriminate].
    intros [= <-]. cbn [List.length]. now rewrite (IH vs).
Qed.

(** *** Splitting at the separator *)

Lemma splitString_no_separator body :
  forallb bech32.isSymbolChar body = true -> libbech32.splitString body = None.
Proof.
  induction body as [|c body IH]; cbn [forallb libbech32.splitString];
    [reflexivity|].
  intros H. apply andb_true_iff in H as (Hc & Hbody).
  rewrite IH by assumption.
  apply (symbol_char_forall (fun c => negb (Ascii.eqb c bech32.separator))) in Hc;
    [|vm_compute; reflexivity].
  now destruct (Ascii.eqb c bech32.separator).
Qed.

Lemma splitString_app hrp body :
  forallb bech32.isSymbolChar body = true ->
  libbech32.splitString (hrp ++ bech32.separator :: body) = Some (hrp, body).
Proof.
  intros Hbody. induction hrp as [|c hrp IH]; cbn [app libbech32.splitString].
  - rewrite splitString_no_separator by assumption.
    now rewrite Ascii.eqb_refl.
  - now rewrite IH.
Qed.

Lemma splitString_length s : forall hrp data,
  libbech32.splitString s = Some (hrp, data) ->
  List.length s = (List.length hrp + 1 + List.length data)%nat.
Proof.
  induction s as [|c s IH]; cbn [libbech32.splitString]; intros hrp data;
    [discriminate|].
  destruct (libbech32.splitString s) as [[h d]|].
  - intros [= <- <-]. cbn [List.length]. rewrite (IH h d eq_refl). lia.
  - destruct (Ascii.eqb c bech32.separator); [|discriminate].
    intros [= <- <-]. cbn [List.length]. lia.
Qed.

(** *** The contract *)

Lemma createChecksum_length hrp dp :
  List.length (libbech32.createChecksum hrp dp) = 6%nat.
Proof. reflexivity. Qed.

Lemma libbech32_encode_returns hrp dp :
  hrp <> [] -> forallb bech32.isCodecChar hrp = true ->
  forallb bech32.isSymbol dp = true ->
  Z.of_nat (List.length hrp) + Z.of_nat (List.length dp) + 7 <= 90 ->
  libbech32.encode hrp dp
  = bech32.Return
      (hrp ++ bech32.separator
           :: map libbech32.symbol (dp ++ libbech32.createChecksum hrp dp)).
Proof.
  intros Hne Hhrp Hdp Hfit. unfold libbech32.encode, bech32.MAX_HRP_LENGTH, size.
  assert (1 <= Z.of_nat (List.length hrp))
    by (destruct hrp; [contradiction | cbn [List.length]; lia]).
  destruct (Z.ltb_spec (Z.of_nat (List.length hrp)) 1); [lia|].
  destruct (Z.gtb_spec (Z.of_nat (List.length hrp)) 83); [lia|].
  destruct (Z.gtb_spec (Z.of_nat (List.length hrp) + 1
                        + Z.of_nat (List.length dp) + 6) 90); [lia|].
  rewrite (codec_chars_printable hrp Hhrp). cbn [negb].
  unfold libbech32.isSymbol. rewrite Hdp. cbn [negb].
  now rewrite (codec_chars_lower hrp Hhrp).
Qed.

(** What [encode] returns, whenever it returns. *)
Lemma libbech32_encode_inv hrp dp raw :
  libbech32.encode hrp dp = bech32.Return raw ->
  hrp <> [] /\
  forallb bech32.isSymbol dp = true /\
  Z.of_nat (List.length hrp) + Z.of_nat (List.length dp) + 7 <= 90 /\
  raw = map libbech32.toLower hrp ++ bech32.separator
        :: map libbech32.symbol
             (dp ++ libbech32.createChecksum (map libbech32.toLower hrp) dp).
Proof.
  unfold libbech32.encode, libbech32.reject, bech32.MAX_HRP_LENGTH, size.
  destruct (Z.ltb_spec (Z.of_nat (List.length hrp)) 1); [discriminate|].
  destruct (Z.gtb_spec (Z.of_nat (List.length hrp)) 83); [discriminate|].
  destruct (Z.gtb_spec (Z.of_nat (List.length hrp) + 1
                        + Z.of_nat (List.length dp) + 6) 90); [discriminate|].
  destruct (forallb libbech32.isPrintable hrp); cbn [negb]; [|discriminate].
  unfold libbech32.isSymbol.
  destruct (forallb bech32.isSymbol dp); cbn [negb]; [|discriminate].
  intros [= <-]. repeat split; try lia.
  intros ->. cbn [List.length] in *. lia.
Qed.

Lemma libbech32_decode_encode hrp dp raw :
  forallb bech32.isCodecChar hrp = true ->
  libbech32.encode hrp dp = bech32.Return raw ->
  libbech32.decode raw
  = bech32.Return {| bech32.encoding := bech32.Bech32m;
                     bech32.hrp := hrp; bech32.dp := dp |}.
Proof.
  intros Hhrp Hraw.
  destruct (libbech32_encode_inv hrp dp raw Hraw) as (Hne & Hdp & Hfit & ->).
  rewrite (codec_chars_lower hrp Hhrp).
  set (check := libbech32.createChecksum hrp dp).
  assert (Hcheck : forallb bech32.isSymbol check = true) by apply digits_symbols.
  assert (Hvalues : forallb bech32.isSymbol (dp ++ check) = true)
    by (rewrite forallb_app, Hdp, Hcheck; reflexivity).
  pose proof (symbols_are_symbol_chars _ Hvalues) as Hbody.
  assert (Hall : forallb bech32.isCodecChar
                   (hrp ++ bech32.separator :: map libbech32.symbol (dp ++ check))
                 = true).
  { rewrite forallb_app. cbn [forallb].
    rewrite Hhrp, (symbol_chars_are_codec_chars _ Hbody). reflexivity. }
  assert (Hlen : size (hrp ++ bech32.separator :: map libbech32.symbol (dp ++ check))
                 = size hrp + size dp + 7).
  { unfold size. rewrite length_app. cbn [List.length].
    rewrite length_map, length_app. subst check.
    rewrite createChecksum_length. lia. }
  assert (1 <= size hrp)
    by (unfold size; destruct hrp; [contradiction | cbn [List.length]; lia]).
  pose proof (size_nonneg dp).
  unfold libbech32.decode, libbech32.reject, bech32.MAX_HRP_LENGTH.
  rewrite Hlen.
  destruct (Z.ltb_spec (size hrp + size dp + 7) 8); [lia|].
  destruct (Z.gtb_spec (size hrp + size dp + 7) 90); [unfold size in *; lia|].
  rewrite (codec_chars_printable _ Hall). cbn [negb].
  rewrite (codec_chars_not_upper _ Hall). cbn [andb].
  rewrite (codec_chars_lower _ Hall).
  rewrite (splitString_app hrp _ Hbody).
  destruct (Z.ltb_spec (size hrp) 1); [lia|].
  destruct (Z.gtb_spec (size hrp) 83); [unfold size in *; lia|].
  assert (Hdata : size (map libbech32.symbol (dp ++ check)) = size dp + 6).
  { unfold size. rewrite length_map, length_app. subst check.
    rewrite createChecksum_length. lia. }
  rewrite Hdata.
  destruct (Z.ltb_spec (size dp + 6) 6); [lia|].
  rewrite (values_of_symbols _ Hvalues).
  subst check. rewrite (checksum_verifies hrp dp Hdp), Z.eqb_refl.
  rewrite length_app, createChecksum_length.
  replace (List.length dp + 6 - 6)%nat with (List.length dp + 0)%nat by lia.
  now rewrite firstn_app_2, app_nil_r.
Qed.

Lemma libbech32_decode_shape s b :
  libbech32.decode s = bech32.Return b -> bech32.dp b <> [] ->
  Z.of_nat (List.length s)
  = Z.of_nat (List.length (bech32.hrp b)) + Z.of_nat (List.length (bech32.dp b)) + 7 /\
  Z.of_nat (List.length s) <= 90.
Proof.
  unfold libbech32.decode, libbech32.reject, bech32.MAX_HRP_LENGTH.
  destruct (Z.ltb_spec (size s) 8); [discriminate|].
  destruct (Z.gtb_spec (size s) 90); [discriminate|].
  destruct (forallb libbech32.isPrintable s); cbn [negb]; [|discriminate].
  destruct (existsb libbech32.isUpper s && existsb libbech32.isLower s);
    [discriminate|].
  destruct (libbech32.splitString (map libbech32.toLower s)) as [[hrp data]|] eqn:Hsplit;
    [|discriminate].
  apply splitString_length in Hsplit. rewrite length_map in Hsplit.
  destruct (Z.ltb_spec (size hrp) 1); [discriminate|].
  destruct (Z.gtb_spec (size hrp) 83); [discriminate|].
  destruct (Z.ltb_spec (size data) 6); [discriminate|].
  destruct (libbech32.values_of data) as [values|] eqn:Hvalues; [|discriminate].
  apply values_of_length in Hvalues.
  assert (Hdp : List.length (firstn (List.length values - 6) values)
                = (List.length data - 6)%nat)
    by (rewrite length_firstn; lia).
  unfold size in *.
  destruct (_ =? libbech32.M); [|destruct (_ =? libbech32.ORIGINAL)];
    intros [= <-]; cbn [bech32.hrp bech32.dp]; intros Hne;
    try (now elim Hne); rewrite Hdp; lia.
Qed.

#[export] Instance libbech32_laws : bech32.Laws libbech32.codec.
Proof.
  split.
  - exists libbech32.isKept. split; [reflexivity|]. split; [|now split].
    apply codec_char_forall; vm_compute; reflexivity.
  - intros hrp dp Hne Hhrp Hdp Hfit. eexists.
    now apply libbech32_encode_returns.
  - intros hrp dp raw Hhrp Hraw. cbn [bech32.encode libbech32.codec] in Hraw.
    destruct (libbech32_encode_inv hrp dp raw Hraw) as (Hne & Hdp & Hfit & ->).
    rewrite (codec_chars_lower hrp Hhrp).
    exists (map libbech32.symbol (dp ++ libbech32.createChecksum hrp dp)).
    split; [reflexivity|]. split.
    + apply symbols_are_symbol_chars. rewrite forallb_app, Hdp.
      apply digits_symbols.
    + split.
      * rewrite length_map, length_app, createChecksum_length. reflexivity.
      * rewrite length_app. cbn [List.length].
        rewrite length_map, length_app, createChecksum_length. lia.
  - intros hrp dp raw. apply libbech32_decode_encode.
  - intros s b. apply libbech32_decode_shape.
Qed.

(** ** Round trips *)

(** Whatever [prettyPrint] returns is its input with colons and hyphens
    added. *)
Lemma prettyPrint_inv (kept : ascii -> bool) plain hrplen out :
  kept txref.colon = false -> kept txref.hyphen = false ->
  is_length (size plain + 1) ->
  prettyPrint plain hrplen = Ok out ->
  filter kept out = filter kept plain.
Proof.
  intros Hcolon Hhyphen Hlen. unfold is_length in Hlen.
  unfold prettyPrint, string_insert.
  destruct ((0 <=? to_difference_type (to_size_type (hrplen + 1))) &&
            (to_difference_type (to_size_type (hrplen + 1)) <=? size plain));
    cbn [bind]; [|discriminate].
  set (pos := Z.to_nat (to_difference_type (to_size_type (hrplen + 1)))).
  set (result := firstn pos plain ++ txref.colon :: skipn pos plain).
  assert (Hsize : size result = size plain + 1) by apply size_inserted.
  assert (Hfilter : filter kept result = filter kept plain)
    by now apply filter_inserted.
  set (n := to_size_type (hrplen + 2)).
  assert (Hn : 0 <= n < 2 ^ 64)
    by (subst n; unfold to_size_type; apply Z.mod_pos_bound; lia).
  intros Hout.
  assert (Hchecks : n <= 83 /\ 2 <= size result /\ n <= size result).
  { revert Hout. unfold addGroupSeparators, bech32.MAX_HRP_LENGTH, throw.
    destruct (Z.gtb_spec n 83); [discriminate|].
    cbn [Z.ltb Z.compare Pos.compare Pos.compare_cont]. cbv zeta.
    rewrite !to_difference_type_small by lia.
    destruct (Z.ltb_spec (size result) 2); [discriminate|].
    destruct (Z.eqb_spec (size result) n); [intros _; lia|].
    destruct (Z.ltb_spec (size result) n); [discriminate|].
    intros _. lia. }
  destruct (addGroupSeparators_returns kept result n 4 Hhyphen)
    as (out' & Hout' & Hfilter');
    unfold bech32.MAX_HRP_LENGTH, is_length; try lia.
  rewrite Hout in Hout'. injection Hout' as <-.
  now rewrite Hfilter'.
Qed.

Lemma filter_all {A : Type} (P : A -> bool) (l : list A) :
  forallb P l = true -> filter P l = l.
Proof.
  induction l as [|a l IH]; cbn [forallb filter]; [reflexivity|].
  intros H. apply andb_true_iff in H as (Ha & Hl).
  now rewrite Ha, IH.
Qed.

Lemma isLengthValid_spec n :
  isLengthValid n = true <-> n = 15 \/ n = 18.
Proof.
  unfold isLengthValid, TXREF_STRING_NO_HRP_MIN_LENGTH,
    TXREF_EXT_STRING_NO_HRP_MIN_LENGTH.
  destruct (Z.eqb_spec n 15); destruct (Z.eqb_spec n 18); cbn [orb];
    split; intros; try discriminate; try reflexivity; try tauto; lia.
Qed.

(** [addHrpIfNeeded] leaves alone every string that is neither 15 nor 18
    characters long, and every string that begins with no sigil. *)
Lemma addHrpIfNeeded_id s :
  isLengthValid (size s) && is_sigil (nth 0 s zero) = false ->
  addHrpIfNeeded s = s.
Proof.
  unfold addHrpIfNeeded, is_sigil.
  destruct (isLengthValid (size s)); cbn [andb]; [|reflexivity].
  destruct (Ascii.eqb (nth 0 s zero) (chr "r")); [discriminate|].
  destruct (Ascii.eqb (nth 0 s zero) (chr "y")); [discriminate|].
  destruct (Ascii.eqb (nth 0 s zero) (chr "x")); [discriminate|].
  destruct (Ascii.eqb (nth 0 s zero) (chr "8")); [discriminate|].
  reflexivity.
Qed.

Section RoundTrip.

Context {codec : bech32.Codec} {laws : bech32.Laws codec}.

(** Stripping undoes the pretty printer on a string of the codec. *)
Lemma strip_pretty raw hrplen out :
  forallb bech32.isCodecChar raw = true ->
  is_length (size raw + 1) ->
  prettyPrint raw hrplen = Ok out ->
  bech32.stripUnknownChars out = raw /\ bech32.stripUnknownChars raw = raw.
Proof.
  intros Hraw Hlen Hout.
  destruct bech32.strip_filter as (kept & Hstrip & Hkept & Hcolon & Hhyphen).
  assert (Hid : filter kept raw = raw).
  { apply filter_all. revert Hraw. now apply forallb_impl. }
  rewrite !Hstrip. split; [|exact Hid].
  now rewrite (prettyPrint_inv kept raw hrplen out Hcolon Hhyphen Hlen Hout).
Qed.

(** Decoding a string that strips to what the codec produced for [hrp]
    and a payload of valid size. *)
Lemma decode_encoded hrp dp raw pretty s magicCode h p t :
  forallb bech32.isCodecChar hrp = true ->
  bech32.encode hrp dp = bech32.Return raw ->
  isDataSizeValid (size dp) = true ->
  mistaken_for_missing_hrp hrp (isExtendedSize (size dp)) = false ->
  prettyPrint raw (size hrp) = Ok pretty ->
  extractMagicCode dp = Ok magicCode ->
  extractBlockHeight dp = Ok h ->
  extractTransactionPosition dp = Ok p ->
  extractTxoIndex dp = Ok t ->
  bech32.stripUnknownChars s = raw ->
  decode s =
  Ok {| txref.hrp := hrp;
        txref.txref_ := pretty;
        txref.blockHeight := h;
        txref.transactionPosition := p;
        txref.txoIndex := t;
        txref.magicCode := magicCode;
        txref.encoding := txref.Bech32m;
        txref.commentary := [] |}.
Proof.
  intros Hhrp Hraw Hvalid Hmistaken Hpretty Hmagic Hheight Hposition Hindex Hstrip.
  destruct (bech32.encode_shape hrp dp raw Hhrp Hraw)
    as (body & Hshape & Hbody & Hlen & _).
  pose proof (bech32.decode_encode hrp dp raw Hhrp Hraw) as Hdecode.
  apply data_size_valid in Hvalid as Hsize.
  assert (Hrawsize : size raw = size hrp + size dp + 7).
  { rewrite Hshape, size_app, size_cons. unfold size. lia. }
  assert (Hkeep : addHrpIfNeeded raw = raw).
  { apply addHrpIfNeeded_id.
    destruct (isLengthValid (size raw)) eqn:Hvalidlen; cbn [andb]; [|reflexivity].
    apply isLengthValid_spec in Hvalidlen.
    assert (Hhrpsize : 0 <= size hrp) by apply size_nonneg.
    unfold mistaken_for_missing_hrp, isExtendedSize, DATA_EXTENDED_SIZE in Hmistaken.
    destruct Hsize as [H9 | H12]; [|lia].
    rewrite H9 in Hmistaken. cbn [Z.eqb negb andb] in Hmistaken.
    destruct (Z.eqb_spec (size hrp) 2); [|lia].
    cbn [andb] in Hmistaken.
    rewrite Hshape. destruct hrp as [|c hrp]; [discriminate|].
    exact Hmistaken. }
  unfold decode. rewrite Hstrip, Hkeep, Hdecode.
  cbn [call bind bech32.hrp bech32.dp bech32.encoding].
  destruct (Z.eqb_spec (size dp) 0); [lia|]. rewrite andb_false_r.
  rewrite (proj2 (data_size_valid dp) Hsize). cbn [negb].
  rewrite Hmagic, Hpretty, Hheight, Hposition, Hindex. reflexivity.
Qed.

End RoundTrip.

Section EncodeDecode.

Context {codec : bech32.Codec} {laws : bech32.Laws codec}.

(** The string of the codec behind a printed reference. *)
Lemma printed_reference hrp dp s :
  forallb bech32.isCodecChar hrp = true ->
  (result <- call (bech32.encode hrp dp) ;; prettyPrint result (size hrp)) = Ok s ->
  exists raw,
    bech32.encode hrp dp = bech32.Return raw /\
    prettyPrint raw (size hrp) = Ok s /\
    bech32.stripUnknownChars s = raw /\
    bech32.stripUnknownChars raw = raw.
Proof.
  intros Hhrp Hs.
  destruct (bech32.encode hrp dp) as [raw|what] eqn:Hraw; cbn [call bind] in Hs;
    [|discriminate].
  exists raw. split; [reflexivity|]. split; [exact Hs|].
  destruct (bech32.encode_shape hrp dp raw Hhrp Hraw)
    as (body & Hshape & Hbody & _ & Hlen).
  apply (strip_pretty raw (size hrp) s); [| |exact Hs].
  - rewrite Hshape, forallb_app. cbn [forallb].
    rewrite Hhrp, (symbol_chars_are_codec_chars _ Hbody). reflexivity.
  - unfold is_length, size. change (2 ^ 63) with 9223372036854775808. lia.
Qed.

(** The standard path, decoded: directly, or after stripping. *)
Lemma standard_roundtrip hrp magicCode h p s s' :
  0 <= h <= MAX_BLOCK_HEIGHT -> 0 <= p <= MAX_TRANSACTION_POSITION ->
  0 <= magicCode <= MAX_MAGIC_CODE ->
  forallb bech32.isCodecChar hrp = true ->
  mistaken_for_missing_hrp hrp false = false ->
  txrefEncode hrp magicCode h p = Ok s ->
  s' = s \/ s' = bech32.stripUnknownChars s ->
  decode s' =
  Ok {| txref.hrp := hrp; txref.txref_ := s;
        txref.blockHeight := h; txref.transactionPosition := p;
        txref.txoIndex := 0; txref.magicCode := magicCode;
        txref.encoding := txref.Bech32m; txref.commentary := [] |}.
Proof.
  intros Hh Hp Hm Hhrp Hmistaken Hs Hs'.
  rewrite txrefEncode_in_range in Hs by assumption.
  destruct (printed_reference hrp _ s Hhrp Hs) as (raw & Hraw & Hpretty & Hstrip & Hid).
  unfold MAX_BLOCK_HEIGHT, MAX_TRANSACTION_POSITION, MAX_MAGIC_CODE in *.
  destruct (extract_standard magicCode h p) as (E1 & E2 & E3 & E4);
    try (change (2 ^ 24) with 16777216; change (2 ^ 15) with 32768; lia).
  destruct (standard_payload_symbols magicCode h p) as (_ & Hsize);
    [unfold MAX_MAGIC_CODE; lia|].
  assert (Hclean : bech32.stripUnknownChars s' = raw)
    by (destruct Hs' as [-> | ->]; [exact Hstrip | now rewrite Hstrip]).
  apply (decode_encoded hrp (txrefEncode_dp magicCode h p) raw s s'
           magicCode h p 0 Hhrp Hraw); try assumption;
    rewrite Hsize; first [reflexivity | exact Hmistaken].
Qed.

(** The extended path, decoded: directly, or after stripping. *)
Lemma extended_roundtrip hrp magicCode h p t s s' :
  0 <= h <= MAX_BLOCK_HEIGHT -> 0 <= p <= MAX_TRANSACTION_POSITION ->
  0 <= t <= MAX_TXO_INDEX -> 0 <= magicCode <= MAX_MAGIC_CODE ->
  forallb bech32.isCodecChar hrp = true ->
  txrefExtEncode hrp magicCode h p t = Ok s ->
  s' = s \/ s' = bech32.stripUnknownChars s ->
  decode s' =
  Ok {| txref.hrp := hrp; txref.txref_ := s;
        txref.blockHeight := h; txref.transactionPosition := p;
        txref.txoIndex := t; txref.magicCode := magicCode;
        txref.encoding := txref.Bech32m; txref.commentary := [] |}.
Proof.
  intros Hh Hp Ht Hm Hhrp Hs Hs'.
  rewrite txrefExtEncode_in_range in Hs by assumption.
  destruct (checkExtendedMagicCode magicCode); cbn [bind] in Hs; try discriminate.
  destruct (printed_reference hrp _ s Hhrp Hs) as (raw & Hraw & Hpretty & Hstrip & Hid).
  unfold MAX_BLOCK_HEIGHT, MAX_TRANSACTION_POSITION, MAX_TXO_INDEX,
    MAX_MAGIC_CODE in *.
  destruct (extract_extended magicCode h p t) as (E1 & E2 & E3 & E4);
    try (change (2 ^ 24) with 16777216; change (2 ^ 15) with 32768; lia).
  destruct (extended_payload_symbols magicCode h p t) as (_ & Hsize);
    [unfold MAX_MAGIC_CODE; lia|].
  assert (Hclean : bech32.stripUnknownChars s' = raw)
    by (destruct Hs' as [-> | ->]; [exact Hstrip | now rewrite Hstrip]).
  apply (decode_encoded hrp (txrefExtEncode_dp magicCode h p t) raw s s'
           magicCode h p t Hhrp Hraw); try assumption;
    rewrite Hsize; reflexivity.
Qed.

(** Both public encoders, decoded: directly, or after stripping. *)
Lemma encoded_roundtrip h p t forceExtended hrp s s' :
  0 <= h <= MAX_BLOCK_HEIGHT -> 0 <= p <= MAX_TRANSACTION_POSITION ->
  0 <= t <= MAX_TXO_INDEX ->
  forallb bech32.isCodecChar hrp = true ->
  mistaken_for_missing_hrp hrp (negb (t =? 0) || forceExtended) = false ->
  encode h p t forceExtended hrp = Ok s \/
  encodeTestnet h p t forceExtended hrp = Ok s ->
  s' = s \/ s' = bech32.stripUnknownChars s ->
  exists r,
    decode s' = Ok r /\
    txref.blockHeight r = h /\ txref.transactionPosition r = p /\
    txref.txoIndex r = t.
Proof.
  intros Hh Hp Ht Hhrp Hmistaken Hs Hs'.
  assert (Hpath : (t =? 0) && negb forceExtended
                  = negb (negb (t =? 0) || forceExtended))
    by now rewrite negb_orb, negb_involutive.
  unfold encode, encodeTestnet in Hs. rewrite Hpath in Hs.
  assert (Hcodes : forall magicCode,
            In magicCode [txref.MAGIC_BTC_MAIN; txref.MAGIC_BTC_MAIN_EXTENDED;
                          txref.MAGIC_BTC_TEST; txref.MAGIC_BTC_TEST_EXTENDED] ->
            0 <= magicCode <= MAX_MAGIC_CODE).
  { intros magicCode [<- | [<- | [<- | [<- | []]]]]; easy. }
  destruct (negb (t =? 0) || forceExtended) eqn:Hext; cbn [negb] in Hs.
  - destruct Hs as [Hs | Hs].
    + pose proof (extended_roundtrip hrp txref.MAGIC_BTC_MAIN_EXTENDED h p t s s'
                    Hh Hp Ht (Hcodes _ ltac:(cbn; tauto)) Hhrp Hs Hs') as Hd.
      eexists. split; [exact Hd | now repeat split].
    + pose proof (extended_roundtrip hrp txref.MAGIC_BTC_TEST_EXTENDED h p t s s'
                    Hh Hp Ht (Hcodes _ ltac:(cbn; tauto)) Hhrp Hs Hs') as Hd.
      eexists. split; [exact Hd | now repeat split].
  - assert (t = 0) as ->.
    { apply orb_false_iff in Hext as (Hz & _).
      apply negb_false_iff, Z.eqb_eq in Hz. exact Hz. }
    destruct Hs as [Hs | Hs].
    + pose proof (standard_roundtrip hrp txref.MAGIC_BTC_MAIN h p s s' Hh Hp
                    (Hcodes _ ltac:(cbn; tauto)) Hhrp Hmistaken Hs Hs') as Hd.
      eexists. split; [exact Hd | now repeat split].
    + pose proof (standard_roundtrip hrp txref.MAGIC_BTC_TEST h p s s' Hh Hp
                    (Hcodes _ ltac:(cbn; tauto)) Hhrp Hmistaken Hs Hs') as Hd.
      eexists. split; [exact Hd | now repeat split].
Qed.

End EncodeDecode.

(** ** C1: decoding what was encoded *)

(** C1, as stated, fails: a standard reference under the HRP "rx" has 18
    characters once stripped and begins with the sigil 'r', so [decode]
    takes it for an extended reference that lost its HRP, puts "tx1" in
    front of it, and the checksum no longer verifies. *)
Lemma sigil_hrp_is_not_decoded :
  @encode libbech32.codec 0 0 0 false (str "rx")
  = Ok (str "rx1:rqqq-qqqq-qyk4-3ft") /\
  addHrpIfNeeded (libbech32.stripUnknownChars (str "rx1:rqqq-qqqq-qyk4-3ft"))
  = str "tx1rx1rqqqqqqqqyk43ft" /\
  @decode libbech32.codec (str "rx1:rqqq-qqqq-qyk4-3ft")
  = throw "checksum is invalid".
Proof. repeat split; vm_compute; reflexivity. Qed.

(** C1 (amended).  For every block height in 0..16777215, transaction
    position and txo index in 0..32767, and every HRP made of characters
    of the codec that is not, on the standard path, two characters long
    with a sigil first: [encode] and [encodeTestnet] return (the HRP being
    non-empty and of at most 71 characters), and decoding the string they
    return yields the block height, transaction position and txo index
    that were encoded. *)
Theorem decode_encode_round_trip (codec : bech32.Codec) (laws : bech32.Laws codec)
  h p t forceExtended hrp :
  0 <= h <= 16777215 -> 0 <= p <= 32767 -> 0 <= t <= 32767 ->
  forallb bech32.isCodecChar hrp = true ->
  mistaken_for_missing_hrp hrp (negb (t =? 0) || forceExtended) = false ->
  (hrp <> [] -> size hrp <= 71 ->
   returns (encode h p t forceExtended hrp) /\
   returns (encodeTestnet h p t forceExtended hrp)) /\
  (forall s,
     encode h p t forceExtended hrp = Ok s \/
     encodeTestnet h p t forceExtended hrp = Ok s ->
     exists r,
       decode s = Ok r /\
       txref.blockHeight r = h /\ txref.transactionPosition r = p /\
       txref.txoIndex r = t).
Proof.
  intros Hh Hp Ht Hhrp Hmistaken. split.
  - intros Hne Hsize. now apply encoders_return.
  - intros s Hs.
    apply (encoded_roundtrip h p t forceExtended hrp s s); try assumption.
    now left.
Qed.

Lemma decode_encode_round_trip_witness :
  returns (@encode libbech32.codec 466793 2205 0 false (str "tx")) /\
  exists r,
    @decode libbech32.codec (str "tx1:rjk0-uqay-z9l7-m9m") = Ok r /\
    txref.blockHeight r = 466793 /\ txref.transactionPosition r = 2205 /\
    txref.txoIndex r = 0.
Proof.
  pose proof (decode_encode_round_trip libbech32.codec libbech32_laws
                466793 2205 0 false (str "tx")
                ltac:(lia) ltac:(lia) ltac:(lia) eq_refl eq_refl) as (Hret & Hdec).
  split.
  - apply Hret; [discriminate | vm_compute; discriminate].
  - apply Hdec. left. vm_compute. reflexivity.
Defined.

(** ** C8: the pretty printer is undone by stripping *)

(** C8, as stated, fails in its last clause: the pretty printer is undone
    by stripping, but the stripped encoding of valid fields under the HRP
    "x8" is taken for a reference that lost its HRP, and is not decoded. *)
Lemma stripped_encoding_is_not_decoded :
  @encodeTestnet libbech32.codec 16777215 32767 0 false (str "x8")
  = Ok (str "x81:x7ll-llll-lqaa-uk5") /\
  libbech32.stripUnknownChars (str "x81:x7ll-llll-lqaa-uk5")
  = str "x81x7lllllllqaauk5" /\
  @decode libbech32.codec (str "x81x7lllllllqaauk5")
  = throw "checksum is invalid".
Proof. repeat split; vm_compute; reflexivity. Qed.

(** C8 (amended).  For every string over the characters of the codec,
    stripping whatever [prettyPrint] returns for it yields the string
    itself, and [prettyPrint] returns for every prefix length up to 81
    that leaves the colon inside the string.  So decoding the stripped
    encoding of valid fields reproduces them, for every HRP made of
    characters of the codec that is not, on the standard path, two
    characters long with a sigil first. *)
Theorem pretty_print_invertible (codec : bech32.Codec) (laws : bech32.Laws codec) :
  (forall raw hrplen out,
     forallb bech32.isCodecChar raw = true -> is_length (size raw + 1) ->
     prettyPrint raw hrplen = Ok out ->
     bech32.stripUnknownChars out = raw) /\
  (forall raw hrplen,
     0 <= hrplen <= 81 -> hrplen + 1 <= size raw -> is_length (size raw + 1) ->
     returns (prettyPrint raw hrplen)) /\
  (forall h p t forceExtended hrp s,
     0 <= h <= 16777215 -> 0 <= p <= 32767 -> 0 <= t <= 32767 ->
     forallb bech32.isCodecChar hrp = true ->
     mistaken_for_missing_hrp hrp (negb (t =? 0) || forceExtended) = false ->
     encode h p t forceExtended hrp = Ok s \/
     encodeTestnet h p t forceExtended hrp = Ok s ->
     exists r,
       decode (bech32.stripUnknownChars s) = Ok r /\
       txref.blockHeight r = h /\ txref.transactionPosition r = p /\
       txref.txoIndex r = t).
Proof.
  split; [|split].
  - intros raw hrplen out Hraw Hlen Hout.
    now destruct (strip_pretty raw hrplen out Hraw Hlen Hout).
  - intros raw hrplen Hh Hin Hlen.
    destruct (prettyPrint_returns (fun _ => false) raw hrplen)
      as (out & Hout & _); unfold bech32.MAX_HRP_LENGTH;
      try reflexivity; try assumption; try lia.
    now exists out.
  - intros h p t forceExtended hrp s Hh Hp Ht Hhrp Hmistaken Hs.
    apply (encoded_roundtrip h p t forceExtended hrp s); try assumption.
    now right.
Qed.

Lemma pretty_print_invertible_witness :
  @bech32.stripUnknownChars libbech32.codec (str "tx1:yqqq-qqqq-qqqq-rvum-0c")
  = str "tx1yqqqqqqqqqqqrvum0c" /\
  returns (prettyPrint (str "tx1yqqqqqqqqqqqrvum0c") 2) /\
  exists r,
    @decode libbech32.codec
      (@bech32.stripUnknownChars libbech32.codec (str "tx1:yqqq-qqqq-qqqq-rvum-0c"))
    = Ok r /\
    txref.blockHeight r = 0 /\ txref.transactionPosition r = 0 /\
    txref.txoIndex r = 0.
Proof.
  destruct (pretty_print_invertible libbech32.codec libbech32_laws)
    as (Hstrip & Hreturns & Hdecode).
  assert (Hlength : is_length (size (str "tx1yqqqqqqqqqqqrvum0c") + 1))
    by (vm_compute; split; [discriminate | reflexivity]).
  split; [|split].
  - refine (Hstrip (str "tx1yqqqqqqqqqqqrvum0c") 2 (str "tx1:yqqq-qqqq-qqqq-rvum-0c")
              eq_refl Hlength _).
    vm_compute. reflexivity.
  - refine (Hreturns (str "tx1yqqqqqqqqqqqrvum0c") 2 _ _ Hlength);
      [lia | vm_compute; discriminate].
  - refine (Hdecode 0 0 0 true (str "tx") (str "tx1:yqqq-qqqq-qqqq-rvum-0c")
              _ _ _ eq_refl eq_refl _); try lia.
    left. vm_compute. reflexivity.
Defined.

(** ** C9: the version bit *)

(** C9, as stated, fails: the size of the payload is checked before the
    version bit is read.  A payload of eight symbols with the version bit
    set is rejected for its size, not for its version. *)
Lemma short_payload_is_size_error :
  @bech32.decode libbech32.codec
    (addHrpIfNeeded
       (@bech32.stripUnknownChars libbech32.codec (str "tx1rpqqqqqqmcrha7")))
  = bech32.Return {| bech32.encoding := bech32.Bech32m;
                     bech32.hrp := str "tx";
                     bech32.dp := [3; 1; 0; 0; 0; 0; 0; 0] |} /\
  Z.land (nth 1 [3; 1; 0; 0; 0; 0; 0; 0] 0) 1 = 1 /\
  @decode libbech32.codec (str "tx1rpqqqqqqmcrha7")
  = throw "decoded dp size is incorrect".
Proof. repeat split; vm_compute; reflexivity. Qed.

(** C9 (amended).  When the payload that the codec returns has a valid
    size (9 or 12 symbols) and the lowest bit of its second symbol set,
    no field is extracted and [decode] fails with UnsupportedVersion;
    with the bit clear every field is extracted; [decode] returns fields
    for version 0 only.  A payload of any other size fails before the
    version bit is read, with ChecksumError or InvalidPayloadSize and
    never with UnsupportedVersion, whatever its version bit. *)
Theorem version_bit_checked (codec : bech32.Codec) (laws : bech32.Laws codec) s b :
  bech32.decode (addHrpIfNeeded (bech32.stripUnknownChars s)) = bech32.Return b ->
  let version := Z.land (nth 1 (bech32.dp b) 0) 1 in
  (isDataSizeValid (size (bech32.dp b)) = true ->
   (version <> 0 ->
    extractBlockHeight (bech32.dp b) = throw "Unknown txref version detected: 1" /\
    extractTransactionPosition (bech32.dp b)
    = throw "Unknown txref version detected: 1" /\
    (size (bech32.dp b) = 12 ->
     extractTxoIndex (bech32.dp b) = throw "Unknown txref version detected: 1") /\
    decode s = throw "Unknown txref version detected: 1") /\
   (version = 0 ->
    returns (extractBlockHeight (bech32.dp b)) /\
    returns (extractTransactionPosition (bech32.dp b)) /\
    returns (extractTxoIndex (bech32.dp b)))) /\
  (forall r, decode s = Ok r -> version = 0) /\
  (isDataSizeValid (size (bech32.dp b)) = false ->
   exists e,
     decode s = Throw e /\
     (ChecksumError e \/ InvalidPayloadSize e) /\ ~ UnsupportedVersion e).
Proof.
  intros Hb version.
  assert (Hinvalid : isDataSizeValid (size (bech32.dp b)) = false ->
                     decode s = throw "checksum is invalid" \/
                     decode s = throw "decoded dp size is incorrect").
  { intros Hsize.
    destruct ((size (bech32.hrp b) =? 0) && (size (bech32.dp b) =? 0)) eqn:He.
    - left. apply (decode_checksum s b Hb). now apply both_empty.
    - right. apply (decode_size s b Hb); [|exact Hsize].
      intros Hempty. apply both_empty in Hempty. congruence. }
  assert (Hthrow : isDataSizeValid (size (bech32.dp b)) = true ->
                   version <> 0 ->
                   decode s = throw "Unknown txref version detected: 1").
  { intros Hvalid Hversion.
    pose proof (proj1 (data_size_valid _) Hvalid) as Hsize.
    assert (Hne : bech32.dp b <> [])
      by (intros Hnil; rewrite Hnil in Hsize; change (size (@nil Z)) with 0 in Hsize;
          lia).
    assert (Hnonempty : ~ (bech32.hrp b = [] /\ bech32.dp b = [])) by tauto.
    destruct (extract_rejects_version (bech32.dp b)) as (Hheight & _);
      [lia | exact Hversion |].
    destruct (bech32.decode_shape _ b Hb Hne) as (Hlen & Hmax).
    fold (size (addHrpIfNeeded (bech32.stripUnknownChars s))) in Hlen, Hmax.
    fold (size (bech32.hrp b)) in Hlen. fold (size (bech32.dp b)) in Hlen.
    pose proof (size_nonneg (bech32.hrp b)).
    destruct (prettyPrint_returns (fun _ => false)
                (addHrpIfNeeded (bech32.stripUnknownChars s)) (size (bech32.hrp b)))
      as (pretty & Hpretty & _);
      unfold bech32.MAX_HRP_LENGTH, is_length; try reflexivity; try lia.
    rewrite (decode_extract s b Hb Hnonempty Hvalid). cbv zeta.
    rewrite extractMagicCode_returns by lia. cbn [bind].
    now rewrite Hpretty, Hheight. }
  split; [|split].
  - intros Hvalid.
    pose proof (proj1 (data_size_valid _) Hvalid) as Hsize.
    split.
    + intros Hversion.
      destruct (extract_rejects_version (bech32.dp b))
        as (Hheight & Hposition & Hindex); [lia | exact Hversion |].
      repeat split; try assumption.
      * intros H12. apply Hindex. lia.
      * now apply Hthrow.
    + intros Hversion.
      now destruct (extract_accepts_version (bech32.dp b) Hvalid Hversion)
        as (_ & Hheight & Hposition & Hindex).
  - intros r Hr.
    destruct (isDataSizeValid (size (bech32.dp b))) eqn:Hvalid.
    + destruct (Z.eq_dec version 0) as [Hzero | Hversion]; [exact Hzero|].
      rewrite (Hthrow eq_refl Hversion) in Hr. discriminate Hr.
    + destruct (Hinvalid eq_refl) as [Hd | Hd]; rewrite Hd in Hr; discriminate Hr.
  - intros Hsize.
    unfold ChecksumError, InvalidPayloadSize, UnsupportedVersion.
    destruct (Hinvalid Hsize) as [Hd | Hd]; rewrite Hd; unfold throw;
      eexists; (split; [reflexivity|]); (split; [tauto|]); discriminate.
Qed.

Lemma version_bit_checked_witness :
  @decode libbech32.codec (str "tx1:rpqq-qqqq-qn5v-a6f")
  = throw "Unknown txref version detected: 1" /\
  returns (extractBlockHeight [3; 18; 22; 15; 28; 0; 29; 4; 2]).
Proof.
  split.
  - pose proof (version_bit_checked libbech32.codec libbech32_laws
                  (str "tx1:rpqq-qqqq-qn5v-a6f")
                  {| bech32.encoding := bech32.Bech32m; bech32.hrp := str "tx";
                     bech32.dp := [3; 1; 0; 0; 0; 0; 0; 0; 0] |}) as H.
    cbv zeta in H.
    assert (Hanswer : @bech32.decode libbech32.codec
                        (addHrpIfNeeded
                           (@bech32.stripUnknownChars libbech32.codec
                              (str "tx1:rpqq-qqqq-qn5v-a6f")))
                      = bech32.Return
                          {| bech32.encoding := bech32.Bech32m;
                             bech32.hrp := str "tx";
                             bech32.dp := [3; 1; 0; 0; 0; 0; 0; 0; 0] |})
      by (vm_compute; reflexivity).
    destruct (H Hanswer) as (Hvalid & _ & _).
    destruct (Hvalid eq_refl) as (Hset & _).
    apply Hset. vm_compute. discriminate.
  - pose proof (version_bit_checked libbech32.codec libbech32_laws
                  (str "tx1:rjk0-uqay-z9l7-m9m")
                  {| bech32.encoding := bech32.Bech32m; bech32.hrp := str "tx";
                     bech32.dp := [3; 18; 22; 15; 28; 0; 29; 4; 2] |}) as H.
    cbv zeta in H.
    assert (Hanswer : @bech32.decode libbech32.codec
                        (addHrpIfNeeded
                           (@bech32.stripUnknownChars libbech32.codec
                              (str "tx1:rjk0-uqay-z9l7-m9m")))
                      = bech32.Return
                          {| bech32.encoding := bech32.Bech32m;
                             bech32.hrp := str "tx";
                             bech32.dp := [3; 18; 22; 15; 28; 0; 29; 4; 2] |})
      by (vm_compute; reflexivity).
    destruct (H Hanswer) as (Hvalid & _ & _).
    destruct (Hvalid eq_refl) as (_ & Hclear).
    apply Hclear. reflexivity.
Defined.

(** ** Runs on the reference codec *)

Lemma range_checks_witness :
  checkBlockHeightRange 16777215 = Ok tt /\
  checkBlockHeightRange 16777216 = throw "block height is too large" /\
  checkTransactionPositionRange 32768 = throw "transaction position is too large" /\
  checkTxoIndexRange (-1) = throw "txo index is too large" /\
  checkMagicCodeRange 32 = throw "magic code is too large" /\
  (exists e, RangeError e /\
             @txrefEncode libbech32.codec (str "tx") 3 16777216 0 = Throw e) /\
  (exists e, RangeError e /\
             @txrefExtEncode libbech32.codec (str "tx") 4 0 0 32768 = Throw e) /\
  (exists e, RangeError e /\
             @encode libbech32.codec 0 32768 0 false (str "tx") = Throw e) /\
  returns (@encode libbech32.codec 16777215 32767 32767 false (str "tx")) /\
  returns (@txrefEncode libbech32.codec (str "tx") 31 16777215 32767).
Proof.
  destruct (range_checks libbech32.codec)
    as (Hheight & Hposition & Hindex & Hmagic & Hstandard & Hextended
        & Hpublic & Hreturns).
  split; [apply (proj2 (Hheight 16777215)); lia|].
  split; [apply (proj1 (Hheight 16777216)); right; lia|].
  split; [apply (proj1 (Hposition 32768)); right; lia|].
  split; [apply (proj1 (Hindex (-1))); left; lia|].
  split; [apply (proj1 (Hmagic 32)); right; lia|].
  split; [apply (proj2 (Hstandard (str "tx") 3 16777216 0)); lia|].
  split; [apply (proj2 (Hextended (str "tx") 4 0 0 32768)); lia|].
  split; [apply (proj2 (proj1 (Hpublic (str "tx") false 0 32768 0))); lia|].
  assert (Hall := Hreturns libbech32_laws (str "tx") false 31 16777215 32767 32767).
  destruct Hall as (Hmain & _ & Hcode);
    [discriminate | reflexivity | vm_compute; discriminate
    | lia | lia | lia | lia |].
  now split.
Defined.

Lemma path_selection_witness :
  exists raw,
    @bech32.encode libbech32.codec (str "tx")
      (txrefExtEncode_dp txref.MAGIC_BTC_MAIN_EXTENDED
         (to_uint32 0) (to_uint32 0) (to_uint32 1))
    = bech32.Return raw /\
    prettyPrint raw (size (str "tx")) = Ok (str "tx1:yqqq-qqqq-qpqq-pw4v-kq").
Proof.
  pose proof (path_selection libbech32.codec 0 0 1 false (str "tx")) as H.
  cbv zeta in H. destruct H as (_ & _ & _ & Hmain & _).
  apply (Hmain (str "tx1:yqqq-qqqq-qpqq-pw4v-kq")).
  vm_compute. reflexivity.
Defined.

Lemma magic_code_exclusivity_witness :
  @txrefExtEncode libbech32.codec (str "tx") txref.MAGIC_BTC_MAIN 0 0 0
  = throw "magic code does not support extended txrefs" /\
  (exists e,
     RangeError e /\
     @txrefExtEncode libbech32.codec (str "tx") txref.MAGIC_BTC_MAIN 0 0 32768
     = Throw e) /\
  @txrefEncode libbech32.codec (str "tx") txref.MAGIC_BTC_MAIN_EXTENDED 0 0 =
  (result <- call (@bech32.encode libbech32.codec (str "tx")
                     (txrefEncode_dp txref.MAGIC_BTC_MAIN_EXTENDED 0 0)) ;;
   prettyPrint result (size (str "tx"))).
Proof.
  destruct (magic_code_exclusivity libbech32.codec) as (Hextended & Hstandard).
  split; [|split].
  - destruct (Hextended (str "tx") txref.MAGIC_BTC_MAIN 0 0 0)
      as (e & Hthrow & _ & Hin & _); [discriminate | discriminate |].
    rewrite Hthrow. unfold throw. f_equal. apply Hin.
    unfold txref.MAGIC_BTC_MAIN. lia.
  - destruct (Hextended (str "tx") txref.MAGIC_BTC_MAIN 0 0 32768)
      as (e & Hthrow & _ & _ & _ & Hout); [discriminate | discriminate |].
    exists e. split; [|exact Hthrow].
    apply Hout. lia.
  - apply Hstandard; [lia | lia | split; discriminate].
Defined.

(** * Further properties of the code *)

(** ** The payload as a bijection *)

Lemma symbol_bounds v : bech32.isSymbol v = true <-> 0 <= v < 32.
Proof. unfold bech32.isSymbol. lia. Qed.

(** Three 5-bit symbols put together are a 15-bit field that holds each
    of them. *)
Lemma pack15 d0 d1 d2 :
  0 <= d0 < 32 -> 0 <= d1 < 32 -> 0 <= d2 < 32 ->
  let x := Z.lor (Z.lor d0 (Z.shiftl d1 5)) (Z.shiftl d2 10) in
  0 <= x < 2 ^ 15 /\
  x mod 32 = d0 /\ (x / 32) mod 32 = d1 /\ (x / 1024) mod 32 = d2.
Proof.
  intros H0 H1 H2 x. subst x.
  rewrite (lor_shiftl d0) by (change (2 ^ 5) with 32; lia).
  rewrite lor_shiftl by (change (2 ^ 5) with 32; change (2 ^ 10) with 1024; lia).
  change (2 ^ 5) with 32. change (2 ^ 10) with 1024. change (2 ^ 15) with 32768.
  repeat split; try (Z.div_mod_to_equations; lia).
Qed.

(** The upper four bits of an even symbol and four more symbols put
    together are a 24-bit field that holds each of them. *)
Lemma pack24 d1 d2 d3 d4 d5 :
  0 <= d1 < 32 -> Z.land d1 1 = 0 ->
  0 <= d2 < 32 -> 0 <= d3 < 32 -> 0 <= d4 < 32 -> 0 <= d5 < 32 ->
  let x := Z.lor (Z.lor (Z.lor (Z.lor (Z.shiftr d1 1) (Z.shiftl d2 4))
                               (Z.shiftl d3 9))
                        (Z.shiftl d4 14))
                 (Z.shiftl d5 19) in
  0 <= x < 2 ^ 24 /\
  2 * (x mod 16) = d1 /\ (x / 16) mod 32 = d2 /\ (x / 512) mod 32 = d3 /\
  (x / 16384) mod 32 = d4 /\ (x / 524288) mod 32 = d5.
Proof.
  intros H1 Hv H2 H3 H4 H5 x. subst x.
  rewrite (land_low d1 1 1) in Hv by (reflexivity || lia).
  change (2 ^ 1) with 2 in Hv.
  rewrite Z.shiftr_div_pow2 by lia. change (2 ^ 1) with 2.
  rewrite (lor_shiftl (d1 / 2))
    by (change (2 ^ 4) with 16; Z.div_mod_to_equations; lia).
  change (2 ^ 4) with 16.
  rewrite (lor_shiftl (d1 / 2 + d2 * 16))
    by (change (2 ^ 9) with 512; Z.div_mod_to_equations; lia).
  change (2 ^ 9) with 512.
  rewrite (lor_shiftl (d1 / 2 + d2 * 16 + d3 * 512))
    by (change (2 ^ 14) with 16384; Z.div_mod_to_equations; lia).
  change (2 ^ 14) with 16384.
  rewrite lor_shiftl
    by (change (2 ^ 19) with 524288; Z.div_mod_to_equations; lia).
  change (2 ^ 19) with 524288. change (2 ^ 24) with 16777216.
  repeat split; try (Z.div_mod_to_equations; lia).
Qed.

Lemma list_of_size_9 {A : Type} (l : list A) :
  size l = 9 ->
  exists d0 d1 d2 d3 d4 d5 d6 d7 d8, l = [d0; d1; d2; d3; d4; d5; d6; d7; d8].
Proof.
  unfold size. intros H.
  do 9 (destruct l as [|? l]; [cbn in H; lia|]).
  destruct l; [|cbn in H; lia]. repeat eexists.
Qed.

Lemma list_of_size_12 {A : Type} (l : list A) :
  size l = 12 ->
  exists d0 d1 d2 d3 d4 d5 d6 d7 d8 d9 d10 d11,
    l = [d0; d1; d2; d3; d4; d5; d6; d7; d8; d9; d10; d11].
Proof.
  unfold size. intros H.
  do 12 (destruct l as [|? l]; [cbn in H; lia|]).
  destruct l; [|cbn in H; lia]. repeat eexists.
Qed.

Ltac clear_size :=
  repeat match goal with H : size _ = _ |- _ => clear H end.

Ltac symbol_hyps H :=
  cbn [forallb] in H;
  repeat match type of H with
         | _ && _ = true => let H' := fresh "Hd" in
                            apply andb_true_iff in H; destruct H as [H' H];
                            apply symbol_bounds in H'
         end.

(** What the extractors return on a payload of nine symbols whose
    version bit is 0. *)
Lemma extract_nine d0 d1 d2 d3 d4 d5 d6 d7 d8 :
  Z.land d1 1 = 0 ->
  let dp := [d0; d1; d2; d3; d4; d5; d6; d7; d8] in
  extractMagicCode dp = Ok d0 /\
  extractBlockHeight dp
  = Ok (Z.lor (Z.lor (Z.lor (Z.lor (Z.shiftr d1 1) (Z.shiftl d2 4))
                            (Z.shiftl d3 9))
                     (Z.shiftl d4 14))
              (Z.shiftl d5 19)) /\
  extractTransactionPosition dp
  = Ok (Z.lor (Z.lor d6 (Z.shiftl d7 5)) (Z.shiftl d8 10)) /\
  extractTxoIndex dp = Ok 0.
Proof.
  intros Hv dp. subst dp.
  unfold extractMagicCode, extractBlockHeight, extractTransactionPosition,
    extractTxoIndex, extractVersion.
  change (size [d0; d1; d2; d3; d4; d5; d6; d7; d8]) with 9.
  cbn [assert bind at_index nth_error Z.eqb negb Z.gtb Z.ltb Z.compare Pos.compare
       Pos.compare_cont].
  rewrite version_land, Hv. cbn [Z.eqb bind]. cbv zeta.
  repeat split.
Qed.

Lemma extract_twelve d0 d1 d2 d3 d4 d5 d6 d7 d8 d9 d10 d11 :
  Z.land d1 1 = 0 ->
  let dp := [d0; d1; d2; d3; d4; d5; d6; d7; d8; d9; d10; d11] in
  extractMagicCode dp = Ok d0 /\
  extractBlockHeight dp
  = Ok (Z.lor (Z.lor (Z.lor (Z.lor (Z.shiftr d1 1) (Z.shiftl d2 4))
                            (Z.shiftl d3 9))
                     (Z.shiftl d4 14))
              (Z.shiftl d5 19)) /\
  extractTransactionPosition dp
  = Ok (Z.lor (Z.lor d6 (Z.shiftl d7 5)) (Z.shiftl d8 10)) /\
  extractTxoIndex dp
  = Ok (Z.lor (Z.lor d9 (Z.shiftl d10 5)) (Z.shiftl d11 10)).
Proof.
  intros Hv dp. subst dp.
  unfold extractMagicCode, extractBlockHeight, extractTransactionPosition,
    extractTxoIndex, extractVersion.
  change (size [d0; d1; d2; d3; d4; d5; d6; d7; d8; d9; d10; d11]) with 12.
  cbn [assert bind at_index nth_error Z.eqb negb Z.gtb Z.ltb Z.compare Pos.compare
       Pos.compare_cont].
  rewrite version_land, Hv. cbn [Z.eqb bind]. cbv zeta.
  repeat split.
Qed.

(** The fields of a payload of 5-bit symbols with version bit 0: they
    are within the ranges of the encoders, and packing them gives the
    payload back. *)
Lemma unpacked_fields (dp : list Z) :
  forallb bech32.isSymbol dp = true ->
  isDataSizeValid (size dp) = true ->
  Z.land (nth 1 dp 0) 1 = 0 ->
  exists m h p t,
    extractMagicCode dp = Ok m /\ extractBlockHeight dp = Ok h /\
    extractTransactionPosition dp = Ok p /\ extractTxoIndex dp = Ok t /\
    m = nth 0 dp 0 /\
    0 <= m <= MAX_MAGIC_CODE /\ 0 <= h <= MAX_BLOCK_HEIGHT /\
    0 <= p <= MAX_TRANSACTION_POSITION /\ 0 <= t <= MAX_TXO_INDEX /\
    (size dp = 9 -> t = 0 /\ txrefEncode_dp m h p = dp) /\
    (size dp = 12 -> txrefExtEncode_dp m h p t = dp).
Proof.
  intros Hsym Hsize Hv. apply data_size_valid in Hsize.
  unfold MAX_MAGIC_CODE, MAX_BLOCK_HEIGHT, MAX_TRANSACTION_POSITION, MAX_TXO_INDEX.
  destruct Hsize as [H9 | H12].
  - destruct (list_of_size_9 dp H9)
      as (d0 & d1 & d2 & d3 & d4 & d5 & d6 & d7 & d8 & ->).
    cbn [nth] in Hv. symbol_hyps Hsym.
    destruct (extract_nine d0 d1 d2 d3 d4 d5 d6 d7 d8 Hv) as (Em & Eh & Ep & Et).
    destruct (pack24 d1 d2 d3 d4 d5) as (Hh & Hh1 & Hh2 & Hh3 & Hh4 & Hh5);
      try assumption.
    destruct (pack15 d6 d7 d8) as (Hp & Hp6 & Hp7 & Hp8); try assumption.
    cbv zeta in *.
    do 4 eexists.
    split; [exact Em|]. split; [exact Eh|]. split; [exact Ep|].
    split; [exact Et|].
    change (2 ^ 24) with 16777216 in Hh. change (2 ^ 15) with 32768 in Hp.
    cbn [nth]. clear_size.
    do 5 (split; [lia|]).
    split.
    + intros _. split; [reflexivity|].
      rewrite txrefEncode_dp_symbols by lia.
      now rewrite Hh1, Hh2, Hh3, Hh4, Hh5, Hp6, Hp7, Hp8.
    + intros H. discriminate H.
  - destruct (list_of_size_12 dp H12)
      as (d0 & d1 & d2 & d3 & d4 & d5 & d6 & d7 & d8 & d9 & d10 & d11 & ->).
    cbn [nth] in Hv. symbol_hyps Hsym.
    destruct (extract_twelve d0 d1 d2 d3 d4 d5 d6 d7 d8 d9 d10 d11 Hv)
      as (Em & Eh & Ep & Et).
    destruct (pack24 d1 d2 d3 d4 d5) as (Hh & Hh1 & Hh2 & Hh3 & Hh4 & Hh5);
      try assumption.
    destruct (pack15 d6 d7 d8) as (Hp & Hp6 & Hp7 & Hp8); try assumption.
    destruct (pack15 d9 d10 d11) as (Ht & Ht9 & Ht10 & Ht11); try assumption.
    cbv zeta in *.
    do 4 eexists.
    split; [exact Em|]. split; [exact Eh|]. split; [exact Ep|].
    split; [exact Et|].
    change (2 ^ 24) with 16777216 in Hh. change (2 ^ 15) with 32768 in Hp, Ht.
    cbn [nth]. clear_size.
    do 5 (split; [lia|]).
    split.
    + intros H. discriminate H.
    + intros _.
      rewrite txrefExtEncode_dp_symbols by lia.
      now rewrite Hh1, Hh2, Hh3, Hh4, Hh5, Hp6, Hp7, Hp8, Ht9, Ht10, Ht11.
Qed.

(** ** What a returned [decode] went through *)

Section DecodeReturns.

Context {codec : bech32.Codec}.

Lemma bind_Ok {A B : Type} (m : outcome A) (k : A -> outcome B) (b : B) :
  bind m k = Ok b -> exists a, m = Ok a /\ k a = Ok b.
Proof. destruct m; cbn; try discriminate. intros H. now exists a. Qed.

Lemma decode_inv s r :
  decode s = Ok r ->
  exists b,
    bech32.decode (addHrpIfNeeded (bech32.stripUnknownChars s)) = bech32.Return b /\
    ~ (bech32.hrp b = [] /\ bech32.dp b = []) /\
    isDataSizeValid (size (bech32.dp b)) = true /\
    extractMagicCode (bech32.dp b) = Ok (txref.magicCode r) /\
    prettyPrint (addHrpIfNeeded (bech32.stripUnknownChars s)) (size (bech32.hrp b))
    = Ok (txref.txref_ r) /\
    extractBlockHeight (bech32.dp b) = Ok (txref.blockHeight r) /\
    extractTransactionPosition (bech32.dp b) = Ok (txref.transactionPosition r) /\
    extractTxoIndex (bech32.dp b) = Ok (txref.txoIndex r) /\
    txref.hrp r = bech32.hrp b /\
    match bech32.encoding b with
    | bech32.Bech32m => txref.encoding r = txref.Bech32m /\ txref.commentary r = []
    | bech32.Bech32 =>
        txref.encoding r = txref.Bech32 /\
        exists updated,
          (if (txref.magicCode r =? txref.MAGIC_BTC_MAIN_EXTENDED) ||
              (txref.magicCode r =? txref.MAGIC_BTC_TEST_EXTENDED)
           then txrefExtEncode (txref.hrp r) (txref.magicCode r)
                  (txref.blockHeight r) (txref.transactionPosition r)
                  (txref.txoIndex r)
           else txrefEncode (txref.hrp r) (txref.magicCode r)
                  (txref.blockHeight r) (txref.transactionPosition r))
          = Ok updated /\
          txref.commentary r = commentary_text (txref.txref_ r) updated
    | bech32.Invalid => txref.encoding r = txref.Invalid /\ txref.commentary r = []
    end.
Proof.
  intros H.
  destruct (bech32.decode (addHrpIfNeeded (bech32.stripUnknownChars s)))
    as [b | what] eqn:Hb.
  2:{ unfold decode in H. rewrite Hb in H. discriminate H. }
  exists b. split; [reflexivity|].
  destruct ((size (bech32.hrp b) =? 0) && (size (bech32.dp b) =? 0)) eqn:Hempty.
  { apply both_empty in Hempty. rewrite (decode_checksum s b Hb Hempty) in H.
    discriminate H. }
  assert (Hne : ~ (bech32.hrp b = [] /\ bech32.dp b = [])).
  { intros Hc. apply both_empty in Hc. congruence. }
  split; [exact Hne|].
  destruct (isDataSizeValid (size (bech32.dp b))) eqn:Hsize.
  2:{ rewrite (decode_size s b Hb Hne Hsize) in H. discriminate H. }
  split; [reflexivity|].
  rewrite (decode_extract s b Hb Hne Hsize) in H. cbv zeta in H.
  apply bind_Ok in H. destruct H as (m & Hm & H).
  apply bind_Ok in H. destruct H as (pretty & Hpretty & H).
  apply bind_Ok in H. destruct H as (h & Hh & H).
  apply bind_Ok in H. destruct H as (p & Hp & H).
  apply bind_Ok in H. destruct H as (t & Ht & H).
  destruct (bech32.encoding b).
  - injection H as <-. cbn. now repeat split.
  - apply bind_Ok in H. destruct H as (updated & Hu & H).
    injection H as <-. cbn. repeat split; try assumption.
    exists updated. split; [exact Hu | reflexivity].
  - injection H as <-. cbn. now repeat split.
Qed.

End DecodeReturns.

(** X1.  Unpacking is inverted by packing.  On a payload of nine or of
    twelve 5-bit symbols whose version bit is 0 every extractor returns,
    and the payload that [txrefEncode] (nine symbols) or [txrefExtEncode]
    (twelve symbols) builds from the extracted magic code and fields is
    that payload again: no two payloads unpack to the same fields. *)
Theorem payload_repacks (dp : list Z) :
  forallb bech32.isSymbol dp = true ->
  Z.land (nth 1 dp 0) 1 = 0 ->
  (size dp = 9 ->
   exists m h p,
     extractMagicCode dp = Ok m /\ extractBlockHeight dp = Ok h /\
     extractTransactionPosition dp = Ok p /\
     txrefEncode_dp m (to_uint32 h) (to_uint32 p) = dp) /\
  (size dp = 12 ->
   exists m h p t,
     extractMagicCode dp = Ok m /\ extractBlockHeight dp = Ok h /\
     extractTransactionPosition dp = Ok p /\ extractTxoIndex dp = Ok t /\
     txrefExtEncode_dp m (to_uint32 h) (to_uint32 p) (to_uint32 t) = dp).
Proof.
  intros Hsym Hv.
  unfold MAX_MAGIC_CODE, MAX_BLOCK_HEIGHT, MAX_TRANSACTION_POSITION, MAX_TXO_INDEX.
  split; intros Hsize.
  - destruct (unpacked_fields dp Hsym) as
      (m & h & p & t & Em & Eh & Ep & Et & _ & Hm & Hh & Hp & Ht & H9 & _);
      [apply data_size_valid; now left | exact Hv |].
    exists m, h, p. repeat (split; [assumption|]).
    unfold MAX_BLOCK_HEIGHT, MAX_TRANSACTION_POSITION in *.
    rewrite !to_uint32_small by lia. now apply H9.
  - destruct (unpacked_fields dp Hsym) as
      (m & h & p & t & Em & Eh & Ep & Et & _ & Hm & Hh & Hp & Ht & _ & H12);
      [apply data_size_valid; now right | exact Hv |].
    exists m, h, p, t. repeat (split; [assumption|]).
    unfold MAX_BLOCK_HEIGHT, MAX_TRANSACTION_POSITION, MAX_TXO_INDEX in *.
    rewrite !to_uint32_small by lia. now apply H12.
Qed.

Lemma payload_repacks_witness :
  (exists m h p,
     extractMagicCode [3; 18; 22; 15; 28; 0; 29; 4; 2] = Ok m /\
     extractBlockHeight [3; 18; 22; 15; 28; 0; 29; 4; 2] = Ok h /\
     extractTransactionPosition [3; 18; 22; 15; 28; 0; 29; 4; 2] = Ok p /\
     txrefEncode_dp m (to_uint32 h) (to_uint32 p)
     = [3; 18; 22; 15; 28; 0; 29; 4; 2]) /\
  (exists m h p t,
     extractMagicCode [4; 0; 0; 0; 0; 0; 0; 0; 0; 1; 0; 0] = Ok m /\
     extractBlockHeight [4; 0; 0; 0; 0; 0; 0; 0; 0; 1; 0; 0] = Ok h /\
     extractTransactionPosition [4; 0; 0; 0; 0; 0; 0; 0; 0; 1; 0; 0] = Ok p /\
     extractTxoIndex [4; 0; 0; 0; 0; 0; 0; 0; 0; 1; 0; 0] = Ok t /\
     txrefExtEncode_dp m (to_uint32 h) (to_uint32 p) (to_uint32 t)
     = [4; 0; 0; 0; 0; 0; 0; 0; 0; 1; 0; 0]).
Proof.
  split.
  - apply (proj1 (payload_repacks [3; 18; 22; 15; 28; 0; 29; 4; 2]
                    eq_refl eq_refl)).
    reflexivity.
  - apply (proj2 (payload_repacks [4; 0; 0; 0; 0; 0; 0; 0; 0; 1; 0; 0]
                    eq_refl eq_refl)).
    reflexivity.
Defined.

(** X2.  Whatever [decode] returns can be encoded again: when the codec
    answers with a payload of 5-bit symbols, the block height, the
    transaction position, the txo index and the magic code of the result
    are within the ranges that the four range checks accept, the magic
    code is the first symbol of the payload, and a payload of nine
    symbols gives txo index 0. *)
Theorem decoded_fields_in_range (codec : bech32.Codec) s b r :
  bech32.decode (addHrpIfNeeded (bech32.stripUnknownChars s)) = bech32.Return b ->
  forallb bech32.isSymbol (bech32.dp b) = true ->
  decode s = Ok r ->
  checkBlockHeightRange (txref.blockHeight r) = Ok tt /\
  checkTransactionPositionRange (txref.transactionPosition r) = Ok tt /\
  checkTxoIndexRange (txref.txoIndex r) = Ok tt /\
  checkMagicCodeRange (txref.magicCode r) = Ok tt /\
  0 <= txref.blockHeight r <= 16777215 /\
  0 <= txref.transactionPosition r <= 32767 /\
  0 <= txref.txoIndex r <= 32767 /\
  0 <= txref.magicCode r <= 31 /\
  txref.magicCode r = nth 0 (bech32.dp b) 0 /\
  (size (bech32.dp b) = 9 -> txref.txoIndex r = 0).
Proof.
  intros Hb Hsym Hr.
  destruct (decode_inv s r Hr)
    as (b' & Hb' & _ & Hsize & Em & _ & Eh & Ep & Et & _).
  rewrite Hb in Hb'. injection Hb' as <-.
  assert (Hv : Z.land (nth 1 (bech32.dp b) 0) 1 = 0).
  { destruct (Z.eq_dec (Z.land (nth 1 (bech32.dp b) 0) 1) 0) as [Hz | Hnz];
      [exact Hz|].
    apply data_size_valid in Hsize.
    destruct (extract_rejects_version (bech32.dp b)) as (Hthrow & _);
      [lia | exact Hnz |].
    rewrite Hthrow in Eh. discriminate Eh. }
  destruct (unpacked_fields (bech32.dp b) Hsym Hsize Hv) as
    (m & h & p & t & Em' & Eh' & Ep' & Et' & Hfirst & Hm & Hh & Hp & Ht & H9 & _).
  rewrite Em in Em'. rewrite Eh in Eh'. rewrite Ep in Ep'. rewrite Et in Et'.
  injection Em' as <-. injection Eh' as <-. injection Ep' as <-.
  injection Et' as <-.
  split; [now apply checkBlockHeightRange_spec|].
  split; [now apply checkTransactionPositionRange_spec|].
  split; [now apply checkTxoIndexRange_spec|].
  split; [now apply checkMagicCodeRange_spec|].
  unfold MAX_MAGIC_CODE, MAX_BLOCK_HEIGHT, MAX_TRANSACTION_POSITION,
    MAX_TXO_INDEX in *.
  do 4 (split; [lia|]).
  split; [exact Hfirst|].
  intros Hnine. now apply H9.
Qed.

Lemma decoded_fields_in_range_witness :
  exists r,
    @decode libbech32.codec (str "tx1:rjk0-uqay-z9l7-m9m") = Ok r /\
    0 <= txref.blockHeight r <= 16777215 /\
    0 <= txref.transactionPosition r <= 32767 /\
    txref.magicCode r = 3 /\ txref.txoIndex r = 0.
Proof.
  assert (Hanswer : @bech32.decode libbech32.codec
                      (addHrpIfNeeded
                         (@bech32.stripUnknownChars libbech32.codec
                            (str "tx1:rjk0-uqay-z9l7-m9m")))
                    = bech32.Return
                        {| bech32.encoding := bech32.Bech32m;
                           bech32.hrp := str "tx";
                           bech32.dp := [3; 18; 22; 15; 28; 0; 29; 4; 2] |})
    by (vm_compute; reflexivity).
  assert (Hr : @decode libbech32.codec (str "tx1:rjk0-uqay-z9l7-m9m")
               = Ok {| txref.hrp := str "tx";
                       txref.txref_ := str "tx1:rjk0-uqay-z9l7-m9m";
                       txref.blockHeight := 466793;
                       txref.transactionPosition := 2205;
                       txref.txoIndex := 0;
                       txref.magicCode := 3;
                       txref.encoding := txref.Bech32m;
                       txref.commentary := [] |})
    by (vm_compute; reflexivity).
  destruct (decoded_fields_in_range libbech32.codec _ _ _ Hanswer eq_refl Hr)
    as (_ & _ & _ & _ & Hh & Hp & _ & _ & Hm & Ht).
  eexists. split; [exact Hr|].
  split; [exact Hh|]. split; [exact Hp|]. split; [exact Hm|].
  apply Ht. reflexivity.
Defined.

(** X3.  The payload of the extended form is the payload of the standard
    form followed by the three 5-bit symbols of the txo index, least
    significant first. *)
Theorem extended_payload_extends_standard magicCode bh tp ti :
  txrefExtEncode_dp magicCode bh tp ti =
  txrefEncode_dp magicCode bh tp ++
  [ti mod 32; (ti / 32) mod 32; (ti / 1024) mod 32].
Proof.
  unfold txrefExtEncode_dp, txrefEncode_dp.
  change (Z.to_nat DATA_EXTENDED_SIZE) with 12%nat.
  change (Z.to_nat DATA_SIZE) with 9%nat.
  cbn [repeat modify app]. cbv zeta.
  rewrite !Z.lor_0_l.
  rewrite (land_low ti 0x1F 5) by (reflexivity || lia).
  rewrite (field ti 0x3E0 5 5), (field ti 0x7C00 10 5) by (reflexivity || lia).
  change (2 ^ 5) with 32. change (2 ^ 10) with 1024.
  rewrite (to_uint8_small (ti mod 32)) by (Z.div_mod_to_equations; lia).
  rewrite (to_uint8_small ((ti / 32) mod 32)) by (Z.div_mod_to_equations; lia).
  rewrite (to_uint8_small ((ti / 1024) mod 32)) by (Z.div_mod_to_equations; lia).
  reflexivity.
Qed.

(** ** The layout of a formatted string *)

Lemma grouped_from_snoc separatorOffset l c : forall i,
  grouped_from separatorOffset i (l ++ [c]) =
  grouped_from separatorOffset i l ++
  (if (0 <? i + size l) && ((i + size l) mod separatorOffset =? 0)
   then [txref.hyphen; c] else [c]).
Proof.
  induction l as [|a l IH]; intros i; cbn [app grouped_from].
  - change (size (@nil ascii)) with 0. now rewrite Z.add_0_r, app_nil_r.
  - rewrite IH, size_cons, <- app_assoc.
    now replace (i + 1 + size l) with (i + (size l + 1)) by lia.
Qed.

Lemma size_firstn {A : Type} (l : list A) (n : Z) :
  0 <= n -> size (firstn (Z.to_nat n) l) = Z.min n (size l).
Proof. intros Hn. unfold size. rewrite length_firstn. lia. Qed.

Lemma size_skipn {A : Type} (l : list A) (n : Z) :
  0 <= n -> size (skipn (Z.to_nat n) l) = Z.max 0 (size l - n).
Proof. intros Hn. unfold size. rewrite length_skipn. lia. Qed.

Lemma separated_snoc hrpLength separatorOffset copied c :
  0 <= hrpLength ->
  separated hrpLength separatorOffset (copied ++ [c]) =
  separated hrpLength separatorOffset copied ++
  (if (size copied >? hrpLength) &&
      ((size copied - hrpLength) mod separatorOffset =? 0)
   then [txref.hyphen; c] else [c]).
Proof.
  intros Hh. unfold separated, grouped.
  rewrite firstn_app, skipn_app.
  destruct (Z.le_gt_cases hrpLength (size copied)) as [Hle | Hgt].
  - replace (Z.to_nat hrpLength - List.length copied)%nat with 0%nat
      by (unfold size in Hle; lia).
    cbn [firstn skipn]. rewrite app_nil_r, grouped_from_snoc, app_assoc.
    rewrite size_skipn by assumption. cbn [Z.add].
    replace (Z.max 0 (size copied - hrpLength)) with (size copied - hrpLength)
      by lia.
    destruct (Z.gtb_spec (size copied) hrpLength);
      destruct (Z.ltb_spec 0 (size copied - hrpLength)); try lia; reflexivity.
  - rewrite (firstn_all2 (n := Z.to_nat hrpLength) copied)
      by (unfold size in Hgt; lia).
    rewrite (skipn_all2 (n := Z.to_nat hrpLength) copied)
      by (unfold size in Hgt; lia).
    destruct (Z.to_nat hrpLength - List.length copied)%nat as [|k] eqn:Hk;
      [unfold size in Hgt; lia|].
    cbn [firstn skipn app grouped_from]. rewrite firstn_nil, skipn_nil.
    cbn [grouped_from]. rewrite !app_nil_r.
    destruct (Z.gtb_spec (size copied) hrpLength); [lia | reflexivity].
Qed.

Lemma div_pred x d :
  1 <= d -> 0 < x ->
  (x - 1) / d = x / d - (if x mod d =? 0 then 1 else 0).
Proof.
  intros Hd Hx.
  pose proof (Z.div_mod x d ltac:(lia)) as Hdm.
  pose proof (Z.mod_pos_bound x d ltac:(lia)) as Hm.
  destruct (Z.eqb_spec (x mod d) 0) as [Hz | Hnz].
  - symmetry. apply (Z.div_unique_pos _ _ _ (d - 1)); [lia|].
    rewrite Hz in Hdm. lia.
  - symmetry. apply (Z.div_unique_pos _ _ _ (x mod d - 1)); lia.
Qed.

Lemma size_separated hrpLength separatorOffset copied :
  0 <= hrpLength -> 1 <= separatorOffset ->
  size (separated hrpLength separatorOffset copied) =
  size copied +
  (if size copied >? hrpLength
   then (size copied - hrpLength - 1) / separatorOffset else 0).
Proof.
  intros Hh Hs. induction copied as [|c copied IH] using rev_ind.
  - unfold separated, grouped. rewrite firstn_nil, skipn_nil. cbn.
    change (size (@nil ascii)) with 0.
    destruct (Z.gtb_spec 0 hrpLength); [lia | reflexivity].
  - rewrite separated_snoc by assumption.
    rewrite size_app, IH, size_snoc.
    pose proof (size_nonneg copied).
    destruct (Z.gtb_spec (size copied) hrpLength) as [Hgt | Hle]; cbn [andb].
    + destruct (Z.gtb_spec (size copied + 1) hrpLength); [|lia].
      replace (size copied + 1 - hrpLength - 1) with (size copied - hrpLength)
        by lia.
      rewrite (div_pred (size copied - hrpLength) separatorOffset) by lia.
      destruct (Z.eqb_spec ((size copied - hrpLength) mod separatorOffset) 0).
      * change (size [txref.hyphen; c]) with 2. lia.
      * change (size [c]) with 1. lia.
    + change (size [c]) with 1.
      destruct (Z.gtb_spec (size copied + 1) hrpLength) as [Hgt' | Hle'];
        [|lia].
      replace (size copied + 1 - hrpLength - 1) with 0 by lia.
      rewrite Z.div_0_l by lia. lia.
Qed.

Section Layout.

Variables hrpLength separatorOffset rawLength : Z.
Hypothesis hrpLength_nonneg : 0 <= hrpLength.
Hypothesis separatorOffset_pos : 1 <= separatorOffset.
Hypothesis hrp_shorter : hrpLength < rawLength.

Let outputLength := rawLength + (rawLength - hrpLength - 1) / separatorOffset.

Lemma body_keeps_layout copied st c :
  gs_layout hrpLength separatorOffset outputLength copied st ->
  size copied < rawLength ->
  exists st',
    addGroupSeparators_body hrpLength separatorOffset st c = Ok st' /\
    gs_layout hrpLength separatorOffset outputLength (copied ++ [c]) st'.
Proof.
  intros (Hraw & Hout & n & Hpre & Hlen) Hlt.
  pose proof (size_nonneg copied) as Hc.
  pose proof (cursor_in_range hrpLength separatorOffset rawLength
                hrpLength_nonneg separatorOffset_pos hrp_shorter
                (size copied) (conj Hc Hlt)) as Hcur.
  fold outputLength in Hcur. rewrite <- Hout in Hcur.
  pose proof (cursor_step hrpLength separatorOffset rawLength
                hrpLength_nonneg separatorOffset_pos (size copied) Hc) as Hstep.
  rewrite <- Hout in Hstep.
  pose proof (size_separated hrpLength separatorOffset copied
                hrpLength_nonneg separatorOffset_pos) as Hsize.
  pose proof (separated_snoc hrpLength separatorOffset copied c
                hrpLength_nonneg) as Hsnoc.
  assert (Hpos : outputPos st =
                 size (separated hrpLength separatorOffset copied) +
                 (if (size copied >? hrpLength) &&
                     ((size copied - hrpLength) mod separatorOffset =? 0)
                  then 1 else 0)).
  { rewrite Hout, Hsize. unfold cursor.
    destruct (Z.gtb_spec (size copied) hrpLength); cbn [andb]; [|lia].
    rewrite (div_pred (size copied - hrpLength) separatorOffset) by lia.
    destruct (Z.eqb_spec ((size copied - hrpLength) mod separatorOffset) 0);
      lia. }
  clear Hsize Hout.
  unfold addGroupSeparators_body. rewrite Hpre, Hraw.
  revert Hstep Hsnoc Hpos.
  destruct ((size copied >? hrpLength) &&
            ((size copied - hrpLength) mod separatorOffset =? 0));
    intros Hstep Hsnoc Hpos.
  - destruct n as [|[|n]]; cbn [repeat] in *; try lia.
    replace (separated hrpLength separatorOffset copied
             ++ txref.hyphen :: txref.hyphen :: repeat txref.hyphen n)
      with ((separated hrpLength separatorOffset copied ++ [txref.hyphen])
            ++ txref.hyphen :: repeat txref.hyphen n)
      by (now rewrite <- app_assoc).
    replace (outputPos st)
      with (size (separated hrpLength separatorOffset copied ++ [txref.hyphen]))
      in * by (rewrite size_snoc; lia).
    rewrite store_app. cbn [bind].
    revert Hstep.
    match goal with
    | |- context [if ?b then _ else _] => destruct b
    end; intros Hstep; (eexists; split; [reflexivity|]);
      unfold gs_layout; cbn [rawPos outputPos output]; rewrite size_snoc;
      (split; [reflexivity|]); (split; [lia|]);
      exists n; rewrite Hsnoc, <- !app_assoc; cbn [app];
      (split; [reflexivity|]);
      rewrite ?size_app, ?size_cons in *;
      change (size (@nil ascii)) with 0 in *; lia.
  - destruct n as [|n]; cbn [repeat] in *; try lia.
    replace (outputPos st)
      with (size (separated hrpLength separatorOffset copied)) in * by lia.
    rewrite store_app. cbn [bind].
    revert Hstep.
    match goal with
    | |- context [if ?b then _ else _] => destruct b
    end; intros Hstep; (eexists; split; [reflexivity|]);
      unfold gs_layout; cbn [rawPos outputPos output]; rewrite size_snoc;
      (split; [reflexivity|]); (split; [lia|]);
      exists n; rewrite Hsnoc, <- !app_assoc; cbn [app];
      (split; [reflexivity|]);
      rewrite ?size_app, ?size_cons in *;
      change (size (@nil ascii)) with 0 in *; lia.
Qed.

Lemma loop_keeps_layout rest : forall copied st,
  gs_layout hrpLength separatorOffset outputLength copied st ->
  size copied + size rest = rawLength ->
  exists st',
    for_each (addGroupSeparators_body hrpLength separatorOffset) rest st = Ok st' /\
    gs_layout hrpLength separatorOffset outputLength (copied ++ rest) st'.
Proof.
  induction rest as [|c rest IH]; intros copied st Hinv Hlen.
  - exists st. rewrite app_nil_r. now split.
  - rewrite size_cons in Hlen. pose proof (size_nonneg rest).
    destruct (body_keeps_layout copied st c Hinv) as (st1 & Hbody & Hinv1); [lia|].
    destruct (IH (copied ++ [c]) st1 Hinv1) as (st' & Hloop & Hinv').
    { rewrite size_snoc. lia. }
    exists st'. cbn [for_each]. rewrite Hbody. cbn [bind].
    rewrite <- app_assoc in Hinv'. now split.
Qed.

End Layout.

(** [addGroupSeparators] on the inputs that pass its checks. *)
Lemma addGroupSeparators_grouped raw hrplen separatorOffset :
  0 <= hrplen <= 83 ->
  1 <= separatorOffset ->
  2 <= size raw ->
  hrplen <= size raw ->
  is_length (size raw) ->
  addGroupSeparators raw hrplen separatorOffset
  = Ok (firstn (Z.to_nat hrplen) raw ++
        grouped separatorOffset (skipn (Z.to_nat hrplen) raw)) /\
  size (firstn (Z.to_nat hrplen) raw ++
        grouped separatorOffset (skipn (Z.to_nat hrplen) raw))
  = size raw +
    (if size raw >? hrplen
     then (size raw - hrplen - 1) / separatorOffset else 0).
Proof.
  intros Hh Hs H2 Hle Hlen. unfold is_length in Hlen.
  fold (separated hrplen separatorOffset raw).
  split; [|apply size_separated; lia].
  unfold addGroupSeparators, bech32.MAX_HRP_LENGTH.
  destruct (Z.gtb_spec hrplen 83); [lia|].
  destruct (Z.ltb_spec separatorOffset 1); [lia|].
  rewrite !to_difference_type_small by lia. cbv zeta.
  destruct (Z.ltb_spec (size raw) 2); [lia|].
  destruct (Z.eqb_spec (size raw) hrplen) as [Heq | Hneq].
  { unfold separated, grouped.
    rewrite firstn_all2, skipn_all2 by (unfold size in Heq; lia).
    cbn [grouped_from]. now rewrite app_nil_r. }
  destruct (Z.ltb_spec (size raw) hrplen); [lia|].
  rewrite Z.quot_div_nonneg by lia.
  assert (0 <= (size raw - hrplen - 1) / separatorOffset)
    by (apply Z.div_pos; lia).
  assert ((size raw - hrplen - 1) / separatorOffset <= size raw - hrplen - 1)
    by (apply Z.div_le_upper_bound; nia).
  rewrite to_size_type_small by lia.
  destruct (loop_keeps_layout hrplen separatorOffset (size raw)
              ltac:(lia) ltac:(lia) ltac:(lia) raw []
              {| output := repeat txref.hyphen
                   (Z.to_nat (size raw + (size raw - hrplen - 1) / separatorOffset));
                 rawPos := 0; outputPos := 0 |})
    as (st' & Hloop & Hinv).
  - unfold gs_layout. cbn [rawPos outputPos output].
    change (size (@nil ascii)) with 0.
    split; [reflexivity|]. split.
    + unfold cursor. destruct (Z.gtb_spec 0 hrplen); lia.
    + exists (Z.to_nat (size raw + (size raw - hrplen - 1) / separatorOffset)).
      unfold separated, grouped. rewrite firstn_nil, skipn_nil.
      cbn [grouped_from app]. change (size (@nil ascii)) with 0.
      split; [reflexivity | lia].
  - change (size (@nil ascii)) with 0. lia.
  - rewrite Hloop. cbn [bind]. cbn [app] in Hinv.
    destruct Hinv as (_ & _ & n & Hout & Hn).
    rewrite size_separated in Hn by lia.
    destruct (Z.gtb_spec (size raw) hrplen); [|lia].
    assert (n = 0%nat) by lia. subst n.
    cbn [repeat] in Hout. now rewrite Hout, app_nil_r.
Qed.

(** X4.  What [addGroupSeparators] returns.  On a string of at least two
    characters, with an HRP length of at most 83 that does not pass the
    end of the string and a separator offset of at least 1, the result is
    the first [hrplen] characters unchanged followed by the other
    characters in groups of [separatorOffset] with one hyphen between two
    groups: no hyphen leads or trails, and the length grows by the number
    of group boundaries. *)
Theorem addGroupSeparators_layout raw hrplen separatorOffset :
  0 <= hrplen <= 83 ->
  1 <= separatorOffset ->
  2 <= size raw ->
  hrplen <= size raw ->
  is_length (size raw) ->
  addGroupSeparators raw hrplen separatorOffset
  = Ok (firstn (Z.to_nat hrplen) raw ++
        grouped separatorOffset (skipn (Z.to_nat hrplen) raw)) /\
  size (firstn (Z.to_nat hrplen) raw ++
        grouped separatorOffset (skipn (Z.to_nat hrplen) raw))
  = size raw +
    (if size raw >? hrplen
     then (size raw - hrplen - 1) / separatorOffset else 0).
Proof. apply addGroupSeparators_grouped. Qed.

Lemma addGroupSeparators_layout_witness :
  addGroupSeparators (str "tx1:rqqqqqqqqwtvvjr") 4 4
  = Ok (str "tx1:rqqq-qqqq-qwtv-vjr") /\
  size (str "tx1:rqqq-qqqq-qwtv-vjr") = 19 + (19 - 4 - 1) / 4.
Proof.
  apply (addGroupSeparators_layout (str "tx1:rqqqqqqqqwtvvjr") 4 4);
    unfold is_length; vm_compute; intuition discriminate.
Defined.

(** X5.  [addGroupSeparators] never writes outside its output.  For
    every string and every HRP length it returns exactly when the HRP
    length is at most 83, the separator offset at least 1, the string at
    least two characters long and not shorter than the HRP; on every
    other input it throws one of its four format errors, the fourth one
    ("HRP length can't be greater than input length") exactly when the
    first three checks pass and the string is shorter than the HRP; it
    never has undefined behaviour. *)
Theorem addGroupSeparators_total raw hrplen separatorOffset :
  is_length (size raw) -> is_length hrplen ->
  let accepted :=
    hrplen <= 83 /\ 1 <= separatorOffset /\ 2 <= size raw /\
    hrplen <= size raw in
  (returns (addGroupSeparators raw hrplen separatorOffset) <-> accepted) /\
  (~ accepted ->
   exists e, FormatError e /\
             addGroupSeparators raw hrplen separatorOffset = Throw e) /\
  (addGroupSeparators raw hrplen separatorOffset
   = throw "HRP length can't be greater than input length"
   <-> hrplen <= 83 /\ 1 <= separatorOffset /\ 2 <= size raw < hrplen) /\
  addGroupSeparators raw hrplen separatorOffset <> Abort /\
  addGroupSeparators raw hrplen separatorOffset <> Undefined.
Proof.
  intros Hraw Hhrp accepted. unfold is_length in Hraw, Hhrp.
  assert (Hdec : accepted \/ ~ accepted) by (subst accepted; lia).
  destruct Hdec as [Hyes | Hno].
  - destruct Hyes as (H83 & Hoff & H2 & Hle).
    destruct (addGroupSeparators_grouped raw hrplen separatorOffset)
      as (Hout & _); unfold is_length; try lia.
    rewrite Hout.
    split; [split; [intros _; subst accepted; lia | intros _; now eexists]|].
    split; [intros Hc; elim Hc; subst accepted; lia|].
    split; [split; [discriminate | lia]|].
    split; discriminate.
  - assert (Hthrow : exists e,
              FormatError e /\
              addGroupSeparators raw hrplen separatorOffset = Throw e /\
              (e = runtime_error "HRP length can't be greater than input length"
               <-> hrplen <= 83 /\ 1 <= separatorOffset /\ 2 <= size raw < hrplen)).
    { unfold addGroupSeparators, bech32.MAX_HRP_LENGTH, FormatError, throw.
      destruct (Z.gtb_spec hrplen 83).
      { eexists. split; [left; reflexivity|]. split; [reflexivity|].
        split; [discriminate | lia]. }
      destruct (Z.ltb_spec separatorOffset 1).
      { eexists. split; [right; left; reflexivity|]. split; [reflexivity|].
        split; [discriminate | lia]. }
      rewrite !to_difference_type_small by lia. cbv zeta.
      destruct (Z.ltb_spec (size raw) 2).
      { eexists. split; [right; right; left; reflexivity|]. split; [reflexivity|].
        split; [discriminate | lia]. }
      destruct (Z.eqb_spec (size raw) hrplen); [subst accepted; lia|].
      destruct (Z.ltb_spec (size raw) hrplen); [|subst accepted; lia].
      eexists. split; [right; right; right; reflexivity|]. split; [reflexivity|].
      split; [intros _; lia | reflexivity]. }
    destruct Hthrow as (e & He & Hthrow & Hfourth). rewrite Hthrow.
    split; [split; [intros (out & Hc); discriminate Hc | contradiction]|].
    split; [intros _; now exists e|].
    split; [|split; discriminate].
    unfold throw. split.
    + intros [= ->]. now apply Hfourth.
    + intros Hcase. f_equal. now apply Hfourth.
Qed.

Lemma addGroupSeparators_total_witness :
  addGroupSeparators (str "tx1") 4 4
  = throw "HRP length can't be greater than input length" /\
  returns (addGroupSeparators (str "tx1:rqqqqqqqqwtvvjr") 4 4).
Proof.
  destruct (addGroupSeparators_total (str "tx1") 4 4)
    as (_ & _ & Hfourth & _);
    [unfold is_length; vm_compute; intuition discriminate
    | unfold is_length; lia |].
  destruct (addGroupSeparators_total (str "tx1:rqqqqqqqqwtvvjr") 4 4)
    as (Hreturns & _);
    [unfold is_length; vm_compute; intuition discriminate
    | unfold is_length; lia |].
  split.
  - apply Hfourth. vm_compute. intuition discriminate.
  - apply Hreturns. vm_compute. intuition discriminate.
Defined.

(** [prettyPrint] on the inputs that pass its checks. *)
Lemma prettyPrint_grouped plain hrplen :
  0 <= hrplen <= 81 ->
  hrplen + 1 <= size plain ->
  is_length (size plain + 1) ->
  prettyPrint plain hrplen
  = Ok (firstn (Z.to_nat (hrplen + 1)) plain ++
        txref.colon :: grouped 4 (skipn (Z.to_nat (hrplen + 1)) plain)) /\
  size (firstn (Z.to_nat (hrplen + 1)) plain ++
        txref.colon :: grouped 4 (skipn (Z.to_nat (hrplen + 1)) plain))
  = size plain + 1 +
    (if size plain >? hrplen + 1 then (size plain - hrplen - 2) / 4 else 0).
Proof.
  intros Hh Hin Hlen. unfold is_length in Hlen.
  set (inserted := firstn (Z.to_nat (hrplen + 1)) plain
                   ++ txref.colon :: skipn (Z.to_nat (hrplen + 1)) plain).
  assert (Hsize : size inserted = size plain + 1) by apply size_inserted.
  destruct (addGroupSeparators_grouped inserted (hrplen + 2) 4)
    as (Hout & Hsz); unfold is_length; try lia.
  assert (Hfirst : firstn (Z.to_nat (hrplen + 2)) inserted
                   = firstn (Z.to_nat (hrplen + 1)) plain ++ [txref.colon]).
  { unfold inserted.
    assert (Hl : List.length (firstn (Z.to_nat (hrplen + 1)) plain)
                 = Z.to_nat (hrplen + 1))
      by (rewrite length_firstn; unfold size in Hin; lia).
    rewrite firstn_app, Hl.
    replace (Z.to_nat (hrplen + 2) - Z.to_nat (hrplen + 1))%nat with 1%nat by lia.
    cbn [firstn].
    rewrite firstn_all2 by lia. reflexivity. }
  assert (Hrest : skipn (Z.to_nat (hrplen + 2)) inserted
                  = skipn (Z.to_nat (hrplen + 1)) plain).
  { unfold inserted.
    assert (Hl : List.length (firstn (Z.to_nat (hrplen + 1)) plain)
                 = Z.to_nat (hrplen + 1))
      by (rewrite length_firstn; unfold size in Hin; lia).
    rewrite skipn_app, Hl.
    replace (Z.to_nat (hrplen + 2) - Z.to_nat (hrplen + 1))%nat with 1%nat by lia.
    cbn [skipn]. rewrite skipn_all2 by lia. reflexivity. }
  rewrite Hfirst, Hrest, <- app_assoc in Hout, Hsz. cbn [app] in Hout, Hsz.
  split.
  - unfold prettyPrint.
    rewrite !to_size_type_small by lia.
    rewrite to_difference_type_small by lia.
    rewrite string_insert_returns by lia. cbn [bind].
    exact Hout.
  - rewrite Hsz, Hsize.
    replace (size plain + 1 - (hrplen + 2) - 1) with (size plain - hrplen - 2)
      by lia.
    destruct (Z.gtb_spec (size plain + 1) (hrplen + 2));
      destruct (Z.gtb_spec (size plain) (hrplen + 1)); lia.
Qed.

(** X6.  What [prettyPrint] returns.  With an HRP length of at most 81
    and a string that is longer than the HRP, the result is the HRP and
    the character after it (the separator of the codec), a colon, and the
    remaining characters in groups of four with hyphens between them.
    On a string that is not longer than the HRP the colon would go in
    behind the end of the string: the behaviour is undefined. *)
Theorem prettyPrint_layout plain hrplen :
  0 <= hrplen -> is_length (hrplen + 1) -> is_length (size plain + 1) ->
  (hrplen < size plain -> hrplen <= 81 ->
   prettyPrint plain hrplen
   = Ok (firstn (Z.to_nat (hrplen + 1)) plain ++
         txref.colon :: grouped 4 (skipn (Z.to_nat (hrplen + 1)) plain)) /\
   size (firstn (Z.to_nat (hrplen + 1)) plain ++
         txref.colon :: grouped 4 (skipn (Z.to_nat (hrplen + 1)) plain))
   = size plain + 1 +
     (if size plain >? hrplen + 1 then (size plain - hrplen - 2) / 4 else 0)) /\
  (size plain <= hrplen -> prettyPrint plain hrplen = Undefined).
Proof.
  intros Hh Hlen Hplain. split.
  - intros Hin Hmax. apply prettyPrint_grouped; [lia | lia | exact Hplain].
  - intros Hout. unfold is_length in Hlen, Hplain.
    unfold prettyPrint, string_insert.
    rewrite !to_size_type_small by lia.
    rewrite to_difference_type_small by lia.
    destruct (Z.leb_spec (hrplen + 1) (size plain)); [lia|].
    now rewrite andb_false_r.
Qed.

Lemma prettyPrint_layout_witness :
  prettyPrint (str "tx1yqqqqqqqqqqqrvum0c") 2
  = Ok (str "tx1:yqqq-qqqq-qqqq-rvum-0c") /\
  prettyPrint (str "tx") 2 = Undefined.
Proof.
  split.
  - apply (proj1 (prettyPrint_layout (str "tx1yqqqqqqqqqqqrvum0c") 2
                    ltac:(lia) ltac:(unfold is_length; lia)
                    ltac:(unfold is_length; vm_compute; intuition discriminate)));
      [vm_compute; reflexivity | lia].
  - apply (proj2 (prettyPrint_layout (str "tx") 2
                    ltac:(lia) ltac:(unfold is_length; lia)
                    ltac:(unfold is_length; vm_compute; intuition discriminate))).
    vm_compute. discriminate.
Defined.

(** ** What a returned encoder went through *)

Section EncoderReturns.

Context {codec : bech32.Codec}.

Lemma txrefEncode_Ok hrp magicCode h p s :
  txrefEncode hrp magicCode h p = Ok s ->
  (0 <= h <= MAX_BLOCK_HEIGHT /\ 0 <= p <= MAX_TRANSACTION_POSITION /\
   0 <= magicCode <= MAX_MAGIC_CODE) /\
  (result <- call (bech32.encode hrp (txrefEncode_dp magicCode h p)) ;;
   prettyPrint result (size hrp)) = Ok s.
Proof.
  intros Hs.
  assert (Hr : 0 <= h <= MAX_BLOCK_HEIGHT /\ 0 <= p <= MAX_TRANSACTION_POSITION /\
               0 <= magicCode <= MAX_MAGIC_CODE).
  { destruct (Z_le_dec 0 h), (Z_le_dec h MAX_BLOCK_HEIGHT), (Z_le_dec 0 p),
      (Z_le_dec p MAX_TRANSACTION_POSITION), (Z_le_dec 0 magicCode),
      (Z_le_dec magicCode MAX_MAGIC_CODE);
      try (repeat split; assumption);
      (destruct (txrefEncode_out_of_range hrp magicCode h p) as (e & _ & He);
       [lia | rewrite He in Hs; discriminate Hs]). }
  split; [exact Hr|].
  destruct Hr as (Hh & Hp & Hm).
  now rewrite txrefEncode_in_range in Hs by assumption.
Qed.

Lemma txrefExtEncode_Ok hrp magicCode h p t s :
  txrefExtEncode hrp magicCode h p t = Ok s ->
  (0 <= h <= MAX_BLOCK_HEIGHT /\ 0 <= p <= MAX_TRANSACTION_POSITION /\
   0 <= t <= MAX_TXO_INDEX /\
   (magicCode = txref.MAGIC_BTC_MAIN_EXTENDED \/
    magicCode = txref.MAGIC_BTC_TEST_EXTENDED)) /\
  (result <- call (bech32.encode hrp (txrefExtEncode_dp magicCode h p t)) ;;
   prettyPrint result (size hrp)) = Ok s.
Proof.
  intros Hs.
  assert (Hr : 0 <= h <= MAX_BLOCK_HEIGHT /\ 0 <= p <= MAX_TRANSACTION_POSITION /\
               0 <= t <= MAX_TXO_INDEX /\ 0 <= magicCode <= MAX_MAGIC_CODE).
  { destruct (Z_le_dec 0 h), (Z_le_dec h MAX_BLOCK_HEIGHT), (Z_le_dec 0 p),
      (Z_le_dec p MAX_TRANSACTION_POSITION), (Z_le_dec 0 t),
      (Z_le_dec t MAX_TXO_INDEX), (Z_le_dec 0 magicCode),
      (Z_le_dec magicCode MAX_MAGIC_CODE);
      try (repeat split; assumption);
      (destruct (txrefExtEncode_out_of_range hrp magicCode h p t) as (e & _ & He);
       [lia | rewrite He in Hs; discriminate Hs]). }
  destruct Hr as (Hh & Hp & Ht & Hm).
  rewrite txrefExtEncode_in_range in Hs by assumption.
  destruct (checkExtendedMagicCode magicCode) as [[]| | |] eqn:Hcheck;
    cbn [bind] in Hs; try discriminate Hs.
  apply checkExtendedMagicCode_spec in Hcheck.
  now repeat split.
Qed.

Lemma encode_for_Ok testnet h p t forceExtended hrp s :
  encode_for testnet h p t forceExtended hrp = Ok s ->
  (0 <= h <= MAX_BLOCK_HEIGHT /\ 0 <= p <= MAX_TRANSACTION_POSITION /\
   0 <= t <= MAX_TXO_INDEX) /\
  (result <- call (bech32.encode hrp (payload_of testnet h p t forceExtended)) ;;
   prettyPrint result (size hrp)) = Ok s.
Proof.
  assert (Hpath : (t =? 0) && negb forceExtended
                  = negb (negb (t =? 0) || forceExtended))
    by now rewrite negb_orb, negb_involutive.
  unfold payload_of.
  destruct testnet; unfold encode_for, encode, encodeTestnet; rewrite Hpath;
    (destruct (negb (t =? 0) || forceExtended) eqn:Hext; cbn [negb];
     [ intros Hs; apply txrefExtEncode_Ok in Hs;
       destruct Hs as ((Hh & Hp & Ht & _) & Hs); now repeat split
     | assert (t = 0) as ->
         by (apply orb_false_iff in Hext as (Hz & _);
             apply negb_false_iff, Z.eqb_eq in Hz; exact Hz);
       intros Hs; apply txrefEncode_Ok in Hs;
       destruct Hs as ((Hh & Hp & _) & Hs); (split; [|exact Hs]);
       unfold MAX_TXO_INDEX; repeat split; try assumption; lia ]).
Qed.

Lemma payload_of_spec testnet h p t forceExtended :
  0 <= h <= MAX_BLOCK_HEIGHT -> 0 <= p <= MAX_TRANSACTION_POSITION ->
  0 <= t <= MAX_TXO_INDEX ->
  let extended := negb (t =? 0) || forceExtended in
  let dp := payload_of testnet h p t forceExtended in
  forallb bech32.isSymbol dp = true /\
  size dp = (if extended then 12 else 9) /\
  extractMagicCode dp = Ok (magic_code_of testnet extended) /\
  extractBlockHeight dp = Ok h /\
  extractTransactionPosition dp = Ok p /\
  extractTxoIndex dp = Ok t.
Proof.
  intros Hh Hp Ht extended dp. subst extended dp. unfold payload_of.
  unfold MAX_BLOCK_HEIGHT, MAX_TRANSACTION_POSITION, MAX_TXO_INDEX in *.
  assert (Hm : forall a b, 0 <= magic_code_of a b <= MAX_MAGIC_CODE)
    by (intros [] []; easy).
  destruct (negb (t =? 0) || forceExtended) eqn:Hext.
  - destruct (extended_payload_symbols (magic_code_of testnet true) h p t (Hm _ _))
      as (Hsym & Hsize).
    destruct (extract_extended (magic_code_of testnet true) h p t)
      as (E1 & E2 & E3 & E4);
      try (change (2 ^ 24) with 16777216; change (2 ^ 15) with 32768; lia).
    { specialize (Hm testnet true). unfold MAX_MAGIC_CODE in Hm. lia. }
    now repeat split.
  - assert (t = 0) as ->.
    { apply orb_false_iff in Hext as (Hz & _).
      apply negb_false_iff, Z.eqb_eq in Hz. exact Hz. }
    destruct (standard_payload_symbols (magic_code_of testnet false) h p (Hm _ _))
      as (Hsym & Hsize).
    destruct (extract_standard (magic_code_of testnet false) h p)
      as (E1 & E2 & E3 & E4);
      try (change (2 ^ 24) with 16777216; change (2 ^ 15) with 32768; lia).
    { specialize (Hm testnet false). unfold MAX_MAGIC_CODE in Hm. lia. }
    now repeat split.
Qed.

End EncoderReturns.

Section PrintedLayout.

Context {codec : bech32.Codec} {laws : bech32.Laws codec}.

(** The reference that the encoders print for a string of the codec. *)
Lemma print_layout hrp dp s :
  forallb bech32.isCodecChar hrp = true ->
  2 <= size dp ->
  (result <- call (bech32.encode hrp dp) ;; prettyPrint result (size hrp)) = Ok s ->
  exists body,
    bech32.encode hrp dp = bech32.Return (hrp ++ bech32.separator :: body) /\
    forallb bech32.isSymbolChar body = true /\
    size body = size dp + 6 /\
    s = hrp ++ bech32.separator :: txref.colon :: grouped 4 body /\
    size s = size hrp + size dp + 8 + (size dp + 5) / 4 /\
    bech32.stripUnknownChars s = hrp ++ bech32.separator :: body.
Proof.
  intros Hhrp Hdp Hs.
  destruct (printed_reference hrp dp s Hhrp Hs)
    as (raw & Hraw & Hpretty & Hstrip & _).
  destruct (bech32.encode_shape hrp dp raw Hhrp Hraw)
    as (body & Hshape & Hbody & Hlen & Hmax).
  exists body. rewrite <- Hshape.
  assert (Hbodysize : size body = size dp + 6) by (unfold size; lia).
  assert (Hrawsize : size raw = size hrp + 1 + size body)
    by (rewrite Hshape, size_app, size_cons; lia).
  fold (size raw) in Hmax.
  pose proof (size_nonneg hrp) as Hnn.
  destruct (prettyPrint_grouped raw (size hrp)) as (Hout & Hsize);
    unfold is_length; try lia.
  rewrite Hpretty in Hout. injection Hout as Hout.
  assert (Hfirst : firstn (Z.to_nat (size hrp + 1)) raw = hrp ++ [bech32.separator]).
  { rewrite Hshape.
    change (hrp ++ bech32.separator :: body)
      with (hrp ++ [bech32.separator] ++ body).
    rewrite app_assoc.
    replace (Z.to_nat (size hrp + 1))
      with (List.length (hrp ++ [bech32.separator]))
      by (rewrite length_app; unfold size; cbn [List.length]; lia).
    now rewrite firstn_app, Nat.sub_diag, firstn_all, firstn_O, app_nil_r. }
  assert (Hrest : skipn (Z.to_nat (size hrp + 1)) raw = body).
  { rewrite Hshape.
    change (hrp ++ bech32.separator :: body)
      with (hrp ++ [bech32.separator] ++ body).
    rewrite app_assoc.
    replace (Z.to_nat (size hrp + 1))
      with (List.length (hrp ++ [bech32.separator]))
      by (rewrite length_app; unfold size; cbn [List.length]; lia).
    now rewrite skipn_app, Nat.sub_diag, skipn_all. }
  rewrite Hfirst, Hrest, <- app_assoc in Hout, Hsize. cbn [app] in Hout, Hsize.
  repeat split; try assumption.
  rewrite Hout, Hsize.
  destruct (Z.gtb_spec (size raw) (size hrp + 1)); [|lia].
  replace (size raw - size hrp - 2) with (size dp + 5) by lia. lia.
Qed.

(** Under the contract of the codec the pretty printer returns on
    whatever the codec returned for a payload of two symbols or more. *)
Lemma print_total hrp dp raw :
  forallb bech32.isCodecChar hrp = true ->
  2 <= size dp ->
  bech32.encode hrp dp = bech32.Return raw ->
  returns (prettyPrint raw (size hrp)).
Proof.
  intros Hhrp Hdp Hraw.
  destruct (bech32.encode_shape hrp dp raw Hhrp Hraw)
    as (body & Hshape & Hbody & Hlen & Hmax).
  assert (Hrawsize : size raw = size hrp + 1 + size body)
    by (rewrite Hshape, size_app, size_cons; lia).
  assert (Hbodysize : size body = size dp + 6) by (unfold size; lia).
  fold (size raw) in Hmax.
  pose proof (size_nonneg hrp) as Hnn.
  destruct (prettyPrint_grouped raw (size hrp)) as (Hout & _);
    unfold is_length; try lia.
  eexists. exact Hout.
Qed.

End PrintedLayout.

(** X7.  The layout of an encoded reference.  Under the contract of the
    codec, with an HRP over the alphabet of the codec, what [encode] or
    [encodeTestnet] returns is the HRP, the separator of the codec, a
    colon, and the 15 (standard) or 18 (extended) characters of payload
    and checksum in groups of four with hyphens between them; it is 20
    (standard) or 24 (extended) characters longer than the HRP, and
    stripping it gives the string of the codec back. *)
Theorem encoded_layout (codec : bech32.Codec) (laws : bech32.Laws codec)
  h p t forceExtended hrp s :
  forallb bech32.isCodecChar hrp = true ->
  encode h p t forceExtended hrp = Ok s \/
  encodeTestnet h p t forceExtended hrp = Ok s ->
  let extended := negb (t =? 0) || forceExtended in
  exists body,
    forallb bech32.isSymbolChar body = true /\
    size body = (if extended then 18 else 15) /\
    s = hrp ++ bech32.separator :: txref.colon :: grouped 4 body /\
    size s = size hrp + (if extended then 24 else 20) /\
    bech32.stripUnknownChars s = hrp ++ bech32.separator :: body.
Proof.
  intros Hhrp Hs extended.
  assert (Hfor : exists testnet,
            encode_for testnet h p t forceExtended hrp = Ok s)
    by (destruct Hs as [Hs | Hs]; [now exists false | now exists true]).
  destruct Hfor as (testnet & Hfor).
  destruct (encode_for_Ok _ _ _ _ _ _ _ Hfor) as ((Hh & Hp & Ht) & Hprint).
  destruct (payload_of_spec testnet h p t forceExtended Hh Hp Ht)
    as (_ & Hsize & _).
  fold extended in Hsize.
  destruct (print_layout hrp (payload_of testnet h p t forceExtended) s Hhrp)
    as (body & _ & Hbody & Hlen & Hs' & Hsz & Hstrip);
    [destruct extended; lia | exact Hprint |].
  exists body. rewrite Hsize in Hlen, Hsz.
  split; [exact Hbody|]. split; [destruct extended; lia|].
  split; [exact Hs'|]. split; [|exact Hstrip].
  rewrite Hsz.
  destruct extended;
    [change ((12 + 5) / 4) with 4 | change ((9 + 5) / 4) with 3]; lia.
Qed.

Lemma encoded_layout_witness :
  exists body,
    forallb bech32.isSymbolChar body = true /\
    size body = 15 /\
    str "tx1:rqqq-qqqq-qwtv-vjr"
    = str "tx" ++ bech32.separator :: txref.colon :: grouped 4 body /\
    size (str "tx1:rqqq-qqqq-qwtv-vjr") = size (str "tx") + 20 /\
    @bech32.stripUnknownChars libbech32.codec (str "tx1:rqqq-qqqq-qwtv-vjr")
    = str "tx" ++ bech32.separator :: body.
Proof.
  assert (Hs : @encode libbech32.codec 0 0 0 false (str "tx")
               = Ok (str "tx1:rqqq-qqqq-qwtv-vjr"))
    by (vm_compute; reflexivity).
  exact (encoded_layout libbech32.codec libbech32_laws 0 0 0 false (str "tx")
           (str "tx1:rqqq-qqqq-qwtv-vjr") eq_refl (or_introl Hs)).
Defined.

Section EncoderOutcomes.

Context {codec : bech32.Codec}.

Lemma in_range_dec h p t :
  {0 <= h <= MAX_BLOCK_HEIGHT /\ 0 <= p <= MAX_TRANSACTION_POSITION /\
   0 <= t <= MAX_TXO_INDEX} +
  {~ (0 <= h <= MAX_BLOCK_HEIGHT /\ 0 <= p <= MAX_TRANSACTION_POSITION /\
      0 <= t <= MAX_TXO_INDEX)}.
Proof.
  destruct (Z_le_dec 0 h), (Z_le_dec h MAX_BLOCK_HEIGHT), (Z_le_dec 0 p),
    (Z_le_dec p MAX_TRANSACTION_POSITION), (Z_le_dec 0 t),
    (Z_le_dec t MAX_TXO_INDEX);
    first [left; repeat split; assumption | right; intros H; lia].
Defined.

Lemma encode_for_in_range testnet h p t forceExtended hrp :
  0 <= h <= MAX_BLOCK_HEIGHT -> 0 <= p <= MAX_TRANSACTION_POSITION ->
  0 <= t <= MAX_TXO_INDEX ->
  encode_for testnet h p t forceExtended hrp =
  (result <- call (bech32.encode hrp (payload_of testnet h p t forceExtended)) ;;
   prettyPrint result (size hrp)).
Proof.
  intros Hh Hp Ht.
  assert (Hpath : (t =? 0) && negb forceExtended
                  = negb (negb (t =? 0) || forceExtended))
    by now rewrite negb_orb, negb_involutive.
  unfold payload_of.
  destruct testnet; unfold encode_for, encode, encodeTestnet; rewrite Hpath;
    (destruct (negb (t =? 0) || forceExtended); cbn [negb];
     [ rewrite txrefExtEncode_in_range by easy; reflexivity
     | rewrite txrefEncode_in_range by easy; reflexivity ]).
Qed.

Lemma encode_for_out_of_range testnet h p t forceExtended hrp :
  ~ (0 <= h <= MAX_BLOCK_HEIGHT /\ 0 <= p <= MAX_TRANSACTION_POSITION /\
     0 <= t <= MAX_TXO_INDEX) ->
  exists e, RangeError e /\ encode_for testnet h p t forceExtended hrp = Throw e.
Proof.
  intros Hout.
  destruct testnet; unfold encode_for, encode, encodeTestnet.
  - apply (encoders_RangeError txref.MAGIC_BTC_TEST txref.MAGIC_BTC_TEST_EXTENDED
             h p t forceExtended hrp); [easy | now right | exact Hout].
  - apply (encoders_RangeError txref.MAGIC_BTC_MAIN txref.MAGIC_BTC_MAIN_EXTENDED
             h p t forceExtended hrp); [easy | now left | exact Hout].
Qed.

End EncoderOutcomes.

Section EncoderContract.

Context {codec : bech32.Codec} {laws : bech32.Laws codec}.

(** Every outcome of a public encoder, under the contract of the codec. *)
Lemma encode_for_outcome testnet h p t forceExtended hrp :
  forallb bech32.isCodecChar hrp = true ->
  let in_range := 0 <= h <= MAX_BLOCK_HEIGHT /\
                  0 <= p <= MAX_TRANSACTION_POSITION /\
                  0 <= t <= MAX_TXO_INDEX in
  let dp := payload_of testnet h p t forceExtended in
  let m := encode_for testnet h p t forceExtended hrp in
  (returns m <-> in_range /\ exists raw, bech32.encode hrp dp = bech32.Return raw) /\
  (forall e, m = Throw e ->
     (RangeError e /\ ~ in_range) \/
     (in_range /\ exists what,
        e = codec_error what /\ bech32.encode hrp dp = bech32.Raise what)) /\
  m <> Abort /\ m <> Undefined.
Proof.
  intros Hhrp in_range dp m.
  destruct (in_range_dec h p t) as [Hin | Hout].
  - destruct Hin as (Hh & Hp & Ht).
    destruct (payload_of_spec testnet h p t forceExtended Hh Hp Ht)
      as (_ & Hsize & _).
    assert (Hm : m = (result <- call (bech32.encode hrp dp) ;;
                      prettyPrint result (size hrp)))
      by (apply encode_for_in_range; assumption).
    destruct (bech32.encode hrp dp) as [raw | what] eqn:Hraw;
      cbn [call bind] in Hm.
    + destruct (print_total hrp dp raw Hhrp) as (s & Hs);
        [fold dp in Hsize; rewrite Hsize;
         destruct (negb (t =? 0) || forceExtended); lia
        | exact Hraw |].
      rewrite Hs in Hm. rewrite Hm.
      split; [split|split; [|split; discriminate]].
      * intros _. split; [easy | now exists raw].
      * intros _. now exists s.
      * intros e He. discriminate He.
    + rewrite Hm.
      split; [split|split; [|split; discriminate]].
      * intros (s & Hs). discriminate Hs.
      * intros (_ & raw & Hr). discriminate Hr.
      * intros e [= <-]. right. split; [easy|]. now exists what.
  - destruct (encode_for_out_of_range testnet h p t forceExtended hrp Hout)
      as (e & He & Hm).
    fold m in Hm. rewrite Hm.
    split; [split|split; [|split; discriminate]].
    + intros (s & Hs). discriminate Hs.
    + intros (Hin & _). contradiction.
    + intros e' [= <-]. left. now split.
Qed.

End EncoderContract.

(** X8.  The public encoders fail for two reasons only.  Under the
    contract of the codec, with an HRP over the alphabet of the codec,
    [encode] and [encodeTestnet] return exactly when the three fields are
    in range and the codec accepts the HRP with the payload; when they
    throw, the exception is a RangeError or the exception of the codec;
    they never throw a format error or UnsupportedVariant, and they
    neither trip an assertion nor have undefined behaviour. *)
Theorem encoders_fail_by_range_or_codec (codec : bech32.Codec)
  (laws : bech32.Laws codec) h p t forceExtended hrp :
  forallb bech32.isCodecChar hrp = true ->
  let in_range := 0 <= h <= 16777215 /\ 0 <= p <= 32767 /\ 0 <= t <= 32767 in
  let extended := negb (t =? 0) || forceExtended in
  let documented (m : outcome (list ascii)) (dp : list Z) :=
    (returns m <->
     in_range /\ exists raw, bech32.encode hrp dp = bech32.Return raw) /\
    (forall e, m = Throw e ->
       (RangeError e /\ ~ in_range) \/
       (in_range /\ exists what,
          e = codec_error what /\ bech32.encode hrp dp = bech32.Raise what)) /\
    (forall e, m = Throw e -> ~ FormatError e /\ ~ UnsupportedVariant e) /\
    m <> Abort /\ m <> Undefined in
  documented (encode h p t forceExtended hrp)
    (if extended then txrefExtEncode_dp txref.MAGIC_BTC_MAIN_EXTENDED h p t
     else txrefEncode_dp txref.MAGIC_BTC_MAIN h p) /\
  documented (encodeTestnet h p t forceExtended hrp)
    (if extended then txrefExtEncode_dp txref.MAGIC_BTC_TEST_EXTENDED h p t
     else txrefEncode_dp txref.MAGIC_BTC_TEST h p).
Proof.
  intros Hhrp in_range extended documented.
  assert (Hkinds : forall e,
            RangeError e \/ (exists what, e = codec_error what) ->
            ~ FormatError e /\ ~ UnsupportedVariant e).
  { intros e [He | (what & ->)].
    - split.
      + intros Hf. now apply (FormatError_not_RangeError e).
      + unfold UnsupportedVariant. intros ->.
        destruct He as [He | [He | [He | He]]]; discriminate He.
    - split.
      + intros [Hf | [Hf | [Hf | Hf]]]; discriminate Hf.
      + intros Hf. discriminate Hf. }
  split.
  - destruct (encode_for_outcome false h p t forceExtended hrp Hhrp)
      as (Hret & Hthrow & Habort & Hundef).
    split; [exact Hret|]. split; [exact Hthrow|].
    split; [|split; assumption].
    intros e He. destruct (Hthrow e He) as [(Hr & _) | (_ & what & -> & _)];
      apply Hkinds; [now left | right; now exists what].
  - destruct (encode_for_outcome true h p t forceExtended hrp Hhrp)
      as (Hret & Hthrow & Habort & Hundef).
    split; [exact Hret|]. split; [exact Hthrow|].
    split; [|split; assumption].
    intros e He. destruct (Hthrow e He) as [(Hr & _) | (_ & what & -> & _)];
      apply Hkinds; [now left | right; now exists what].
Qed.

Lemma encoders_fail_by_range_or_codec_witness :
  returns (@encode libbech32.codec 466793 2205 0 false (str "tx")) /\
  @encodeTestnet libbech32.codec 466793 2205 0 false (str "tx") <> Undefined.
Proof.
  pose proof (encoders_fail_by_range_or_codec libbech32.codec libbech32_laws
                466793 2205 0 false (str "tx") eq_refl) as H.
  cbv zeta in H. destruct H as ((Hret & _) & (_ & _ & _ & _ & Hundef)).
  split; [|exact Hundef].
  apply Hret. split; [lia|].
  eexists. vm_compute. reflexivity.
Defined.

(** X9.  Encoding is injective.  Under the contract of the codec, when
    two calls of the public encoders, with HRPs over the alphabet of the
    codec, return the same string, they were given the same HRP, the
    same block height, transaction position and txo index, and they took
    the same path (standard or extended); and [encode] never returns a
    string that [encodeTestnet] returns. *)
Theorem encode_injective (codec : bech32.Codec) (laws : bech32.Laws codec)
  h p t forceExtended hrp h' p' t' forceExtended' hrp' s :
  forallb bech32.isCodecChar hrp = true ->
  forallb bech32.isCodecChar hrp' = true ->
  (encode h p t forceExtended hrp = Ok s \/
   encodeTestnet h p t forceExtended hrp = Ok s) ->
  (encode h' p' t' forceExtended' hrp' = Ok s \/
   encodeTestnet h' p' t' forceExtended' hrp' = Ok s) ->
  (hrp = hrp' /\ h = h' /\ p = p' /\ t = t' /\
   negb (t =? 0) || forceExtended = negb (t' =? 0) || forceExtended') /\
  ~ (encode h p t forceExtended hrp = Ok s /\
     encodeTestnet h' p' t' forceExtended' hrp' = Ok s).
Proof.
  intros Hhrp Hhrp' Hs Hs'.
  assert (Hinj : forall testnet testnet',
            encode_for testnet h p t forceExtended hrp = Ok s ->
            encode_for testnet' h' p' t' forceExtended' hrp' = Ok s ->
            hrp = hrp' /\ h = h' /\ p = p' /\ t = t' /\
            negb (t =? 0) || forceExtended = negb (t' =? 0) || forceExtended' /\
            testnet = testnet').
  { intros testnet testnet' Hfor Hfor'.
    destruct (encode_for_Ok _ _ _ _ _ _ _ Hfor) as ((Hh & Hp & Ht) & Hprint).
    destruct (encode_for_Ok _ _ _ _ _ _ _ Hfor') as ((Hh' & Hp' & Ht') & Hprint').
    destruct (printed_reference hrp _ s Hhrp Hprint) as (raw & Hraw & _ & Hstrip & _).
    destruct (printed_reference hrp' _ s Hhrp' Hprint')
      as (raw' & Hraw' & _ & Hstrip' & _).
    rewrite Hstrip in Hstrip'. subst raw'.
    pose proof (bech32.decode_encode hrp _ raw Hhrp Hraw) as Hd.
    pose proof (bech32.decode_encode hrp' _ raw Hhrp' Hraw') as Hd'.
    rewrite Hd in Hd'. injection Hd' as Hhrps Hdps.
    destruct (payload_of_spec testnet h p t forceExtended Hh Hp Ht)
      as (_ & _ & Em & Eh & Ep & Et).
    destruct (payload_of_spec testnet' h' p' t' forceExtended' Hh' Hp' Ht')
      as (_ & _ & Em' & Eh' & Ep' & Et').
    cbv zeta in *. rewrite Hdps in Em, Eh, Ep, Et.
    rewrite Em in Em'. rewrite Eh in Eh'. rewrite Ep in Ep'. rewrite Et in Et'.
    injection Em' as Hm. injection Eh' as <-. injection Ep' as <-.
    injection Et' as <-.
    split; [exact Hhrps|]. do 3 (split; [reflexivity|]).
    revert Hm.
    destruct testnet, testnet',
      (negb (t =? 0) || forceExtended), (negb (t =? 0) || forceExtended');
      cbn; intros Hm; first [discriminate Hm | now split]. }
  split.
  - destruct Hs as [Hs | Hs], Hs' as [Hs' | Hs'].
    + destruct (Hinj false false Hs Hs') as (H1 & H2 & H3 & H4 & H5 & _).
      now repeat split.
    + destruct (Hinj false true Hs Hs') as (_ & _ & _ & _ & _ & H6).
      discriminate H6.
    + destruct (Hinj true false Hs Hs') as (_ & _ & _ & _ & _ & H6).
      discriminate H6.
    + destruct (Hinj true true Hs Hs') as (H1 & H2 & H3 & H4 & H5 & _).
      now repeat split.
  - intros (Hmain & Htest).
    destruct (Hinj false true Hmain Htest) as (_ & _ & _ & _ & _ & H6).
    discriminate H6.
Qed.

Lemma encode_injective_witness :
  ~ (@encode libbech32.codec 0 0 0 false (str "tx")
     = Ok (str "tx1:rqqq-qqqq-qwtv-vjr") /\
     @encodeTestnet libbech32.codec 0 0 0 false (str "tx")
     = Ok (str "tx1:rqqq-qqqq-qwtv-vjr")).
Proof.
  assert (Hs : @encode libbech32.codec 0 0 0 false (str "tx")
               = Ok (str "tx1:rqqq-qqqq-qwtv-vjr"))
    by (vm_compute; reflexivity).
  exact (proj2 (encode_injective libbech32.codec libbech32_laws
                  0 0 0 false (str "tx") 0 0 0 false (str "tx")
                  (str "tx1:rqqq-qqqq-qwtv-vjr")
                  eq_refl eq_refl (or_introl Hs) (or_introl Hs))).
Defined.

Section ClassifyEncoded.

Context {codec : bech32.Codec} {laws : bech32.Laws codec}.

Lemma strip_idempotent s :
  bech32.stripUnknownChars (bech32.stripUnknownChars s)
  = bech32.stripUnknownChars s.
Proof.
  destruct bech32.strip_filter as (kept & Hstrip & _).
  rewrite !Hstrip. apply filter_all.
  apply forallb_forall. intros c Hc. now apply filter_In in Hc.
Qed.

(** The classifier on a string that begins with 't' and is not 64
    characters long: the two length tables decide. *)
Lemma classify_reference s :
  nth 0 s zero = chr "t" -> 0 < size s -> size s <> 64 ->
  classifyInputString s =
  (let baseResult := classifyInputStringBase s in
   let missingResult := classifyInputStringMissingHRP s in
   if negb (txref.InputParam_eqb baseResult txref.unknown) &&
      txref.InputParam_eqb missingResult txref.unknown
   then Ok baseResult
   else if txref.InputParam_eqb baseResult txref.unknown &&
           negb (txref.InputParam_eqb missingResult txref.unknown)
   then Ok missingResult
   else if txref.InputParam_eqb baseResult txref.txref &&
           txref.InputParam_eqb missingResult txref.txrefext
   then
     if Ascii.eqb (nth 0 s zero) (nth 0 txref.BECH32_HRP_MAIN zero) &&
        Ascii.eqb (nth 1 s zero) (nth 1 txref.BECH32_HRP_MAIN zero) &&
        Ascii.eqb (nth 2 s zero) bech32.separator
     then Ok txref.txref
     else Ok txref.txrefext
   else
     assert (txref.InputParam_eqb baseResult txref.unknown) ;;;
     Ok baseResult).
Proof.
  intros Hs Hpos H64. unfold classifyInputString.
  destruct (Z.eqb_spec (size s) 0) as [H0 | _]; [lia|].
  destruct (Z.eqb_spec (size s) 64); [contradiction|].
  rewrite Hs at 1. reflexivity.
Qed.

Lemma classify_by_stripped_size s (n : Z) :
  nth 0 s zero = chr "t" -> 0 < size s -> size s <> 64 ->
  size (bech32.stripUnknownChars s) = n ->
  (n = 22 -> classifyInputString s = Ok txref.txref) /\
  (n = 21 \/ n = 25 -> classifyInputString s = Ok txref.txrefext) /\
  (n = 18 ->
   starts_with (txref.BECH32_HRP_MAIN ++ [bech32.separator]) s ->
   classifyInputString s = Ok txref.txref).
Proof.
  intros Hs Hpos H64 Hn.
  rewrite (classify_reference s Hs Hpos H64). cbv zeta.
  unfold classifyInputStringBase, classifyInputStringMissingHRP.
  rewrite Hn.
  split; [|split].
  - intros ->. reflexivity.
  - intros [-> | ->]; reflexivity.
  - intros -> Hstart.
    apply tie_break in Hstart. rewrite Hstart. reflexivity.
Qed.

End ClassifyEncoded.

(** X10.  The classifier recognises what the encoders produce.  Under the
    contract of the codec, a string that [encode] or [encodeTestnet]
    returns for one of the two HRPs of the library ("tx", "txtest") is
    classified as a standard reference when it was encoded on the
    standard path and as an extended reference when it was encoded on
    the extended path; so is the same string with its colon and hyphens
    stripped. *)
Theorem encoded_is_classified (codec : bech32.Codec) (laws : bech32.Laws codec)
  h p t forceExtended hrp s :
  hrp = txref.BECH32_HRP_MAIN \/ hrp = txref.BECH32_HRP_TEST ->
  encode h p t forceExtended hrp = Ok s \/
  encodeTestnet h p t forceExtended hrp = Ok s ->
  let expected :=
    if negb (t =? 0) || forceExtended then txref.txrefext else txref.txref in
  classifyInputString s = Ok expected /\
  classifyInputString (bech32.stripUnknownChars s) = Ok expected.
Proof.
  intros Hwhich Hs expected.
  assert (Hhrp : forallb bech32.isCodecChar hrp = true)
    by (destruct Hwhich as [-> | ->]; reflexivity).
  assert (Hfor : exists testnet,
            encode_for testnet h p t forceExtended hrp = Ok s)
    by (destruct Hs as [Hs | Hs]; [now exists false | now exists true]).
  destruct Hfor as (testnet & Hfor).
  destruct (encode_for_Ok _ _ _ _ _ _ _ Hfor) as ((Hh & Hp & Ht) & Hprint).
  destruct (payload_of_spec testnet h p t forceExtended Hh Hp Ht)
    as (_ & Hsize & _).
  destruct (print_layout hrp (payload_of testnet h p t forceExtended) s Hhrp)
    as (body & _ & _ & Hbody & Hlayout & Hlen & Hstrip);
    [destruct (negb (t =? 0) || forceExtended); lia | exact Hprint |].
  rewrite Hsize in Hbody, Hlen.
  assert (Hclean : size (bech32.stripUnknownChars s) = size hrp + 1 + size body)
    by (rewrite Hstrip, size_app, size_cons; lia).
  assert (Hagain : size (bech32.stripUnknownChars (bech32.stripUnknownChars s))
                   = size hrp + 1 + size body)
    by now rewrite strip_idempotent.
  subst expected.
  destruct Hwhich as [-> | ->];
    destruct (negb (t =? 0) || forceExtended);
    change (size txref.BECH32_HRP_MAIN) with 2 in *;
    change (size txref.BECH32_HRP_TEST) with 6 in *;
    change ((12 + 5) / 4) with 4 in Hlen; change ((9 + 5) / 4) with 3 in Hlen.
  - destruct (classify_by_stripped_size s 21) as (A22 & A21 & A18);
      [now rewrite Hlayout | lia | lia | lia |].
    destruct (classify_by_stripped_size (bech32.stripUnknownChars s) 21)
      as (B22 & B21 & B18); [now rewrite Hstrip | lia | lia | lia |].
    split; [apply A21; now left | apply B21; now left].
  - destruct (classify_by_stripped_size s 18) as (A22 & A21 & A18);
      [now rewrite Hlayout | lia | lia | lia |].
    destruct (classify_by_stripped_size (bech32.stripUnknownChars s) 18)
      as (B22 & B21 & B18); [now rewrite Hstrip | lia | lia | lia |].
    split; [apply A18; [reflexivity | now rewrite Hlayout] | apply B18; [reflexivity | now rewrite Hstrip]].
  - destruct (classify_by_stripped_size s 25) as (A22 & A21 & A18);
      [now rewrite Hlayout | lia | lia | lia |].
    destruct (classify_by_stripped_size (bech32.stripUnknownChars s) 25)
      as (B22 & B21 & B18); [now rewrite Hstrip | lia | lia | lia |].
    split; [apply A21; now right | apply B21; now right].
  - destruct (classify_by_stripped_size s 22) as (A22 & A21 & A18);
      [now rewrite Hlayout | lia | lia | lia |].
    destruct (classify_by_stripped_size (bech32.stripUnknownChars s) 22)
      as (B22 & B21 & B18); [now rewrite Hstrip | lia | lia | lia |].
    split; [now apply A22 | now apply B22].
Qed.

Lemma encoded_is_classified_witness :
  @classifyInputString libbech32.codec (str "txtest1:8qqq-qqqq-qqqq-d5ns-vl")
  = Ok txref.txrefext /\
  @classifyInputString libbech32.codec
    (@bech32.stripUnknownChars libbech32.codec
       (str "txtest1:8qqq-qqqq-qqqq-d5ns-vl"))
  = Ok txref.txrefext.
Proof.
  assert (Hs : @encodeTestnet libbech32.codec 0 0 0 true (str "txtest")
               = Ok (str "txtest1:8qqq-qqqq-qqqq-d5ns-vl"))
    by (vm_compute; reflexivity).
  exact (encoded_is_classified libbech32.codec libbech32_laws 0 0 0 true
           (str "txtest") (str "txtest1:8qqq-qqqq-qqqq-d5ns-vl")
           (or_intror eq_refl) (or_intror Hs)).
Defined.

(** ** The classifier: transaction ids and addresses *)

Section ClassifierKinds.

Context {codec : bech32.Codec}.

(** Past its first three returns the classifier answers with a kind of
    reference, or with [unknown]. *)
Lemma tables_answer s :
  let baseResult := classifyInputStringBase s in
  let missingResult := classifyInputStringMissingHRP s in
  exists kind,
    (if negb (txref.InputParam_eqb baseResult txref.unknown) &&
        txref.InputParam_eqb missingResult txref.unknown
     then Ok baseResult
     else if txref.InputParam_eqb baseResult txref.unknown &&
             negb (txref.InputParam_eqb missingResult txref.unknown)
     then Ok missingResult
     else if txref.InputParam_eqb baseResult txref.txref &&
             txref.InputParam_eqb missingResult txref.txrefext
     then
       if Ascii.eqb (nth 0 s zero) (nth 0 txref.BECH32_HRP_MAIN zero) &&
          Ascii.eqb (nth 1 s zero) (nth 1 txref.BECH32_HRP_MAIN zero) &&
          Ascii.eqb (nth 2 s zero) bech32.separator
       then Ok txref.txref
       else Ok txref.txrefext
     else
       assert (txref.InputParam_eqb baseResult txref.unknown) ;;;
       Ok baseResult) = Ok kind /\
    (kind = txref.unknown \/ kind = txref.txref \/ kind = txref.txrefext).
Proof.
  cbv zeta.
  pose proof (length_tables s) as HT. cbv zeta in HT.
  destruct (classifyInputStringBase s) eqn:Hb;
    destruct (classifyInputStringMissingHRP s) eqn:Hm;
    cbn [txref.InputParam_eqb negb andb assert bind];
    try (eexists; split; [reflexivity | tauto]);
    try (destruct HT as (_ & _ & _ & _ & [Hk | [Hk | Hk]] & _); discriminate Hk);
    try (destruct HT as (_ & _ & _ & _ & _ & [Hk | [Hk | Hk]]); discriminate Hk);
    try (destruct (_ && _); eexists; (split; [reflexivity | tauto]));
    exfalso; destruct HT as (T1 & T2 & T3 & T4 & _);
    repeat match goal with
           | H : (?a = ?a <-> _) |- _ => pose proof (proj1 H eq_refl); clear H
           end; lia.
Qed.

End ClassifierKinds.

(** X11.  Transaction ids and addresses.  The classifier answers [txid]
    exactly for the strings of 64 characters, whatever they contain; it
    answers [address] exactly for the strings of 26 to 35 characters
    that begin with '1', '3', 'm', 'n' or '2'; the empty string is
    [unknown]; and every other answer is a kind of reference or
    [unknown]. *)
Theorem classify_txid_and_address (codec : bech32.Codec) s :
  (s = [] -> classifyInputString s = Ok txref.unknown) /\
  (classifyInputString s = Ok txref.txid <-> size s = 64) /\
  (classifyInputString s = Ok txref.address <->
   is_address_prefix (nth 0 s zero) = true /\ 26 <= size s < 36) /\
  (exists kind, classifyInputString s = Ok kind).
Proof.
  destruct (tables_answer s) as (kind & Hkind & Hkinds). cbv zeta in Hkind.
  unfold classifyInputString.
  split; [intros ->; reflexivity|].
  destruct (Z.eqb_spec (size s) 0) as [H0 | H0].
  { split; [split; [discriminate | lia]|].
    split; [split; [discriminate | lia]|].
    now exists txref.unknown. }
  destruct (Z.eqb_spec (size s) 64) as [H64 | H64].
  { split; [split; [intros _; exact H64 | reflexivity]|].
    split; [split; [discriminate | lia]|].
    now exists txref.txid. }
  destruct (is_address_prefix (nth 0 s zero)) eqn:Hprefix; cbn [andb].
  - destruct (Z.geb_spec (size s) 26) as [H26 | H26]; cbn [andb].
    + destruct (Z.ltb_spec (size s) 36) as [H36 | H36].
      * split; [split; [discriminate | contradiction]|].
        split; [split; [intros _; split; [reflexivity | lia] | reflexivity]|].
        now exists txref.address.
      * rewrite Hkind.
        split; [split; [intros [= ->]; intuition discriminate | contradiction]|].
        split; [split; [intros [= ->]; intuition discriminate | lia]|].
        now exists kind.
    + rewrite Hkind.
      split; [split; [intros [= ->]; intuition discriminate | contradiction]|].
      split; [split; [intros [= ->]; intuition discriminate | lia]|].
      now exists kind.
  - rewrite Hkind.
    split; [split; [intros [= ->]; intuition discriminate | contradiction]|].
    split; [split; [intros [= ->]; intuition discriminate
                   | intros (Hc & _); discriminate Hc]|].
    now exists kind.
Qed.

Lemma classify_txid_and_address_witness :
  @classifyInputString libbech32.codec [] = Ok txref.unknown /\
  @classifyInputString libbech32.codec (repeat (chr "1") 64) = Ok txref.txid /\
  @classifyInputString libbech32.codec (repeat (chr "1") 34) = Ok txref.address.
Proof.
  destruct (classify_txid_and_address libbech32.codec []) as (Hempty & _).
  destruct (classify_txid_and_address libbech32.codec (repeat (chr "1") 64))
    as (_ & Htxid & _).
  destruct (classify_txid_and_address libbech32.codec (repeat (chr "1") 34))
    as (_ & _ & Haddress & _).
  split; [now apply Hempty|].
  split; [now apply Htxid|].
  apply Haddress. split; [reflexivity|].
  vm_compute. split; [discriminate | reflexivity].
Defined.

(** ** HRP recovery *)

Lemma addHrpIfNeeded_twice s :
  addHrpIfNeeded (addHrpIfNeeded s) = addHrpIfNeeded s.
Proof.
  destruct (isLengthValid (size s)) eqn:Hl.
  2:{ rewrite (addHrpIfNeeded_id s) by now rewrite Hl.
      apply addHrpIfNeeded_id. now rewrite Hl. }
  destruct (is_sigil (nth 0 s zero)) eqn:Hsig.
  2:{ rewrite (addHrpIfNeeded_id s) by now rewrite Hl, Hsig.
      apply addHrpIfNeeded_id. now rewrite Hl, Hsig. }
  unfold is_sigil in Hsig. unfold addHrpIfNeeded at 2 3.
  rewrite Hl. cbn [andb].
  destruct (Ascii.eqb (nth 0 s zero) (chr "r") || Ascii.eqb (nth 0 s zero) (chr "y"))
    eqn:Hmain.
  { apply addHrpIfNeeded_id.
    destruct (isLengthValid (size (txref.BECH32_HRP_MAIN ++ bech32.separator :: s)));
      reflexivity. }
  destruct (Ascii.eqb (nth 0 s zero) (chr "x") || Ascii.eqb (nth 0 s zero) (chr "8"))
    eqn:Htest.
  { apply addHrpIfNeeded_id.
    destruct (isLengthValid (size (txref.BECH32_HRP_TEST ++ bech32.separator :: s)));
      reflexivity. }
  apply orb_false_iff in Htest as (Hx & H8).
  rewrite Hx, H8 in Hsig. discriminate Hsig.
Qed.

(** X12.  [addHrpIfNeeded] puts "tx1" in front of a string of 15 or 18
    characters that begins with 'r' or 'y', "txtest1" in front of one
    that begins with 'x' or '8', and returns every other string as it
    is; applying it twice is the same as applying it once. *)
Theorem addHrpIfNeeded_idempotent s :
  let valid := size s = 15 \/ size s = 18 in
  let first := nth 0 s zero in
  (valid /\ (first = chr "r" \/ first = chr "y") ->
   addHrpIfNeeded s = str "tx1" ++ s) /\
  (valid /\ (first = chr "x" \/ first = chr "8") ->
   addHrpIfNeeded s = str "txtest1" ++ s) /\
  (~ valid \/ is_sigil first = false -> addHrpIfNeeded s = s) /\
  addHrpIfNeeded (addHrpIfNeeded s) = addHrpIfNeeded s.
Proof.
  intros valid first. subst valid first.
  assert (Hvalid : isLengthValid (size s) = true <-> size s = 15 \/ size s = 18)
    by apply isLengthValid_spec.
  split; [|split; [|split]].
  - intros (Hv & Hf). unfold addHrpIfNeeded.
    rewrite (proj2 Hvalid Hv). destruct Hf as [-> | ->]; reflexivity.
  - intros (Hv & Hf). unfold addHrpIfNeeded.
    rewrite (proj2 Hvalid Hv). destruct Hf as [-> | ->]; reflexivity.
  - intros Hno. apply addHrpIfNeeded_id.
    destruct (isLengthValid (size s)) eqn:Hl; cbn [andb]; [|reflexivity].
    destruct Hno as [Hno | Hno]; [|exact Hno].
    elim Hno. now apply Hvalid.
  - apply addHrpIfNeeded_twice.
Qed.

Lemma addHrpIfNeeded_idempotent_witness :
  addHrpIfNeeded (str "rqqqqqqqqwtvvjr") = str "tx1rqqqqqqqqwtvvjr" /\
  addHrpIfNeeded (str "8qqqqqqqqqqqd5nsvl") = str "txtest18qqqqqqqqqqqd5nsvl" /\
  addHrpIfNeeded (str "tx1rqqqqqqqqwtvvjr") = str "tx1rqqqqqqqqwtvvjr".
Proof.
  split; [|split].
  - apply (proj1 (addHrpIfNeeded_idempotent (str "rqqqqqqqqwtvvjr"))).
    split; [now left | now left].
  - apply (proj1 (proj2 (addHrpIfNeeded_idempotent (str "8qqqqqqqqqqqd5nsvl")))).
    split; [now right | now right].
  - apply (proj1 (proj2 (proj2 (addHrpIfNeeded_idempotent
                                  (str "tx1rqqqqqqqqwtvvjr"))))).
    now right.
Defined.

Section DecodeCleaned.

Context {codec : bech32.Codec}.

(** [decode] looks at its argument through [stripUnknownChars] and
    [addHrpIfNeeded] only. *)
Lemma decode_cleaned s s' :
  addHrpIfNeeded (bech32.stripUnknownChars s)
  = addHrpIfNeeded (bech32.stripUnknownChars s') ->
  decode s = decode s'.
Proof. intros H. unfold decode. now rewrite H. Qed.

End DecodeCleaned.

Section Recovery.

Context {codec : bech32.Codec} {laws : bech32.Laws codec}.

Lemma strip_app prefix s :
  forallb bech32.isCodecChar prefix = true ->
  bech32.stripUnknownChars (prefix ++ s) = prefix ++ bech32.stripUnknownChars s.
Proof.
  intros Hprefix.
  destruct bech32.strip_filter as (kept & Hstrip & Hkept & _).
  rewrite !Hstrip, filter_app. f_equal.
  apply filter_all. revert Hprefix. now apply forallb_impl.
Qed.

(** What [decode] hands to the codec passes [stripUnknownChars]
    unchanged. *)
Lemma strip_cleaned s :
  bech32.stripUnknownChars (addHrpIfNeeded (bech32.stripUnknownChars s))
  = addHrpIfNeeded (bech32.stripUnknownChars s).
Proof.
  set (clean := bech32.stripUnknownChars s).
  assert (Hclean : bech32.stripUnknownChars clean = clean)
    by apply strip_idempotent.
  unfold addHrpIfNeeded.
  destruct (isLengthValid (size clean) && _).
  { change (txref.BECH32_HRP_MAIN ++ bech32.separator :: clean)
      with (str "tx1" ++ clean).
    now rewrite strip_app, Hclean. }
  destruct (isLengthValid (size clean) && _); [|exact Hclean].
  change (txref.BECH32_HRP_TEST ++ bech32.separator :: clean)
    with (str "txtest1" ++ clean).
  now rewrite strip_app, Hclean.
Qed.

End Recovery.

(** X13.  [decode] recovers a dropped HRP.  Under the contract of the
    codec, when the stripped input is 15 or 18 characters long and
    begins with 'r' or 'y', [decode] does what it does on the input with
    "tx1" in front; when it begins with 'x' or '8', what it does on the
    input with "txtest1" in front. *)
Theorem decode_recovers_hrp (codec : bech32.Codec) (laws : bech32.Laws codec) s :
  let clean := bech32.stripUnknownChars s in
  let first := nth 0 clean zero in
  size clean = 15 \/ size clean = 18 ->
  (first = chr "r" \/ first = chr "y" -> decode s = decode (str "tx1" ++ s)) /\
  (first = chr "x" \/ first = chr "8" -> decode s = decode (str "txtest1" ++ s)).
Proof.
  intros clean first Hvalid.
  apply isLengthValid_spec in Hvalid as Hlen.
  split; intros Hfirst; apply decode_cleaned; rewrite strip_app by reflexivity;
    fold clean.
  - rewrite (addHrpIfNeeded_id (str "tx1" ++ clean))
      by (destruct (isLengthValid (size (str "tx1" ++ clean))); reflexivity).
    unfold addHrpIfNeeded. rewrite Hlen. fold first.
    destruct Hfirst as [-> | ->]; reflexivity.
  - rewrite (addHrpIfNeeded_id (str "txtest1" ++ clean))
      by (destruct (isLengthValid (size (str "txtest1" ++ clean))); reflexivity).
    unfold addHrpIfNeeded. rewrite Hlen. fold first.
    destruct Hfirst as [-> | ->]; reflexivity.
Qed.

Lemma decode_recovers_hrp_witness :
  @decode libbech32.codec (str "rjk0-uqay-z9l7-m9m")
  = @decode libbech32.codec (str "tx1" ++ str "rjk0-uqay-z9l7-m9m") /\
  @decode libbech32.codec (str "8qqq-qqqq-qqqq-d5ns-vl")
  = @decode libbech32.codec (str "txtest1" ++ str "8qqq-qqqq-qqqq-d5ns-vl").
Proof.
  split.
  - apply (proj1 (decode_recovers_hrp libbech32.codec libbech32_laws
                    (str "rjk0-uqay-z9l7-m9m") (or_introl eq_refl))).
    now left.
  - apply (proj2 (decode_recovers_hrp libbech32.codec libbech32_laws
                    (str "8qqq-qqqq-qqqq-d5ns-vl") (or_intror eq_refl))).
    now right.
Defined.

Section DecodeContract.

Context {codec : bech32.Codec} {laws : bech32.Laws codec}.

(** Under the contract of the codec the pretty printer returns on the
    string of every answer with a payload, and stripping gives that
    string back. *)
Lemma pretty_of_answer s b :
  bech32.decode (addHrpIfNeeded (bech32.stripUnknownChars s)) = bech32.Return b ->
  2 <= size (bech32.dp b) ->
  exists pretty,
    prettyPrint (addHrpIfNeeded (bech32.stripUnknownChars s)) (size (bech32.hrp b))
    = Ok pretty /\
    bech32.stripUnknownChars pretty
    = addHrpIfNeeded (bech32.stripUnknownChars s).
Proof.
  intros Hb Hdp.
  assert (Hne : bech32.dp b <> [])
    by (intros Hnil; rewrite Hnil in Hdp; change (size (@nil Z)) with 0 in Hdp; lia).
  destruct (bech32.decode_shape _ b Hb Hne) as (Hlen & Hmax).
  fold (size (addHrpIfNeeded (bech32.stripUnknownChars s))) in Hlen, Hmax.
  fold (size (bech32.hrp b)) in Hlen. fold (size (bech32.dp b)) in Hlen.
  pose proof (size_nonneg (bech32.hrp b)).
  destruct bech32.strip_filter as (kept & Hstrip & Hkept & Hcolon & Hhyphen).
  destruct (prettyPrint_returns kept
              (addHrpIfNeeded (bech32.stripUnknownChars s)) (size (bech32.hrp b)))
    as (pretty & Hpretty & Hfilter);
    unfold bech32.MAX_HRP_LENGTH, is_length; try assumption; try lia.
  exists pretty. split; [exact Hpretty|].
  rewrite Hstrip, Hfilter, <- Hstrip. apply strip_cleaned.
Qed.

Lemma decode_rejects_version s b :
  bech32.decode (addHrpIfNeeded (bech32.stripUnknownChars s)) = bech32.Return b ->
  isDataSizeValid (size (bech32.dp b)) = true ->
  Z.land (nth 1 (bech32.dp b) 0) 1 <> 0 ->
  decode s = throw "Unknown txref version detected: 1".
Proof.
  intros Hb Hvalid Hversion.
  pose proof (proj1 (data_size_valid _) Hvalid) as Hsize.
  assert (Hne : bech32.dp b <> [])
    by (intros Hnil; rewrite Hnil in Hsize; change (size (@nil Z)) with 0 in Hsize; lia).
  assert (Hnonempty : ~ (bech32.hrp b = [] /\ bech32.dp b = [])) by tauto.
  destruct (extract_rejects_version (bech32.dp b)) as (Hheight & _);
    [lia | exact Hversion |].
  destruct (pretty_of_answer s b Hb) as (pretty & Hpretty & _); [lia|].
  rewrite (decode_extract s b Hb Hnonempty Hvalid). cbv zeta.
  rewrite extractMagicCode_returns by lia. cbn [bind].
  now rewrite Hpretty, Hheight.
Qed.

(** The formatted reference of a result is 20 or 24 characters longer
    than its HRP. *)
Lemma decoded_reference_size s r :
  decode s = Ok r ->
  size (txref.txref_ r) = size (txref.hrp r) + 20 \/
  size (txref.txref_ r) = size (txref.hrp r) + 24.
Proof.
  intros Hr.
  destruct (decode_inv s r Hr)
    as (b & Hb & _ & Hsize & _ & Hpretty & _ & _ & _ & Hhrp & _).
  apply data_size_valid in Hsize.
  assert (Hne : bech32.dp b <> [])
    by (intros Hnil; rewrite Hnil in Hsize; change (size (@nil Z)) with 0 in Hsize; lia).
  destruct (bech32.decode_shape _ b Hb Hne) as (Hlen & Hmax).
  fold (size (addHrpIfNeeded (bech32.stripUnknownChars s))) in Hlen, Hmax.
  fold (size (bech32.hrp b)) in Hlen. fold (size (bech32.dp b)) in Hlen.
  pose proof (size_nonneg (bech32.hrp b)).
  destruct (prettyPrint_grouped (addHrpIfNeeded (bech32.stripUnknownChars s))
              (size (bech32.hrp b))) as (Hout & Hsz);
    unfold is_length; try lia.
  rewrite Hpretty in Hout. injection Hout as Hout.
  rewrite Hhrp, Hout, Hsz, Hlen.
  destruct (Z.gtb_spec (size (bech32.hrp b) + size (bech32.dp b) + 7)
              (size (bech32.hrp b) + 1)); [|lia].
  replace (size (bech32.hrp b) + size (bech32.dp b) + 7 - size (bech32.hrp b) - 2)
    with (size (bech32.dp b) + 5) by lia.
  destruct Hsize as [-> | ->];
    [change ((9 + 5) / 4) with 3 | change ((12 + 5) / 4) with 4]; lia.
Qed.

End DecodeContract.

(** X14.  Decoding is stable on its own output.  Under the contract of
    the codec, the formatted reference that [decode] returns in the
    member [txref] strips back to the string that was handed to the
    codec, it is 20 or 24 characters longer than the HRP of the result,
    and decoding it gives the same result again. *)
Theorem decode_of_decoded (codec : bech32.Codec) (laws : bech32.Laws codec) s r :
  decode s = Ok r ->
  bech32.stripUnknownChars (txref.txref_ r)
  = addHrpIfNeeded (bech32.stripUnknownChars s) /\
  (size (txref.txref_ r) = size (txref.hrp r) + 20 \/
   size (txref.txref_ r) = size (txref.hrp r) + 24) /\
  decode (txref.txref_ r) = Ok r.
Proof.
  intros Hr. pose proof (decoded_reference_size s r Hr) as Hlength.
  destruct (decode_inv s r Hr) as (b & Hb & _ & Hsize & _ & Hpretty & _).
  apply data_size_valid in Hsize.
  destruct (pretty_of_answer s b Hb) as (pretty & Hpretty' & Hstrip); [lia|].
  rewrite Hpretty in Hpretty'. injection Hpretty' as <-.
  split; [exact Hstrip|]. split; [exact Hlength|].
  rewrite <- Hr. apply decode_cleaned.
  rewrite Hstrip. apply addHrpIfNeeded_twice.
Qed.

Lemma decode_of_decoded_witness :
  exists r,
    @decode libbech32.codec (str "rjk0uqayz9l7m9m") = Ok r /\
    txref.txref_ r = str "tx1:rjk0-uqay-z9l7-m9m" /\
    @decode libbech32.codec (txref.txref_ r) = Ok r.
Proof.
  assert (Hr : @decode libbech32.codec (str "rjk0uqayz9l7m9m")
               = Ok {| txref.hrp := str "tx";
                       txref.txref_ := str "tx1:rjk0-uqay-z9l7-m9m";
                       txref.blockHeight := 466793;
                       txref.transactionPosition := 2205;
                       txref.txoIndex := 0;
                       txref.magicCode := 3;
                       txref.encoding := txref.Bech32m;
                       txref.commentary := [] |}).
  { vm_compute. reflexivity. }
  eexists. split; [exact Hr|]. split; [reflexivity|].
  exact (proj2 (proj2 (decode_of_decoded libbech32.codec libbech32_laws _ _ Hr))).
Defined.

(** X15.  Every outcome of [decode] on a modern checksum.  Under the
    contract of the codec, when the codec answers with the encoding
    Bech32m, [decode] returns exactly when the answer is not the empty
    one, the payload has 9 or 12 symbols and the version bit is 0; the
    result then carries the HRP of the answer, its first symbol as magic
    code, the encoding Bech32m and no commentary; when [decode] throws,
    the exception is "checksum is invalid", "decoded dp size is
    incorrect" or the version error, never a format or range error; and
    it neither trips an assertion nor has undefined behaviour. *)
Theorem decode_modern_checksum (codec : bech32.Codec) (laws : bech32.Laws codec)
  s b :
  bech32.decode (addHrpIfNeeded (bech32.stripUnknownChars s)) = bech32.Return b ->
  bech32.encoding b = bech32.Bech32m ->
  let version := Z.land (nth 1 (bech32.dp b) 0) 1 in
  (returns (decode s) <->
   ~ (bech32.hrp b = [] /\ bech32.dp b = []) /\
   (size (bech32.dp b) = 9 \/ size (bech32.dp b) = 12) /\ version = 0) /\
  (forall r, decode s = Ok r ->
     txref.hrp r = bech32.hrp b /\ txref.magicCode r = nth 0 (bech32.dp b) 0 /\
     txref.encoding r = txref.Bech32m /\ txref.commentary r = []) /\
  (forall e, decode s = Throw e ->
     ChecksumError e \/ InvalidPayloadSize e \/ UnsupportedVersion e) /\
  decode s <> Abort /\ decode s <> Undefined.
Proof.
  intros Hb Hmodern version.
  assert (Hresult : forall r, decode s = Ok r ->
            txref.hrp r = bech32.hrp b /\
            txref.magicCode r = nth 0 (bech32.dp b) 0 /\
            txref.encoding r = txref.Bech32m /\ txref.commentary r = []).
  { intros r Hr.
    destruct (decode_inv s r Hr)
      as (b' & Hb' & _ & Hsize & Em & _ & _ & _ & _ & Hhrp & Henc).
    rewrite Hb in Hb'. injection Hb' as <-.
    rewrite Hmodern in Henc. destruct Henc as (Henc & Hcomment).
    apply data_size_valid in Hsize.
    rewrite extractMagicCode_returns in Em by lia. injection Em as Em.
    now repeat split. }
  destruct (Bool.bool_dec
              ((size (bech32.hrp b) =? 0) && (size (bech32.dp b) =? 0)) true)
    as [Hempty | Hnonempty].
  { apply both_empty in Hempty.
    rewrite (decode_checksum s b Hb Hempty).
    split; [split|split; [|split; [|split; discriminate]]].
    - intros (r & Hr). discriminate Hr.
    - intros (Hne & _). contradiction.
    - intros r Hr. discriminate Hr.
    - intros e [= <-]. now left. }
  assert (Hne : ~ (bech32.hrp b = [] /\ bech32.dp b = [])).
  { intros Hc. apply both_empty in Hc. contradiction. }
  destruct (isDataSizeValid (size (bech32.dp b))) eqn:Hsize.
  2:{ rewrite (decode_size s b Hb Hne Hsize).
      split; [split|split; [|split; [|split; discriminate]]].
      - intros (r & Hr). discriminate Hr.
      - intros (_ & Hvalid & _). apply data_size_valid in Hvalid. congruence.
      - intros r Hr. discriminate Hr.
      - intros e [= <-]. right. now left. }
  destruct (Z.eq_dec version 0) as [Hzero | Hversion].
  2:{ rewrite (decode_rejects_version s b Hb Hsize Hversion).
      split; [split|split; [|split; [|split; discriminate]]].
      - intros (r & Hr). discriminate Hr.
      - intros (_ & _ & Hz). contradiction.
      - intros r Hr. discriminate Hr.
      - intros e [= <-]. right. now right. }
  assert (Hreturns : returns (decode s)).
  { pose proof (proj1 (data_size_valid _) Hsize) as Hvalid.
    destruct (pretty_of_answer s b Hb) as (pretty & Hpretty & _); [lia|].
    destruct (extract_accepts_version (bech32.dp b) Hsize Hzero)
      as ((m & Em) & (h & Eh) & (p & Ep) & (t & Et)).
    rewrite (decode_extract s b Hb Hne Hsize). cbv zeta.
    rewrite Em, Hpretty, Eh, Ep, Et, Hmodern. cbn [bind].
    eexists. reflexivity. }
  destruct Hreturns as (r & Hr).
  split; [split|split; [|split; [|split]]].
  - intros _. split; [exact Hne|]. split; [now apply data_size_valid | exact Hzero].
  - intros _. now exists r.
  - exact Hresult.
  - intros e He. rewrite Hr in He. discriminate He.
  - rewrite Hr. discriminate.
  - rewrite Hr. discriminate.
Qed.

Lemma decode_modern_checksum_witness :
  returns (@decode libbech32.codec (str "tx1:rjk0-uqay-z9l7-m9m")) /\
  @decode libbech32.codec (str "tx1:rjk0-uqay-z9l7-m9m") <> Undefined.
Proof.
  assert (Hanswer : @bech32.decode libbech32.codec
                      (addHrpIfNeeded
                         (@bech32.stripUnknownChars libbech32.codec
                            (str "tx1:rjk0-uqay-z9l7-m9m")))
                    = bech32.Return
                        {| bech32.encoding := bech32.Bech32m;
                           bech32.hrp := str "tx";
                           bech32.dp := [3; 18; 22; 15; 28; 0; 29; 4; 2] |})
    by (vm_compute; reflexivity).
  destruct (decode_modern_checksum libbech32.codec libbech32_laws _ _
              Hanswer eq_refl) as (Hret & _ & _ & _ & Hundef).
  split; [|exact Hundef].
  apply Hret. split; [|split; [now left | reflexivity]].
  intros (Hc & _). discriminate Hc.
Defined.

(** X16.  The commentary of [decode] tells the legacy checksum.  When
    [decode] returns, the commentary is not empty exactly when the codec
    reported the encoding Bech32; the result then has the encoding
    Bech32 and the commentary quotes the formatted input and the
    reference that [txrefExtEncode] (for an extended magic code) or
    [txrefEncode] (for any other) returns for the decoded HRP, magic code
    and fields; for a payload of 5-bit symbols whose size agrees with the
    magic code that reference encodes the very payload that was
    decoded. *)
Theorem legacy_commentary (codec : bech32.Codec) s b r :
  bech32.decode (addHrpIfNeeded (bech32.stripUnknownChars s)) = bech32.Return b ->
  decode s = Ok r ->
  let extended_code :=
    (txref.magicCode r =? txref.MAGIC_BTC_MAIN_EXTENDED) ||
    (txref.magicCode r =? txref.MAGIC_BTC_TEST_EXTENDED) in
  let reencoded :=
    if extended_code
    then txrefExtEncode (txref.hrp r) (txref.magicCode r) (txref.blockHeight r)
           (txref.transactionPosition r) (txref.txoIndex r)
    else txrefEncode (txref.hrp r) (txref.magicCode r) (txref.blockHeight r)
           (txref.transactionPosition r) in
  (txref.commentary r <> [] <-> bech32.encoding b = bech32.Bech32) /\
  (bech32.encoding b = bech32.Bech32 ->
   txref.encoding r = txref.Bech32 /\
   exists updated,
     reencoded = Ok updated /\
     txref.commentary r = commentary_text (txref.txref_ r) updated) /\
  (forallb bech32.isSymbol (bech32.dp b) = true ->
   (extended_code = true <-> size (bech32.dp b) = 12) ->
   reencoded =
   (result <- call (bech32.encode (bech32.hrp b) (bech32.dp b)) ;;
    prettyPrint result (size (bech32.hrp b)))).
Proof.
  intros Hb Hr extended_code reencoded.
  destruct (decode_inv s r Hr)
    as (b' & Hb' & _ & Hsize & Em & _ & Eh & Ep & Et & Hhrp & Henc).
  rewrite Hb in Hb'. injection Hb' as <-.
  split; [|split].
  - destruct (bech32.encoding b).
    + destruct Henc as (_ & ->). split; [intros H; now elim H | discriminate].
    + destruct Henc as (_ & updated & _ & ->).
      split; [reflexivity | intros _; discriminate].
    + destruct Henc as (_ & ->). split; [intros H; now elim H | discriminate].
  - intros Hlegacy. rewrite Hlegacy in Henc. exact Henc.
  - intros Hsym Hagree.
    assert (Hv : Z.land (nth 1 (bech32.dp b) 0) 1 = 0).
    { destruct (Z.eq_dec (Z.land (nth 1 (bech32.dp b) 0) 1) 0) as [Hz | Hnz];
        [exact Hz|].
      apply data_size_valid in Hsize.
      destruct (extract_rejects_version (bech32.dp b)) as (Hthrow & _);
        [lia | exact Hnz |].
      rewrite Hthrow in Eh. discriminate Eh. }
    destruct (unpacked_fields (bech32.dp b) Hsym Hsize Hv) as
      (m & h & p & t & Em' & Eh' & Ep' & Et' & _ & Hm & Hh & Hp & Ht & H9 & H12).
    rewrite Em in Em'. rewrite Eh in Eh'. rewrite Ep in Ep'. rewrite Et in Et'.
    injection Em' as <-. injection Eh' as <-. injection Ep' as <-.
    injection Et' as <-.
    apply data_size_valid in Hsize.
    subst reencoded. rewrite Hhrp.
    destruct extended_code eqn:Hcode.
    + pose proof (proj1 Hagree eq_refl) as Htwelve.
      rewrite txrefExtEncode_in_range by assumption.
      subst extended_code. apply orb_true_iff in Hcode.
      rewrite !Z.eqb_eq in Hcode.
      rewrite (proj2 (proj2 (checkExtendedMagicCode_spec _)) Hcode). cbn [bind].
      now rewrite (H12 Htwelve).
    + assert (Hnine : size (bech32.dp b) = 9).
      { destruct Hsize as [H | H]; [exact H|].
        apply Hagree in H. discriminate H. }
      rewrite txrefEncode_in_range by assumption.
      now rewrite (proj2 (H9 Hnine)).
Qed.

Lemma legacy_commentary_witness :
  exists r updated,
    @decode libbech32.codec (str "tx1:rqqq-qqqq-qmhu-qhp") = Ok r /\
    txref.encoding r = txref.Bech32 /\
    @txrefEncode libbech32.codec (txref.hrp r) (txref.magicCode r)
      (txref.blockHeight r) (txref.transactionPosition r) = Ok updated /\
    updated = str "tx1:rqqq-qqqq-qwtv-vjr" /\
    txref.commentary r = commentary_text (txref.txref_ r) updated.
Proof.
  assert (Hanswer : @bech32.decode libbech32.codec
                      (addHrpIfNeeded
                         (@bech32.stripUnknownChars libbech32.codec
                            (str "tx1:rqqq-qqqq-qmhu-qhp")))
                    = bech32.Return
                        {| bech32.encoding := bech32.Bech32;
                           bech32.hrp := str "tx";
                           bech32.dp := [3; 0; 0; 0; 0; 0; 0; 0; 0] |})
    by (vm_compute; reflexivity).
  assert (Hr : @decode libbech32.codec (str "tx1:rqqq-qqqq-qmhu-qhp")
               = Ok {| txref.hrp := str "tx";
                       txref.txref_ := str "tx1:rqqq-qqqq-qmhu-qhp";
                       txref.blockHeight := 0;
                       txref.transactionPosition := 0;
                       txref.txoIndex := 0;
                       txref.magicCode := 3;
                       txref.encoding := txref.Bech32;
                       txref.commentary :=
                         commentary_text (str "tx1:rqqq-qqqq-qmhu-qhp")
                           (str "tx1:rqqq-qqqq-qwtv-vjr") |})
    by (vm_compute; reflexivity).
  destruct (legacy_commentary libbech32.codec _ _ _ Hanswer Hr)
    as (_ & Hlegacy & _).
  destruct (Hlegacy eq_refl) as (Henc & updated & Hupdated & Hcomment).
  eexists. exists updated.
  split; [exact Hr|]. split; [exact Henc|]. split; [exact Hupdated|].
  split; [|exact Hcomment].
  assert (Hu : @txrefEncode libbech32.codec (str "tx") 3 0 0
               = Ok (str "tx1:rqqq-qqqq-qwtv-vjr"))
    by (vm_compute; reflexivity).
  change (@txrefEncode libbech32.codec (str "tx") 3 0 0 = Ok updated) in Hupdated.
  rewrite Hu in Hupdated. now injection Hupdated as <-.
Defined.

Section WholeResult.

Context {codec : bech32.Codec} {laws : bech32.Laws codec}.

Lemma decode_encode_for testnet h p t forceExtended hrp s :
  forallb bech32.isCodecChar hrp = true ->
  mistaken_for_missing_hrp hrp (negb (t =? 0) || forceExtended) = false ->
  encode_for testnet h p t forceExtended hrp = Ok s ->
  decode s =
  Ok {| txref.hrp := hrp; txref.txref_ := s;
        txref.blockHeight := h; txref.transactionPosition := p;
        txref.txoIndex := t;
        txref.magicCode :=
          magic_code_of testnet (negb (t =? 0) || forceExtended);
        txref.encoding := txref.Bech32m; txref.commentary := [] |}.
Proof.
  intros Hhrp Hmistaken Hfor.
  assert (Hpath : (t =? 0) && negb forceExtended
                  = negb (negb (t =? 0) || forceExtended))
    by now rewrite negb_orb, negb_involutive.
  destruct (encode_for_Ok _ _ _ _ _ _ _ Hfor) as ((Hh & Hp & Ht) & _).
  assert (Hm : forall a b, 0 <= magic_code_of a b <= MAX_MAGIC_CODE)
    by (intros [] []; easy).
  revert Hfor. destruct testnet; unfold encode_for, encode, encodeTestnet;
    rewrite Hpath; destruct (negb (t =? 0) || forceExtended) eqn:Hext;
    cbn [negb magic_code_of]; intros Hfor.
  - apply (extended_roundtrip hrp txref.MAGIC_BTC_TEST_EXTENDED h p t s s);
      try assumption; [apply (Hm true true) | now left].
  - assert (t = 0) as ->.
    { apply orb_false_iff in Hext as (Hz & _).
      apply negb_false_iff, Z.eqb_eq in Hz. exact Hz. }
    apply (standard_roundtrip hrp txref.MAGIC_BTC_TEST h p s s);
      try assumption; [apply (Hm true false) | now left].
  - apply (extended_roundtrip hrp txref.MAGIC_BTC_MAIN_EXTENDED h p t s s);
      try assumption; [apply (Hm false true) | now left].
  - assert (t = 0) as ->.
    { apply orb_false_iff in Hext as (Hz & _).
      apply negb_false_iff, Z.eqb_eq in Hz. exact Hz. }
    apply (standard_roundtrip hrp txref.MAGIC_BTC_MAIN h p s s);
      try assumption; [apply (Hm false false) | now left].
Qed.

End WholeResult.

(** X17.  The whole result of decoding what was encoded.  Under the
    contract of the codec, with an HRP over the alphabet of the codec
    that is not taken for a missing one, [decode] on what [encode] or
    [encodeTestnet] returned gives back the HRP, the magic code of the
    network and the path, the three fields, the encoded string itself as
    formatted reference, the encoding Bech32m and no commentary. *)
Theorem decode_of_encoded (codec : bech32.Codec) (laws : bech32.Laws codec)
  h p t forceExtended hrp s :
  forallb bech32.isCodecChar hrp = true ->
  mistaken_for_missing_hrp hrp (negb (t =? 0) || forceExtended) = false ->
  let extended := negb (t =? 0) || forceExtended in
  (encode h p t forceExtended hrp = Ok s ->
   decode s =
   Ok {| txref.hrp := hrp; txref.txref_ := s;
         txref.blockHeight := h; txref.transactionPosition := p;
         txref.txoIndex := t;
         txref.magicCode := if extended then txref.MAGIC_BTC_MAIN_EXTENDED
                            else txref.MAGIC_BTC_MAIN;
         txref.encoding := txref.Bech32m; txref.commentary := [] |}) /\
  (encodeTestnet h p t forceExtended hrp = Ok s ->
   decode s =
   Ok {| txref.hrp := hrp; txref.txref_ := s;
         txref.blockHeight := h; txref.transactionPosition := p;
         txref.txoIndex := t;
         txref.magicCode := if extended then txref.MAGIC_BTC_TEST_EXTENDED
                            else txref.MAGIC_BTC_TEST;
         txref.encoding := txref.Bech32m; txref.commentary := [] |}).
Proof.
  intros Hhrp Hmistaken extended.
  split; intros Hs.
  - apply (decode_encode_for false h p t forceExtended hrp s Hhrp Hmistaken Hs).
  - apply (decode_encode_for true h p t forceExtended hrp s Hhrp Hmistaken Hs).
Qed.

Lemma decode_of_encoded_witness :
  @decode libbech32.codec (str "tx1:yqqq-qqqq-qpqq-pw4v-kq")
  = Ok {| txref.hrp := str "tx";
          txref.txref_ := str "tx1:yqqq-qqqq-qpqq-pw4v-kq";
          txref.blockHeight := 0; txref.transactionPosition := 0;
          txref.txoIndex := 1;
          txref.magicCode := txref.MAGIC_BTC_MAIN_EXTENDED;
          txref.encoding := txref.Bech32m; txref.commentary := [] |}.
Proof.
  assert (Hs : @encode libbech32.codec 0 0 1 false (str "tx")
               = Ok (str "tx1:yqqq-qqqq-qpqq-pw4v-kq"))
    by (vm_compute; reflexivity).
  exact (proj1 (decode_of_encoded libbech32.codec libbech32_laws 0 0 1 false
                  (str "tx") (str "tx1:yqqq-qqqq-qpqq-pw4v-kq")
                  eq_refl eq_refl) Hs).
Defined.

(** ** The C bindings *)

(** Copying a string and its terminator into an array. *)
Lemma write_string (s buffer : list ascii) :
  (b <- copy_n s (size s) buffer ;; store b (size s) zero) =
  if size s <? size buffer
  then Ok (s ++ zero :: skipn (S (List.length s)) buffer)
  else Undefined.
Proof.
  unfold copy_n. pose proof (size_nonneg s) as Hs.
  destruct (Z.leb_spec 0 (size s)); [|lia]. cbn [andb].
  destruct (Z.leb_spec (size s) (size buffer)) as [Hle | Hgt].
  - cbn [bind].
    replace (Z.to_nat (size s)) with (List.length s) by (unfold size; lia).
    rewrite firstn_all.
    destruct (Z.ltb_spec (size s) (size buffer)) as [Hlt | Hge].
    + destruct (skipn (List.length s) buffer) as [|c rest] eqn:Hskip.
      { apply (f_equal (@List.length ascii)) in Hskip.
        rewrite length_skipn in Hskip. cbn in Hskip. unfold size in Hlt. lia. }
      rewrite store_app. f_equal. f_equal. f_equal.
      change (S (List.length s)) with (1 + List.length s)%nat.
      rewrite <- skipn_skipn, Hskip. reflexivity.
    + unfold store.
      assert (Hsize : size (s ++ skipn (List.length s) buffer) = size s).
      { rewrite size_app. unfold size. rewrite length_skipn.
        unfold size in Hge, Hle. lia. }
      rewrite Hsize.
      destruct (Z.ltb_spec (size s) (size s)); [lia|].
      now rewrite andb_false_r.
  - destruct (Z.ltb_spec (size s) (size buffer)); [lia | reflexivity].
Qed.

Lemma size_bound_wrap (n len : Z) :
  0 <= n < 2 ^ 64 -> 1 <= len < 2 ^ 64 ->
  (n >? to_size_type (len - 1)) = (n >=? len).
Proof.
  intros Hn Hlen. rewrite to_size_type_small by lia.
  destruct (Z.gtb_spec n (len - 1)); destruct (Z.geb_spec n len); lia.
Qed.

Lemma size_bound_zero (n : Z) :
  0 <= n < 2 ^ 64 -> (n >? to_size_type (0 - 1)) = false.
Proof.
  intros Hn. change (to_size_type (0 - 1)) with (2 ^ 64 - 1).
  destruct (Z.gtb_spec n (2 ^ 64 - 1)); [lia | reflexivity].
Qed.

Section EncodeBinding.

Context {codec : bech32.Codec}.

Lemma txref_encode_after buffer txreflen h p t forceExtended hrpBytes hrplen
  inputHrp :
  c_str hrpBytes = Ok inputHrp ->
  txref_encode (Some buffer) txreflen h p t forceExtended (Some hrpBytes) hrplen
  = after_encoder buffer txreflen hrplen inputHrp
      (encode h p t forceExtended inputHrp).
Proof.
  intros Hhrp. unfold txref_encode, after_encoder. rewrite Hhrp. cbn [bind].
  destruct (size inputHrp >? to_size_type (hrplen - 1)); [reflexivity|].
  destruct (encode h p t forceExtended inputHrp) as [s| | |]; try reflexivity.
  destruct (size s >? to_size_type (txreflen - 1)); [reflexivity|].
  pose proof (write_string s buffer) as Hw.
  destruct (copy_n s (size s) buffer) as [b| | |]; cbn [bind] in Hw |- *;
    try (destruct (size s <? size buffer); (discriminate Hw || reflexivity)).
  destruct (store b (size s) zero) as [b'| | |]; cbn [bind];
    destruct (size s <? size buffer); try discriminate Hw; try reflexivity.
  now injection Hw as ->.
Qed.

Lemma txref_encodeTestnet_after buffer txreflen h p t forceExtended hrpBytes
  hrplen inputHrp :
  c_str hrpBytes = Ok inputHrp ->
  txref_encodeTestnet (Some buffer) txreflen h p t forceExtended
    (Some hrpBytes) hrplen
  = after_encoder buffer txreflen hrplen inputHrp
      (encodeTestnet h p t forceExtended inputHrp).
Proof.
  intros Hhrp. unfold txref_encodeTestnet, after_encoder. rewrite Hhrp. cbn [bind].
  destruct (size inputHrp >? to_size_type (hrplen - 1)); [reflexivity|].
  destruct (encodeTestnet h p t forceExtended inputHrp) as [s| | |];
    try reflexivity.
  destruct (size s >? to_size_type (txreflen - 1)); [reflexivity|].
  pose proof (write_string s buffer) as Hw.
  destruct (copy_n s (size s) buffer) as [b| | |]; cbn [bind] in Hw |- *;
    try (destruct (size s <? size buffer); (discriminate Hw || reflexivity)).
  destruct (store b (size s) zero) as [b'| | |]; cbn [bind];
    destruct (size s <? size buffer); try discriminate Hw; try reflexivity.
  now injection Hw as ->.
Qed.

End EncodeBinding.

(** X18.  The C bindings of the encoders.  [txref_encode] and
    [txref_encodeTestnet] answer E_TXREF_NULL_ARGUMENT for a null
    pointer.  With a buffer of at least [txreflen] >= 1 bytes and an
    [hrplen] >= 1 they answer E_TXREF_SUCCESS exactly when the HRP is
    shorter than [hrplen], the encoder returns and its string is
    shorter than [txreflen]; the buffer then holds that string and a
    null character, the bytes behind them unchanged.  With any other
    code the buffer is unchanged: E_TXREF_LENGTH_TOO_SHORT for an HRP
    or a string that does not fit, E_TXREF_UNKNOWN_ERROR for every
    exception of the encoder.  No exception leaves the binding, and
    under the contract of the codec, with an HRP over its alphabet, the
    binding always returns a code. *)
Theorem txref_encode_contract (codec : bech32.Codec)
  buffer txreflen h p t forceExtended hrpBytes hrplen inputHrp :
  c_str hrpBytes = Ok inputHrp ->
  1 <= hrplen < 2 ^ 64 ->
  1 <= txreflen <= size buffer -> txreflen < 2 ^ 64 ->
  let contract (answer : outcome (capi.txref_error * option (list ascii)))
               (encoded : outcome (list ascii)) :=
    (forall buffer',
       answer = Ok (capi.E_TXREF_SUCCESS, buffer') <->
       size inputHrp < hrplen /\
       exists s, encoded = Ok s /\ size s < txreflen /\
                 buffer' = Some (s ++ zero :: skipn (S (List.length s)) buffer)) /\
    (forall code buffer',
       answer = Ok (code, buffer') -> code <> capi.E_TXREF_SUCCESS ->
       buffer' = Some buffer /\
       ((code = capi.E_TXREF_LENGTH_TOO_SHORT /\
         (hrplen <= size inputHrp \/
          exists s, encoded = Ok s /\ txreflen <= size s)) \/
        (code = capi.E_TXREF_UNKNOWN_ERROR /\ size inputHrp < hrplen /\
         exists e, encoded = Throw e))) /\
    (forall e, answer <> Throw e) /\
    (bech32.Laws codec -> forallb bech32.isCodecChar inputHrp = true ->
     exists code buffer', answer = Ok (code, buffer')) in
  contract (txref_encode (Some buffer) txreflen h p t forceExtended
              (Some hrpBytes) hrplen)
           (encode h p t forceExtended inputHrp) /\
  contract (txref_encodeTestnet (Some buffer) txreflen h p t forceExtended
              (Some hrpBytes) hrplen)
           (encodeTestnet h p t forceExtended inputHrp) /\
  (forall txref hrp,
     txref = None \/ hrp = None ->
     txref_encode txref txreflen h p t forceExtended hrp hrplen
     = Ok (capi.E_TXREF_NULL_ARGUMENT, txref) /\
     txref_encodeTestnet txref txreflen h p t forceExtended hrp hrplen
     = Ok (capi.E_TXREF_NULL_ARGUMENT, txref)).
Proof.
  intros Hhrp Hhrplen Htxreflen Hmax contract.
  assert (Hgeneric : forall encoded,
            (bech32.Laws codec -> forallb bech32.isCodecChar inputHrp = true ->
             encoded <> Abort /\ encoded <> Undefined) ->
            contract (after_encoder buffer txreflen hrplen inputHrp encoded)
              encoded).
  { intros encoded Hsafe. subst contract. cbv beta. unfold after_encoder.
    rewrite !to_size_type_small by lia.
    destruct (Z.gtb_spec (size inputHrp) (hrplen - 1)) as [Hlong | Hfits].
    { split; [|split; [|split]].
      - intros buffer'. split; [discriminate | intros (Hc & _); lia].
      - intros code buffer' [= <- <-] _. split; [reflexivity|].
        left. split; [reflexivity | left; lia].
      - discriminate.
      - intros _ _. now eexists; eexists. }
    destruct encoded as [s | e | |].
    - destruct (Z.gtb_spec (size s) (txreflen - 1)) as [Hbig | Hsmall].
      { split; [|split; [|split]].
        - intros buffer'. split; [discriminate|].
          intros (_ & s' & [= <-] & Hc & _). lia.
        - intros code buffer' [= <- <-] _. split; [reflexivity|].
          left. split; [reflexivity|]. right. exists s. split; [reflexivity | lia].
        - discriminate.
        - intros _ _. now eexists; eexists. }
      destruct (Z.ltb_spec (size s) (size buffer)); [|lia].
      split; [|split; [|split]].
      + intros buffer'. split.
        * intros [= <-]. split; [lia|]. exists s. repeat split. lia.
        * intros (_ & s' & [= <-] & _ & ->). reflexivity.
      + intros code buffer' [= <- <-] Hc. now elim Hc.
      + discriminate.
      + intros _ _. now eexists; eexists.
    - split; [|split; [|split]].
      + intros buffer'. split; [discriminate|].
        intros (_ & s' & Hc & _). discriminate Hc.
      + intros code buffer' [= <- <-] _. split; [reflexivity|].
        right. split; [reflexivity|]. split; [lia | now exists e].
      + discriminate.
      + intros _ _. now eexists; eexists.
    - split; [|split; [|split]].
      + intros buffer'. split; [discriminate|].
        intros (_ & s' & Hc & _). discriminate Hc.
      + intros code buffer' Hc. discriminate Hc.
      + discriminate.
      + intros Hlaws Hchars. now destruct (Hsafe Hlaws Hchars) as (Hc & _).
    - split; [|split; [|split]].
      + intros buffer'. split; [discriminate|].
        intros (_ & s' & Hc & _). discriminate Hc.
      + intros code buffer' Hc. discriminate Hc.
      + discriminate.
      + intros Hlaws Hchars. now destruct (Hsafe Hlaws Hchars) as (_ & Hc). }
  split; [|split].
  - rewrite (txref_encode_after _ _ _ _ _ _ _ _ _ Hhrp). apply Hgeneric.
    intros Hlaws Hchars.
    destruct (@encode_for_outcome codec Hlaws false h p t forceExtended
                inputHrp Hchars) as (_ & _ & Habort & Hundef).
    now split.
  - rewrite (txref_encodeTestnet_after _ _ _ _ _ _ _ _ _ Hhrp). apply Hgeneric.
    intros Hlaws Hchars.
    destruct (@encode_for_outcome codec Hlaws true h p t forceExtended
                inputHrp Hchars) as (_ & _ & Habort & Hundef).
    now split.
  - intros txref hrp [-> | ->]; [now split|].
    destruct txref; now split.
Qed.

Lemma txref_encode_contract_witness :
  @txref_encode libbech32.codec (Some (repeat (chr "x") 32)) 32 0 0 0 false
    (Some (str "tx" ++ [zero])) 3
  = Ok (capi.E_TXREF_SUCCESS,
        Some (str "tx1:rqqq-qqqq-qwtv-vjr" ++ zero :: repeat (chr "x") 9)) /\
  @txref_encode libbech32.codec (Some (repeat (chr "x") 32)) 32 0 0 0 false
    None 3
  = Ok (capi.E_TXREF_NULL_ARGUMENT, Some (repeat (chr "x") 32)).
Proof.
  assert (Hs : @encode libbech32.codec 0 0 0 false (str "tx")
               = Ok (str "tx1:rqqq-qqqq-qwtv-vjr"))
    by (vm_compute; reflexivity).
  pose proof (txref_encode_contract libbech32.codec (repeat (chr "x") 32) 32
                0 0 0 false (str "tx" ++ [zero]) 3 (str "tx") eq_refl) as H.
  destruct H as ((Hsuccess & _) & _ & Hnull);
    [lia | vm_compute; intuition discriminate | lia |].
  split.
  - apply Hsuccess. split; [reflexivity|].
    exists (str "tx1:rqqq-qqqq-qwtv-vjr").
    split; [exact Hs|]. split; reflexivity.
  - apply (Hnull (Some (repeat (chr "x") 32)) None). now right.
Defined.

(** X19.  A length of 0 disables the length checks of the bindings.
    [hrplen - 1] and [txreflen - 1] are computed in [size_t]: for a
    length of 0 they are the largest value of the type, and no string
    is longer.  With [txreflen] 0 the binding never answers
    E_TXREF_LENGTH_TOO_SHORT for the encoded string: it writes the
    string when the buffer is longer than it, and has undefined
    behaviour otherwise, as on a buffer of no bytes. *)
Theorem txref_encode_length_zero (codec : bech32.Codec)
  buffer h p t forceExtended hrpBytes hrplen inputHrp :
  c_str hrpBytes = Ok inputHrp ->
  size inputHrp < 2 ^ 64 ->
  size inputHrp < hrplen < 2 ^ 64 \/ hrplen = 0 ->
  (forall s,
     encode h p t forceExtended inputHrp = Ok s -> size s < 2 ^ 64 ->
     txref_encode (Some buffer) 0 h p t forceExtended (Some hrpBytes) hrplen
     = if size s <? size buffer
       then Ok (capi.E_TXREF_SUCCESS,
                Some (s ++ zero :: skipn (S (List.length s)) buffer))
       else Undefined) /\
  (forall s,
     encodeTestnet h p t forceExtended inputHrp = Ok s -> size s < 2 ^ 64 ->
     txref_encodeTestnet (Some buffer) 0 h p t forceExtended (Some hrpBytes) hrplen
     = if size s <? size buffer
       then Ok (capi.E_TXREF_SUCCESS,
                Some (s ++ zero :: skipn (S (List.length s)) buffer))
       else Undefined).
Proof.
  intros Hhrp Hsize Hhrplen.
  pose proof (size_nonneg inputHrp) as Hnn.
  assert (Hcheck : (size inputHrp >? to_size_type (hrplen - 1)) = false).
  { destruct Hhrplen as [Hfits | ->].
    - rewrite size_bound_wrap by lia.
      destruct (Z.geb_spec (size inputHrp) hrplen); [lia | reflexivity].
    - apply size_bound_zero. lia. }
  split; intros s Hs Hssize; pose proof (size_nonneg s).
  - rewrite (txref_encode_after _ _ _ _ _ _ _ _ _ Hhrp). unfold after_encoder.
    rewrite Hcheck, Hs, size_bound_zero by lia. reflexivity.
  - rewrite (txref_encodeTestnet_after _ _ _ _ _ _ _ _ _ Hhrp).
    unfold after_encoder.
    rewrite Hcheck, Hs, size_bound_zero by lia. reflexivity.
Qed.

Lemma txref_encode_length_zero_witness :
  @txref_encode libbech32.codec (Some []) 0 0 0 0 false
    (Some (str "tx" ++ [zero])) 0
  = Undefined.
Proof.
  assert (Hs : @encode libbech32.codec 0 0 0 false (str "tx")
               = Ok (str "tx1:rqqq-qqqq-qwtv-vjr"))
    by (vm_compute; reflexivity).
  destruct (txref_encode_length_zero libbech32.codec [] 0 0 0 false
              (str "tx" ++ [zero]) 0 (str "tx") eq_refl) as (Hmain & _);
    [vm_compute; reflexivity | now right |].
  rewrite (Hmain _ Hs); [reflexivity | vm_compute; reflexivity].
Defined.

Section DecodeBinding.

Context {codec : bech32.Codec}.

Lemma write_fresh (s : list ascii) :
  size s + 1 < 2 ^ 64 ->
  match calloc true (to_size_type (size s + 1)) with
  | None => Undefined
  | Some commentary =>
      commentary <- copy_n s (size s) commentary ;;
      commentary <- store commentary (size s) zero ;;
      Ok (Some commentary)
  end = Ok (Some (s ++ [zero])).
Proof.
  intros Hs. pose proof (size_nonneg s) as Hnn.
  rewrite to_size_type_small by lia. unfold calloc.
  pose proof (write_string s (repeat zero (Z.to_nat (size s + 1)))) as Hw.
  rewrite size_repeat in Hw.
  destruct (Z.ltb_spec (size s) (Z.of_nat (Z.to_nat (size s + 1)))); [|lia].
  destruct (copy_n s (size s) _) as [b| | |]; cbn [bind] in Hw |- *;
    try discriminate Hw.
  rewrite Hw. cbn [bind]. f_equal. f_equal. f_equal. f_equal.
  apply skipn_all2. rewrite repeat_length. unfold size. lia.
Qed.

(** What [txref_decode] does once [decode] returned [d]. *)
Lemma txref_decode_after available result txrefBuffer hrpBuffer txrefBytes
  txreflen inputTxref d :
  capi.txref_ result = Some txrefBuffer ->
  capi.hrp result = Some hrpBuffer ->
  c_str txrefBytes = Ok inputTxref ->
  (size inputTxref >? to_size_type (txreflen - 1)) = false ->
  decode inputTxref = Ok d ->
  size (txref.commentary d) + 1 < 2 ^ 64 ->
  txref_decode available (Some result) (Some txrefBytes) txreflen =
  if (size (txref.hrp d) <? size hrpBuffer) &&
     (size (txref.txref_ d) <? size txrefBuffer) &&
     ((size (txref.commentary d) =? 0) || available)
  then
    Ok (capi.E_TXREF_SUCCESS,
        Some {| capi.txref_ :=
                  Some (txref.txref_ d ++ zero
                        :: skipn (S (List.length (txref.txref_ d))) txrefBuffer);
                capi.txreflen := capi.txreflen result;
                capi.hrp :=
                  Some (txref.hrp d ++ zero
                        :: skipn (S (List.length (txref.hrp d))) hrpBuffer);
                capi.hrplen := capi.hrplen result;
                capi.magicCode := txref.magicCode d;
                capi.blockHeight := txref.blockHeight d;
                capi.transactionPosition := txref.transactionPosition d;
                capi.txoIndex := txref.txoIndex d;
                capi.encoding := txref.encoding d;
                capi.commentary :=
                  if size (txref.commentary d) =? 0
                  then capi.commentary result
                  else Some (txref.commentary d ++ [zero]) |})
  else Undefined.
Proof.
  intros Htxref Hhrp Hin Hlen Hd Hc.
  unfold txref_decode. rewrite Htxref, Hhrp, Hin. cbn [bind].
  rewrite Hlen, Hd.
  pose proof (write_string (txref.hrp d) hrpBuffer) as Hw1.
  destruct (copy_n (txref.hrp d) (size (txref.hrp d)) hrpBuffer) as [b1| | |];
    cbn [bind] in Hw1 |- *;
    try (destruct (size (txref.hrp d) <? size hrpBuffer);
         (discriminate Hw1 || reflexivity)).
  destruct (store b1 (size (txref.hrp d)) zero) as [b1'| | |]; cbn [bind];
    destruct (size (txref.hrp d) <? size hrpBuffer);
    try discriminate Hw1; try reflexivity.
  injection Hw1 as ->. cbn [andb].
  pose proof (write_string (txref.txref_ d) txrefBuffer) as Hw2.
  destruct (copy_n (txref.txref_ d) (size (txref.txref_ d)) txrefBuffer)
    as [b2| | |]; cbn [bind] in Hw2 |- *;
    try (destruct (size (txref.txref_ d) <? size txrefBuffer);
         (discriminate Hw2 || reflexivity)).
  destruct (store b2 (size (txref.txref_ d)) zero) as [b2'| | |]; cbn [bind];
    destruct (size (txref.txref_ d) <? size txrefBuffer);
    try discriminate Hw2; try reflexivity.
  injection Hw2 as ->. cbn [andb].
  destruct (size (txref.commentary d) =? 0); cbn [negb orb bind];
    [reflexivity|].
  destruct available; [|reflexivity].
  rewrite (write_fresh _ Hc). reflexivity.
Qed.

End DecodeBinding.

(** X20.  The C binding of [decode].  With a result whose two arrays are
    not null and a null-terminated input: for [txreflen] >= 1,
    [txref_decode] answers E_TXREF_LENGTH_TOO_SHORT, the result left as
    it was, when the input is not shorter than [txreflen]; for
    [txreflen] 0 the bound [txreflen - 1] wraps in [size_t] and the
    check lets every input pass.  On an input that passes,
    [txref_decode] never answers E_TXREF_LENGTH_TOO_SHORT, and it
    answers E_TXREF_UNKNOWN_ERROR for every exception of [decode],
    leaving the result as it was.  When [decode] returns, the HRP and
    the formatted reference are copied without a look at the members
    [hrplen] and [txreflen]: the binding answers E_TXREF_SUCCESS, the
    two arrays holding the null-terminated strings and the integer
    members the decoded fields, when the HRP is shorter than its array,
    the formatted reference is shorter than its array and the
    commentary, if there is one, could be allocated; otherwise its
    behaviour is undefined.  No exception leaves the binding. *)
Theorem txref_decode_contract (codec : bech32.Codec)
  available result txrefBuffer hrpBuffer txrefBytes txreflen inputTxref :
  capi.txref_ result = Some txrefBuffer ->
  capi.hrp result = Some hrpBuffer ->
  c_str txrefBytes = Ok inputTxref ->
  0 <= txreflen < 2 ^ 64 ->
  let answer := txref_decode available (Some result) (Some txrefBytes) txreflen in
  let passes :=
    size inputTxref < txreflen \/
    (txreflen = 0 /\ size inputTxref < 2 ^ 64) in
  (1 <= txreflen -> txreflen <= size inputTxref ->
   answer = Ok (capi.E_TXREF_LENGTH_TOO_SHORT, Some result)) /\
  (passes ->
   forall result', answer <> Ok (capi.E_TXREF_LENGTH_TOO_SHORT, result')) /\
  (passes ->
   forall e, decode inputTxref = Throw e ->
   answer = Ok (capi.E_TXREF_UNKNOWN_ERROR, Some result)) /\
  (passes ->
   forall d, decode inputTxref = Ok d ->
   size (txref.commentary d) + 1 < 2 ^ 64 ->
   let fits :=
     size (txref.hrp d) < size hrpBuffer /\
     size (txref.txref_ d) < size txrefBuffer /\
     (txref.commentary d = [] \/ available = true) in
   (fits ->
    answer =
    Ok (capi.E_TXREF_SUCCESS,
        Some {| capi.txref_ :=
                  Some (txref.txref_ d ++ zero
                        :: skipn (S (List.length (txref.txref_ d))) txrefBuffer);
                capi.txreflen := capi.txreflen result;
                capi.hrp :=
                  Some (txref.hrp d ++ zero
                        :: skipn (S (List.length (txref.hrp d))) hrpBuffer);
                capi.hrplen := capi.hrplen result;
                capi.magicCode := txref.magicCode d;
                capi.blockHeight := txref.blockHeight d;
                capi.transactionPosition := txref.transactionPosition d;
                capi.txoIndex := txref.txoIndex d;
                capi.encoding := txref.encoding d;
                capi.commentary :=
                  if size (txref.commentary d) =? 0
                  then capi.commentary result
                  else Some (txref.commentary d ++ [zero]) |})) /\
   (~ fits -> answer = Undefined)) /\
  (forall e, answer <> Throw e).
Proof.
  intros Htxref Hhrp Hin Hlen answer passes.
  pose proof (size_nonneg inputTxref) as Hnn.
  assert (Hfire : 1 <= txreflen -> txreflen <= size inputTxref ->
                  (size inputTxref >? to_size_type (txreflen - 1)) = true).
  { intros Hone Hlong. rewrite to_size_type_small by lia.
    destruct (Z.gtb_spec (size inputTxref) (txreflen - 1)); [reflexivity | lia]. }
  assert (Hpass : passes ->
                  (size inputTxref >? to_size_type (txreflen - 1)) = false).
  { intros [Hshort | (Hzero & Hsmall)].
    - rewrite to_size_type_small by lia.
      destruct (Z.gtb_spec (size inputTxref) (txreflen - 1)); [lia | reflexivity].
    - rewrite Hzero. apply size_bound_zero. lia. }
  assert (Hstart : answer =
            if size inputTxref >? to_size_type (txreflen - 1)
            then Ok (capi.E_TXREF_LENGTH_TOO_SHORT, Some result)
            else match decode inputTxref with
                 | Throw _ => Ok (capi.E_TXREF_UNKNOWN_ERROR, Some result)
                 | Abort => Abort
                 | Undefined => Undefined
                 | Ok d => answer
                 end).
  { subst answer. unfold txref_decode. rewrite Htxref, Hhrp, Hin. cbn [bind].
    destruct (size inputTxref >? to_size_type (txreflen - 1)); [reflexivity|].
    destruct (decode inputTxref); reflexivity. }
  assert (Hcopied : forall d,
            (size inputTxref >? to_size_type (txreflen - 1)) = false ->
            decode inputTxref = Ok d ->
            answer = Undefined \/
            exists result', answer = Ok (capi.E_TXREF_SUCCESS, result')).
  { intros d Hc Hd.
    subst answer. unfold txref_decode. rewrite Htxref, Hhrp, Hin. cbn [bind].
    rewrite Hc, Hd. unfold copy_n, store, calloc.
    repeat match goal with
           | |- context [if ?b then _ else _] => destruct b; cbn [bind]
           end;
      first [left; reflexivity | right; eexists; reflexivity]. }
  split; [|split; [|split; [|split]]].
  - intros Hone Hlong. rewrite Hstart, (Hfire Hone Hlong). reflexivity.
  - intros Hp result'. rewrite Hstart, (Hpass Hp).
    destruct (decode inputTxref) as [d | e' | |] eqn:Hd; try discriminate.
    destruct (Hcopied d (Hpass Hp) eq_refl) as [Hu | (r & Hr)];
      [rewrite Hu | rewrite Hr]; discriminate.
  - intros Hp e He. rewrite Hstart, (Hpass Hp), He. reflexivity.
  - intros Hp d Hd Hc fits.
    pose proof (txref_decode_after available result txrefBuffer hrpBuffer
                  txrefBytes txreflen inputTxref d Htxref Hhrp Hin (Hpass Hp) Hd Hc)
      as Hafter.
    fold answer in Hafter.
    assert (Hfits : (size (txref.hrp d) <? size hrpBuffer) &&
                    (size (txref.txref_ d) <? size txrefBuffer) &&
                    ((size (txref.commentary d) =? 0) || available) = true
                    <-> fits).
    { subst fits. rewrite !andb_true_iff, orb_true_iff, !Z.ltb_lt.
      rewrite size_zero. tauto. }
    split.
    + intros Hyes. apply Hfits in Hyes. now rewrite Hyes in Hafter.
    + intros Hno.
      destruct ((size (txref.hrp d) <? size hrpBuffer) &&
                (size (txref.txref_ d) <? size txrefBuffer) &&
                ((size (txref.commentary d) =? 0) || available));
        [elim Hno; now apply Hfits | exact Hafter].
  - intros e. rewrite Hstart.
    destruct (size inputTxref >? to_size_type (txreflen - 1)) eqn:Hc;
      [discriminate|].
    destruct (decode inputTxref) as [d | e' | |] eqn:Hd; try discriminate.
    destruct (Hcopied d eq_refl eq_refl) as [Hu | (r & Hr)];
      [rewrite Hu | rewrite Hr]; discriminate.
Qed.

Lemma txref_decode_contract_witness :
  (exists result,
     @txref_decode libbech32.codec false
       (Some {| capi.txref_ := Some (repeat zero 31); capi.txreflen := 0;
                capi.hrp := Some (repeat zero 8); capi.hrplen := 0;
                capi.magicCode := 0; capi.blockHeight := 0;
                capi.transactionPosition := 0; capi.txoIndex := 0;
                capi.encoding := txref.Invalid; capi.commentary := None |})
       (Some (str "tx1:rjk0-uqay-z9l7-m9m" ++ [zero])) 23
     = Ok (capi.E_TXREF_SUCCESS, Some result) /\
     capi.blockHeight result = 466793 /\
     capi.transactionPosition result = 2205 /\
     capi.hrp result = Some (str "tx" ++ repeat zero 6)) /\
  (forall result',
     @txref_decode libbech32.codec false
       (Some {| capi.txref_ := Some (repeat zero 31); capi.txreflen := 0;
                capi.hrp := Some (repeat zero 8); capi.hrplen := 0;
                capi.magicCode := 0; capi.blockHeight := 0;
                capi.transactionPosition := 0; capi.txoIndex := 0;
                capi.encoding := txref.Invalid; capi.commentary := None |})
       (Some (str "tx1:rjk0-uqay-z9l7-m9m" ++ [zero])) 0
     <> Ok (capi.E_TXREF_LENGTH_TOO_SHORT, result')).
Proof.
  assert (Hd : @decode libbech32.codec (str "tx1:rjk0-uqay-z9l7-m9m")
               = Ok {| txref.hrp := str "tx";
                       txref.txref_ := str "tx1:rjk0-uqay-z9l7-m9m";
                       txref.blockHeight := 466793;
                       txref.transactionPosition := 2205;
                       txref.txoIndex := 0;
                       txref.magicCode := 3;
                       txref.encoding := txref.Bech32m;
                       txref.commentary := [] |})
    by (vm_compute; reflexivity).
  split.
  - pose proof (txref_decode_contract libbech32.codec false
                  {| capi.txref_ := Some (repeat zero 31); capi.txreflen := 0;
                     capi.hrp := Some (repeat zero 8); capi.hrplen := 0;
                     capi.magicCode := 0; capi.blockHeight := 0;
                     capi.transactionPosition := 0; capi.txoIndex := 0;
                     capi.encoding := txref.Invalid; capi.commentary := None |}
                  (repeat zero 31) (repeat zero 8)
                  (str "tx1:rjk0-uqay-z9l7-m9m" ++ [zero]) 23
                  (str "tx1:rjk0-uqay-z9l7-m9m") eq_refl eq_refl eq_refl) as H.
    destruct H as (_ & _ & _ & Hreturned & _); [lia|].
    assert (Hpasses : size (str "tx1:rjk0-uqay-z9l7-m9m") < 23 \/
                      (23 = 0 /\ size (str "tx1:rjk0-uqay-z9l7-m9m") < 2 ^ 64))
      by (left; vm_compute; reflexivity).
    destruct (Hreturned Hpasses _ Hd ltac:(vm_compute; reflexivity))
      as (Hfits & _).
    eexists. split.
    + apply Hfits. split; [vm_compute; reflexivity|].
      split; [vm_compute; reflexivity | now left].
    + repeat split.
  - pose proof (txref_decode_contract libbech32.codec false
                  {| capi.txref_ := Some (repeat zero 31); capi.txreflen := 0;
                     capi.hrp := Some (repeat zero 8); capi.hrplen := 0;
                     capi.magicCode := 0; capi.blockHeight := 0;
                     capi.transactionPosition := 0; capi.txoIndex := 0;
                     capi.encoding := txref.Invalid; capi.commentary := None |}
                  (repeat zero 31) (repeat zero 8)
                  (str "tx1:rjk0-uqay-z9l7-m9m" ++ [zero]) 0
                  (str "tx1:rjk0-uqay-z9l7-m9m") eq_refl eq_refl eq_refl) as H.
    destruct H as (_ & Hnever & _); [lia|].
    apply Hnever. right. split; [reflexivity | vm_compute; reflexivity].
Defined.

Section Storage.

Variable TXREF_MAX_LENGTH : Z.
Variable encoding_zero : txref.Encoding.
Hypothesis TXREF_MAX_LENGTH_size : 0 <= TXREF_MAX_LENGTH < 2 ^ 63.

Lemma storage_created :
  create_DecodedResult_storage TXREF_MAX_LENGTH encoding_zero true true true
  = Some {| capi.txref_ := Some (repeat zero (Z.to_nat (TXREF_MAX_LENGTH + 1)));
            capi.txreflen := TXREF_MAX_LENGTH + 1;
            capi.hrp := Some (repeat zero 8);
            capi.hrplen := 8;
            capi.magicCode := 0;
            capi.blockHeight := 0;
            capi.transactionPosition := 0;
            capi.txoIndex := 0;
            capi.encoding := encoding_zero;
            capi.commentary := None |}.
Proof.
  unfold create_DecodedResult_storage, create_Txref_storage, max_Txref_length,
    calloc.
  cbn [negb]. cbv zeta.
  rewrite (to_size_type_small TXREF_MAX_LENGTH) by lia.
  rewrite (to_size_type_small (TXREF_MAX_LENGTH + 1)) by lia.
  reflexivity.
Qed.

End Storage.

(** X21.  The storage of [create_DecodedResult_storage] and
    [txref_decode].  When its three allocations succeed the storage has
    an array of 8 bytes for the HRP and one of [TXREF_MAX_LENGTH] + 1
    bytes for the formatted reference.  Under the contract of the codec,
    when [decode] returns on the input (the commentary, if any, being
    allocated), [txref_decode] answers E_TXREF_SUCCESS on that storage
    exactly when the decoded HRP has at most 7 characters and the
    formatted reference, which is 20 or 24 characters longer than the
    HRP, has at most [TXREF_MAX_LENGTH]; for a longer HRP or reference
    the copy runs past the array and the behaviour is undefined. *)
Theorem decode_into_storage (codec : bech32.Codec) (laws : bech32.Laws codec)
  (TXREF_MAX_LENGTH : Z) (encoding_zero : txref.Encoding)
  available txrefBytes txreflen inputTxref d :
  0 <= TXREF_MAX_LENGTH < 2 ^ 63 ->
  c_str txrefBytes = Ok inputTxref ->
  size inputTxref < txreflen -> txreflen < 2 ^ 64 ->
  decode inputTxref = Ok d ->
  txref.commentary d = [] \/
  (available = true /\ size (txref.commentary d) + 1 < 2 ^ 64) ->
  let storage :=
    create_DecodedResult_storage TXREF_MAX_LENGTH encoding_zero true true true in
  let answer := txref_decode available storage (Some txrefBytes) txreflen in
  (exists result,
     storage = Some result /\
     capi.hrp result = Some (repeat zero 8) /\
     capi.txref_ result = Some (repeat zero (Z.to_nat (TXREF_MAX_LENGTH + 1)))) /\
  (size (txref.txref_ d) = size (txref.hrp d) + 20 \/
   size (txref.txref_ d) = size (txref.hrp d) + 24) /\
  ((exists result, answer = Ok (capi.E_TXREF_SUCCESS, result)) <->
   size (txref.hrp d) <= 7 /\ size (txref.txref_ d) <= TXREF_MAX_LENGTH) /\
  (7 < size (txref.hrp d) \/ TXREF_MAX_LENGTH < size (txref.txref_ d) ->
   answer = Undefined).
Proof.
  intros Hmax Hin Hshort Hlen Hd Hcomment storage answer.
  pose proof (size_nonneg inputTxref) as Hnn.
  pose proof (storage_created TXREF_MAX_LENGTH encoding_zero Hmax) as Hstorage.
  fold storage in Hstorage.
  assert (Hc : size (txref.commentary d) + 1 < 2 ^ 64).
  { destruct Hcomment as [-> | (_ & Hc)]; [reflexivity | exact Hc]. }
  assert (Hokay : txref.commentary d = [] \/ available = true)
    by (destruct Hcomment as [Hc' | (Hc' & _)]; [now left | now right]).
  subst answer. rewrite Hstorage.
  match goal with
  | |- context [txref_decode available (Some ?r) _ _] => set (result := r)
  end.
  assert (Hpass : (size inputTxref >? to_size_type (txreflen - 1)) = false).
  { rewrite to_size_type_small by lia.
    destruct (Z.gtb_spec (size inputTxref) (txreflen - 1)); [lia | reflexivity]. }
  pose proof (txref_decode_after available result
                (repeat zero (Z.to_nat (TXREF_MAX_LENGTH + 1))) (repeat zero 8)
                txrefBytes txreflen inputTxref d eq_refl eq_refl Hin Hpass Hd Hc)
    as Hafter.
  assert (Hfits : size (txref.hrp d) < size (repeat zero 8) /\
                  size (txref.txref_ d)
                  < size (repeat zero (Z.to_nat (TXREF_MAX_LENGTH + 1))) ->
                  exists result',
                    txref_decode available (Some result) (Some txrefBytes) txreflen
                    = Ok (capi.E_TXREF_SUCCESS, result')).
  { intros (H1 & H2). rewrite Hafter.
    apply Z.ltb_lt in H1, H2. rewrite H1, H2. cbn [andb].
    destruct Hokay as [-> | ->]; [|rewrite orb_true_r]; eexists; reflexivity. }
  assert (Hoverflow : ~ (size (txref.hrp d) < size (repeat zero 8) /\
                         size (txref.txref_ d)
                         < size (repeat zero (Z.to_nat (TXREF_MAX_LENGTH + 1)))) ->
                      txref_decode available (Some result) (Some txrefBytes) txreflen
                      = Undefined).
  { intros Hno. rewrite Hafter.
    destruct (Z.ltb_spec (size (txref.hrp d)) (size (repeat zero 8)));
      [|reflexivity].
    destruct (Z.ltb_spec (size (txref.txref_ d))
                (size (repeat zero (Z.to_nat (TXREF_MAX_LENGTH + 1)))));
      [elim Hno; now split | reflexivity]. }
  rewrite !size_repeat in Hfits, Hoverflow.
  change (Z.of_nat 8) with 8 in Hfits, Hoverflow.
  rewrite Z2Nat.id in Hfits, Hoverflow by lia.
  split; [|split; [exact (decoded_reference_size inputTxref d Hd)|split]].
  - exists result. now repeat split.
  - split.
    + intros (result' & Hanswer).
      destruct (Z_le_dec (size (txref.hrp d)) 7) as [Hhrp | Hhrp];
        destruct (Z_le_dec (size (txref.txref_ d)) TXREF_MAX_LENGTH)
          as [Htxref | Htxref];
        try (split; assumption);
        (rewrite Hoverflow in Hanswer; [discriminate Hanswer|];
         intros (H1 & H2); lia).
    + intros (Hhrp & Htxref). apply Hfits. split; lia.
  - intros Hlong. apply Hoverflow. intros (H1 & H2). lia.
Qed.

Lemma decode_into_storage_witness :
  (exists result,
     @txref_decode libbech32.codec false
       (create_DecodedResult_storage 30 txref.Invalid true true true)
       (Some (str "tx1:rjk0-uqay-z9l7-m9m" ++ [zero])) 23
     = Ok (capi.E_TXREF_SUCCESS, result)) /\
  @txref_decode libbech32.codec false
    (create_DecodedResult_storage 30 txref.Invalid true true true)
    (Some (str "txtesttx1:rqqq-qqqq-q3s3-smx" ++ [zero])) 29
  = Undefined.
Proof.
  assert (Hd : @decode libbech32.codec (str "tx1:rjk0-uqay-z9l7-m9m")
               = Ok {| txref.hrp := str "tx";
                       txref.txref_ := str "tx1:rjk0-uqay-z9l7-m9m";
                       txref.blockHeight := 466793;
                       txref.transactionPosition := 2205;
                       txref.txoIndex := 0;
                       txref.magicCode := 3;
                       txref.encoding := txref.Bech32m;
                       txref.commentary := [] |})
    by (vm_compute; reflexivity).
  assert (Hlong : @decode libbech32.codec (str "txtesttx1:rqqq-qqqq-q3s3-smx")
                  = Ok {| txref.hrp := str "txtesttx";
                          txref.txref_ := str "txtesttx1:rqqq-qqqq-q3s3-smx";
                          txref.blockHeight := 0;
                          txref.transactionPosition := 0;
                          txref.txoIndex := 0;
                          txref.magicCode := 3;
                          txref.encoding := txref.Bech32m;
                          txref.commentary := [] |})
    by (vm_compute; reflexivity).
  split.
  - destruct (decode_into_storage libbech32.codec libbech32_laws 30 txref.Invalid
                false (str "tx1:rjk0-uqay-z9l7-m9m" ++ [zero]) 23
                (str "tx1:rjk0-uqay-z9l7-m9m") _
                ltac:(lia) eq_refl ltac:(vm_compute; reflexivity) ltac:(lia)
                Hd (or_introl eq_refl)) as (_ & _ & Hsuccess & _).
    apply Hsuccess. split; vm_compute; discriminate.
  - destruct (decode_into_storage libbech32.codec libbech32_laws 30 txref.Invalid
                false (str "txtesttx1:rqqq-qqqq-q3s3-smx" ++ [zero]) 29
                (str "txtesttx1:rqqq-qqqq-q3s3-smx") _
                ltac:(lia) eq_refl ltac:(vm_compute; reflexivity) ltac:(lia)
                Hlong (or_introl eq_refl)) as (_ & _ & _ & Hundefined).
    apply Hundefined. left. vm_compute. reflexivity.
Defined.

(** X22.  [txref_strerror] never reads outside its table.  When
    libtxref.h numbers the enumerators of [txref_error] from 0 in the
    order of the table of descriptions, [txref_strerror] returns a
    description for every integer: the description of the code for 0 to
    3, and "Unknown error" for every other value, E_TXREF_MAX_ERROR
    included, so that "Max error" is never returned. *)
Theorem txref_strerror_total (value : capi.txref_error -> Z) :
  value capi.E_TXREF_SUCCESS = 0 ->
  value capi.E_TXREF_UNKNOWN_ERROR = 1 ->
  value capi.E_TXREF_NULL_ARGUMENT = 2 ->
  value capi.E_TXREF_LENGTH_TOO_SHORT = 3 ->
  value capi.E_TXREF_MAX_ERROR = 4 ->
  txref_strerror value (value capi.E_TXREF_SUCCESS) = Ok "Success"%string /\
  txref_strerror value (value capi.E_TXREF_UNKNOWN_ERROR)
  = Ok "Unknown error"%string /\
  txref_strerror value (value capi.E_TXREF_NULL_ARGUMENT)
  = Ok "Function argument was null"%string /\
  txref_strerror value (value capi.E_TXREF_LENGTH_TOO_SHORT)
  = Ok "Function argument length was too short"%string /\
  txref_strerror value (value capi.E_TXREF_MAX_ERROR)
  = Ok "Unknown error"%string /\
  (forall error_code,
     error_code < 0 \/ 4 <= error_code ->
     txref_strerror value error_code = Ok "Unknown error"%string) /\
  (forall error_code,
     exists text,
       txref_strerror value error_code = Ok text /\ text <> "Max error"%string).
Proof.
  intros H0 H1 H2 H3 H4.
  assert (Hout : forall error_code,
            error_code < 0 \/ 4 <= error_code ->
            txref_strerror value error_code = Ok "Unknown error"%string).
  { intros error_code Hrange. unfold txref_strerror. rewrite H0, H1, H4.
    destruct (Z.geb_spec error_code 0); destruct (Z.ltb_spec error_code 4);
      cbn [andb]; try reflexivity; lia. }
  assert (Hin : forall error_code,
            0 <= error_code < 4 ->
            txref_strerror value error_code = subscript txref_errordesc error_code).
  { intros error_code Hrange. unfold txref_strerror. rewrite H0, H4.
    destruct (Z.geb_spec error_code 0); destruct (Z.ltb_spec error_code 4);
      cbn [andb]; try reflexivity; lia. }
  rewrite H0, H1, H2, H3, H4.
  split; [now rewrite Hin by lia|].
  split; [now rewrite Hin by lia|].
  split; [now rewrite Hin by lia|].
  split; [now rewrite Hin by lia|].
  split; [apply Hout; lia|].
  split; [exact Hout|].
  intros error_code.
  destruct (Z_lt_dec error_code 0) as [Hneg | Hnn].
  { exists "Unknown error"%string. split; [apply Hout; lia | discriminate]. }
  destruct (Z_le_dec 4 error_code) as [Hbig | Hsmall].
  { exists "Unknown error"%string. split; [apply Hout; lia | discriminate]. }
  rewrite Hin by lia.
  assert (Hcase : error_code = 0 \/ error_code = 1 \/ error_code = 2 \/
                  error_code = 3) by lia.
  destruct Hcase as [-> | [-> | [-> | ->]]];
    (eexists; split; [reflexivity | discriminate]).
Qed.

Lemma txref_strerror_total_witness :
  txref_strerror table_order 3
  = Ok "Function argument length was too short"%string /\
  txref_strerror table_order 4 = Ok "Unknown error"%string /\
  txref_strerror table_order (-1) = Ok "Unknown error"%string.
Proof.
  destruct (txref_strerror_total table_order
              eq_refl eq_refl eq_refl eq_refl eq_refl)
    as (_ & _ & _ & Hshort & Hmax & Hout & _).
  split; [exact Hshort|]. split; [exact Hmax|].
  apply Hout. left. lia.
Defined.

(** ** From one binding to the other *)

Lemma c_str_terminated s rest :
  forallb not_null s = true -> c_str (s ++ zero :: rest) = Ok s.
Proof.
  induction s as [|c s IH]; cbn [app c_str forallb]; [reflexivity|].
  intros H. apply andb_true_iff in H as (Hc & Hs).
  unfold not_null in Hc. apply negb_true_iff in Hc. rewrite Hc.
  now rewrite (IH Hs).
Qed.

Lemma grouped_from_forall (P : ascii -> bool) separatorOffset l : forall i,
  P txref.hyphen = true -> forallb P l = true ->
  forallb P (grouped_from separatorOffset i l) = true.
Proof.
  induction l as [|c l IH]; intros i Hhyphen Hl; cbn [grouped_from forallb];
    [reflexivity|].
  cbn [forallb] in Hl. apply andb_true_iff in Hl as (Hc & Hl).
  rewrite forallb_app, (IH (i + 1) Hhyphen Hl), andb_true_r.
  destruct ((0 <? i) && (i mod separatorOffset =? 0)); cbn [forallb];
    now rewrite ?Hhyphen, Hc.
Qed.

Section RoundTripBindings.

Context {codec : bech32.Codec} {laws : bech32.Laws codec}.

(** No null character in what the encoders print. *)
Lemma printed_not_null hrp dp s :
  forallb bech32.isCodecChar hrp = true ->
  2 <= size dp ->
  (result <- call (bech32.encode hrp dp) ;; prettyPrint result (size hrp)) = Ok s ->
  forallb not_null s = true.
Proof.
  intros Hhrp Hdp Hs.
  destruct (print_layout hrp dp s Hhrp Hdp Hs)
    as (body & _ & Hbody & _ & -> & _).
  rewrite forallb_app. cbn [forallb].
  assert (Hcodec : forall l, forallb bech32.isCodecChar l = true ->
                             forallb not_null l = true).
  { intros l. apply forallb_impl. now apply codec_char_forall. }
  rewrite (Hcodec hrp Hhrp).
  unfold grouped. rewrite grouped_from_forall; [reflexivity | reflexivity |].
  apply Hcodec. now apply symbol_chars_are_codec_chars.
Qed.

Lemma encode_for_not_null testnet h p t forceExtended hrp s :
  forallb bech32.isCodecChar hrp = true ->
  encode_for testnet h p t forceExtended hrp = Ok s ->
  forallb not_null s = true.
Proof.
  intros Hhrp Hs.
  destruct (encode_for_Ok _ _ _ _ _ _ _ Hs) as ((Hh & Hp & Ht) & Hprint).
  destruct (payload_of_spec testnet h p t forceExtended Hh Hp Ht)
    as (_ & Hsize & _).
  apply (printed_not_null hrp (payload_of testnet h p t forceExtended) s Hhrp);
    [|exact Hprint].
  rewrite Hsize. destruct (negb (t =? 0) || forceExtended); lia.
Qed.

End RoundTripBindings.

Section BindingsCompose.

Context {codec : bech32.Codec} {laws : bech32.Laws codec}.

Lemma after_encoder_success buffer txreflen hrplen inputHrp encoded buffer' :
  after_encoder buffer txreflen hrplen inputHrp encoded
  = Ok (capi.E_TXREF_SUCCESS, Some buffer') ->
  exists s,
    encoded = Ok s /\ size s < size buffer /\
    buffer' = s ++ zero :: skipn (S (List.length s)) buffer.
Proof.
  unfold after_encoder.
  destruct (size inputHrp >? to_size_type (hrplen - 1)); [discriminate|].
  destruct encoded as [s | e | |]; try discriminate.
  destruct (size s >? to_size_type (txreflen - 1)); [discriminate|].
  destruct (Z.ltb_spec (size s) (size buffer)); [|discriminate].
  intros [= <-]. now exists s.
Qed.

Lemma decode_encoded_buffer testnet available h p t forceExtended inputHrp s
  result txrefBuffer hrpBuffer rest len :
  forallb bech32.isCodecChar inputHrp = true ->
  mistaken_for_missing_hrp inputHrp (negb (t =? 0) || forceExtended) = false ->
  encode_for testnet h p t forceExtended inputHrp = Ok s ->
  capi.txref_ result = Some txrefBuffer ->
  capi.hrp result = Some hrpBuffer ->
  size s < len -> len < 2 ^ 64 ->
  size inputHrp < size hrpBuffer -> size s < size txrefBuffer ->
  c_str (s ++ zero :: rest) = Ok s /\
  exists result',
    txref_decode available (Some result) (Some (s ++ zero :: rest)) len
    = Ok (capi.E_TXREF_SUCCESS, Some result') /\
    capi.blockHeight result' = h /\
    capi.transactionPosition result' = p /\
    capi.txoIndex result' = t /\
    capi.hrp result'
    = Some (inputHrp ++ zero :: skipn (S (List.length inputHrp)) hrpBuffer) /\
    capi.txref_ result'
    = Some (s ++ zero :: skipn (S (List.length s)) txrefBuffer).
Proof.
  intros Hhrp Hmistaken Hs Htxref Hhrpbuf Hlen Hmax Hfit1 Hfit2.
  pose proof (encode_for_not_null testnet h p t forceExtended inputHrp s Hhrp Hs)
    as Hnull.
  pose proof (c_str_terminated s rest Hnull) as Hread.
  split; [exact Hread|].
  pose proof (decode_encode_for testnet h p t forceExtended inputHrp s
                Hhrp Hmistaken Hs) as Hd.
  pose proof (size_nonneg s) as Hnn.
  assert (Hpass : (size s >? to_size_type (len - 1)) = false).
  { rewrite to_size_type_small by lia.
    destruct (Z.gtb_spec (size s) (len - 1)); [lia | reflexivity]. }
  rewrite (txref_decode_after available result txrefBuffer hrpBuffer
             (s ++ zero :: rest) len s _ Htxref Hhrpbuf Hread Hpass Hd);
    [|reflexivity].
  cbn [txref.hrp txref.txref_ txref.commentary].
  apply Z.ltb_lt in Hfit1, Hfit2. rewrite Hfit1, Hfit2.
  cbn [andb orb size List.length Z.of_nat Z.eqb].
  eexists. split; [reflexivity|]. now repeat split.
Qed.

End BindingsCompose.

(** X23.  From [txref_encode] to [txref_decode].  Under the contract of
    the codec, with an HRP over the alphabet of the codec that is not
    taken for a missing one: when [txref_encode] or [txref_encodeTestnet]
    answers E_TXREF_SUCCESS, the buffer read as a C string is the string
    of the encoder, and [txref_decode] on that buffer, given a length
    above the length of the string and arrays that are longer than the
    HRP and the string, answers E_TXREF_SUCCESS with the block height,
    the transaction position and the txo index that were encoded, the
    HRP and the string in its arrays. *)
Theorem bindings_round_trip (codec : bech32.Codec) (laws : bech32.Laws codec)
  buffer buffer' txreflen h p t forceExtended hrpBytes hrplen inputHrp :
  c_str hrpBytes = Ok inputHrp ->
  forallb bech32.isCodecChar inputHrp = true ->
  mistaken_for_missing_hrp inputHrp (negb (t =? 0) || forceExtended) = false ->
  txref_encode (Some buffer) txreflen h p t forceExtended (Some hrpBytes) hrplen
  = Ok (capi.E_TXREF_SUCCESS, Some buffer') \/
  txref_encodeTestnet (Some buffer) txreflen h p t forceExtended
    (Some hrpBytes) hrplen
  = Ok (capi.E_TXREF_SUCCESS, Some buffer') ->
  exists s,
    c_str buffer' = Ok s /\
    (encode h p t forceExtended inputHrp = Ok s \/
     encodeTestnet h p t forceExtended inputHrp = Ok s) /\
    forall available result txrefBuffer hrpBuffer len,
      capi.txref_ result = Some txrefBuffer ->
      capi.hrp result = Some hrpBuffer ->
      size s < len -> len < 2 ^ 64 ->
      size inputHrp < size hrpBuffer -> size s < size txrefBuffer ->
      exists result',
        txref_decode available (Some result) (Some buffer') len
        = Ok (capi.E_TXREF_SUCCESS, Some result') /\
        capi.blockHeight result' = h /\
        capi.transactionPosition result' = p /\
        capi.txoIndex result' = t /\
        capi.hrp result'
        = Some (inputHrp ++ zero :: skipn (S (List.length inputHrp)) hrpBuffer) /\
        capi.txref_ result'
        = Some (s ++ zero :: skipn (S (List.length s)) txrefBuffer).
Proof.
  intros Hin Hhrp Hmistaken Hsuccess.
  assert (Hfor : exists testnet s,
            encode_for testnet h p t forceExtended inputHrp = Ok s /\
            buffer' = s ++ zero :: skipn (S (List.length s)) buffer).
  { destruct Hsuccess as [Hsuccess | Hsuccess].
    - rewrite (txref_encode_after _ _ _ _ _ _ _ _ _ Hin) in Hsuccess.
      apply after_encoder_success in Hsuccess as (s & Hs & _ & Hbuffer).
      now exists false, s.
    - rewrite (txref_encodeTestnet_after _ _ _ _ _ _ _ _ _ Hin) in Hsuccess.
      apply after_encoder_success in Hsuccess as (s & Hs & _ & Hbuffer).
      now exists true, s. }
  destruct Hfor as (testnet & s & Hs & ->).
  exists s.
  split; [|split].
  - apply c_str_terminated.
    now apply (encode_for_not_null testnet h p t forceExtended inputHrp).
  - destruct testnet; [now right | now left].
  - intros available result txrefBuffer hrpBuffer len Htxref Hhrpbuf Hlen Hmax
      Hfit1 Hfit2.
    now apply (decode_encoded_buffer testnet available h p t forceExtended
                 inputHrp s result txrefBuffer hrpBuffer _ len).
Qed.

Lemma bindings_round_trip_witness :
  exists s,
    c_str (str "tx1:rjk0-uqay-z9l7-m9m" ++ zero :: repeat (chr "x") 9) = Ok s /\
    (@encode libbech32.codec 466793 2205 0 false (str "tx") = Ok s \/
     @encodeTestnet libbech32.codec 466793 2205 0 false (str "tx") = Ok s).
Proof.
  assert (Hs : @txref_encode libbech32.codec (Some (repeat (chr "x") 32)) 32
                 466793 2205 0 false (Some (str "tx" ++ [zero])) 3
               = Ok (capi.E_TXREF_SUCCESS,
                     Some (str "tx1:rjk0-uqay-z9l7-m9m"
                           ++ zero :: repeat (chr "x") 9)))
    by (vm_compute; reflexivity).
  destruct (bindings_round_trip libbech32.codec libbech32_laws
              (repeat (chr "x") 32) _ 32 466793 2205 0 false
              (str "tx" ++ [zero]) 3 (str "tx") eq_refl eq_refl eq_refl
              (or_introl Hs)) as (s & Hread & Hencoded & _).
  exists s. split; [exact Hread | exact Hencoded].
Defined.
